(** * VulkanTest/main.cpp: a shallow embedding of HelloTriangleApplication

    The program is glue code over GLFW and Vulkan.  Everything the driver and
    the windowing library answer is collected in one record, [Platform]; the
    member functions of [HelloTriangleApplication] become functions over it.
    Pure helpers ([chooseSwapExtent], [findQueueFamilies], ...) are plain
    functions; the member functions that create or destroy objects, throw, or
    mutate members live in a small exception/state/trace monad.

    The file has three parts: the embedding of the program, the notions used
    to state its properties, and the properties with their proofs. *)

From Stdlib Require Import ZArith String QArith Lia.
From stdpp Require Import list strings gmap.

Local Open Scope string_scope.
Local Open Scope list_scope.
Local Open Scope Z_scope.

(** ** 32-bit unsigned arithmetic *)

Module U32.

Definition modulus : Z := 2 ^ 32.

(** [UINT32_MAX] of <cstdint>. *)
Definition UINT32_MAX : Z := 4294967295.

(** Reduction of an integer to its [uint32_t] value: the result of an
    unsigned operation, or of [static_cast<uint32_t>] on an [int]. *)
Definition wrap (z : Z) : Z := z mod modulus.

Definition add (a b : Z) : Z := wrap (a + b).

Definition in_range (z : Z) : Prop := 0 <= z < modulus.

End U32.

(** ** Vulkan data, as far as the program looks at it

    The structures and enumerators come from the Vulkan headers, which are not
    part of the repository; the numeric values below are the ones published in
    vulkan_core.h. *)

Definition VkFormat := Z.
Definition VkColorSpaceKHR := Z.
Definition VkFlags := Z.

Definition VK_FORMAT_B8G8R8A8_SRGB : VkFormat := 50.
Definition VK_COLOR_SPACE_SRGB_NONLINEAR_KHR : VkColorSpaceKHR := 0.
Definition VK_QUEUE_GRAPHICS_BIT : VkFlags := 1.

Inductive VkPresentModeKHR : Set :=
| VK_PRESENT_MODE_IMMEDIATE_KHR
| VK_PRESENT_MODE_MAILBOX_KHR
| VK_PRESENT_MODE_FIFO_KHR
| VK_PRESENT_MODE_FIFO_RELAXED_KHR
| VK_PRESENT_MODE_SHARED_DEMAND_REFRESH_KHR
| VK_PRESENT_MODE_SHARED_CONTINUOUS_REFRESH_KHR.

#[global] Instance VkPresentModeKHR_eq_dec : EqDecision VkPresentModeKHR.
Proof. solve_decision. Defined.

Record VkExtent2D : Set := mkExtent { width : Z; height : Z }.

Record VkSurfaceFormatKHR : Set :=
  mkSurfaceFormat { format : VkFormat; colorSpace : VkColorSpaceKHR }.

#[global] Instance VkSurfaceFormatKHR_eq_dec : EqDecision VkSurfaceFormatKHR.
Proof. solve_decision. Defined.

(** The fields of [VkSurfaceCapabilitiesKHR] the program reads. *)
Record VkSurfaceCapabilitiesKHR : Set := mkCapabilities {
  minImageCount : Z;
  maxImageCount : Z;
  currentExtent : VkExtent2D;
  minImageExtent : VkExtent2D;
  maxImageExtent : VkExtent2D;
  currentTransform : VkFlags
}.

Record VkQueueFamilyProperties : Set := mkQueueFamily {
  queueFlags : VkFlags;
  queueCount : Z
}.

(** ** Swap chain choices (pure member functions) *)

(** [chooseSwapSurfaceFormat]: the first candidate that is BGRA8-sRGB with the
    sRGB-nonlinear colour space, else [availableFormats[0]].  Indexing an
    empty vector has no defined behaviour; the model answers [None] there. *)
Definition is_preferred_format (f : VkSurfaceFormatKHR) : bool :=
  (format f =? VK_FORMAT_B8G8R8A8_SRGB) &&
  (colorSpace f =? VK_COLOR_SPACE_SRGB_NONLINEAR_KHR).

Fixpoint chooseSwapSurfaceFormat_loop (l : list VkSurfaceFormatKHR)
  : option VkSurfaceFormatKHR :=
  match l with
  | [] => None
  | availableFormat :: rest =>
      if is_preferred_format availableFormat then Some availableFormat
      else chooseSwapSurfaceFormat_loop rest
  end.

Definition chooseSwapSurfaceFormat (availableFormats : list VkSurfaceFormatKHR)
  : option VkSurfaceFormatKHR :=
  match chooseSwapSurfaceFormat_loop availableFormats with
  | Some f => Some f
  | None => availableFormats !! 0%nat
  end.

(** [chooseSwapPresentMode]. *)
Fixpoint chooseSwapPresentMode (availablePresentModes : list VkPresentModeKHR)
  : VkPresentModeKHR :=
  match availablePresentModes with
  | [] => VK_PRESENT_MODE_FIFO_KHR
  | availablePresentMode :: rest =>
      if decide (availablePresentMode = VK_PRESENT_MODE_MAILBOX_KHR)
      then availablePresentMode
      else chooseSwapPresentMode rest
  end.

(** [chooseSwapExtent].  [fb] is what [glfwGetFramebufferSize] stores into the
    two [int]s; they are converted with [static_cast<uint32_t>]. *)
Definition chooseSwapExtent (fb : Z * Z) (capabilities : VkSurfaceCapabilitiesKHR)
  : VkExtent2D :=
  if negb (width (currentExtent capabilities) =? U32.UINT32_MAX)
  then currentExtent capabilities
  else
    let actualExtent := mkExtent (U32.wrap (fst fb)) (U32.wrap (snd fb)) in
    mkExtent
      (Z.max (width (minImageExtent capabilities))
             (Z.min (width (maxImageExtent capabilities)) (width actualExtent)))
      (Z.max (height (minImageExtent capabilities))
             (Z.min (height (maxImageExtent capabilities)) (height actualExtent))).

(** The local [imageCount] of [createSwapChain]. *)
Definition imageCount (capabilities : VkSurfaceCapabilitiesKHR) : Z :=
  let imageCount := U32.add (minImageCount capabilities) 1 in
  if (maxImageCount capabilities >? 0) && (imageCount >? maxImageCount capabilities)
  then maxImageCount capabilities
  else imageCount.

(** ** The platform: what the driver, GLFW and the file system answer

    Devices are named by their handles.  The driver's answers do not change
    while the program runs, so every query is a function of its arguments. *)

Definition VkPhysicalDevice := Z.
Definition VK_NULL_HANDLE : Z := 0.

Inductive VkResult : Set :=
| VK_SUCCESS
| VK_ERROR_EXTENSION_NOT_PRESENT
| VK_ERROR_INITIALIZATION_FAILED.

#[global] Instance VkResult_eq_dec : EqDecision VkResult.
Proof. solve_decision. Defined.

Inductive ShaderStage : Set := Vert | Frag.

(** The calls whose [VkResult] the program compares with [VK_SUCCESS]. *)
Inductive Call : Set :=
| vkCreateInstance
| vkCreateDebugUtilsMessengerEXT
| glfwCreateWindowSurface
| vkCreateDevice
| vkCreateSwapchainKHR
| vkCreateImageView (i : nat)
| vkCreateRenderPass
| vkCreateShaderModule (stage : ShaderStage)
| vkCreatePipelineLayout
| vkCreateGraphicsPipelines
| vkCreateFramebuffer (i : nat)
| vkCreateCommandPool
| vkAllocateCommandBuffers
| vkBeginCommandBuffer (i : nat)
| vkEndCommandBuffer (i : nat).

Record Platform : Type := mkPlatform {
  (** the compile-time switch: [NDEBUG] defined or not *)
  NDEBUG : bool;
  (** [vkEnumerateInstanceLayerProperties]: the [layerName]s *)
  instanceLayers : list string;
  (** [vkEnumerateInstanceExtensionProperties]: name and [specVersion] *)
  instanceExtensions : list (string * Z);
  (** [vkGetInstanceProcAddr(instance, name) != nullptr] *)
  procAddr : string -> bool;
  (** [vkEnumeratePhysicalDevices] *)
  physicalDevices : list VkPhysicalDevice;
  (** [vkGetPhysicalDeviceQueueFamilyProperties] *)
  queueFamilyProperties : VkPhysicalDevice -> list VkQueueFamilyProperties;
  (** [vkGetPhysicalDeviceSurfaceSupportKHR(device, i, surface, &presentSupport)] *)
  surfaceSupport : VkPhysicalDevice -> nat -> bool;
  (** [vkEnumerateDeviceExtensionProperties]: the [extensionName]s *)
  deviceExtensionProperties : VkPhysicalDevice -> list string;
  surfaceCapabilities : VkPhysicalDevice -> VkSurfaceCapabilitiesKHR;
  surfaceFormats : VkPhysicalDevice -> list VkSurfaceFormatKHR;
  surfacePresentModes : VkPhysicalDevice -> list VkPresentModeKHR;
  (** [glfwGetFramebufferSize] *)
  framebufferSize : Z * Z;
  (** [vkGetSwapchainImagesKHR]: the image handles of the created swap chain *)
  swapchainImages : list Z;
  (** the bytes of a file, [None] when it cannot be opened *)
  fileContents : string -> option (list Byte.byte);
  (** the result of each checked call *)
  result : Call -> VkResult;
  (** [glfwWindowShouldClose(window)] after the given number of
      [glfwPollEvents] calls *)
  closeRequested : nat -> bool
}.

Definition validationLayers : list string := ["VK_LAYER_KHRONOS_validation"].

(** [VK_KHR_SWAPCHAIN_EXTENSION_NAME] *)
Definition deviceExtensions : list string := ["VK_KHR_swapchain"].

Definition enableValidationLayers (env : Platform) : bool := negb (NDEBUG env).

(** ** Validation layers and device suitability *)

(** [checkValidationLayerSupport]: every requested name is found by [strcmp]
    among the enumerated layers. *)
Fixpoint layerFound (layerName : string) (availableLayers : list string) : bool :=
  match availableLayers with
  | [] => false
  | layerProperties :: rest =>
      if String.eqb layerName layerProperties then true
      else layerFound layerName rest
  end.

Fixpoint checkValidationLayerSupport_loop (requested availableLayers : list string)
  : bool :=
  match requested with
  | [] => true
  | layerName :: rest =>
      if negb (layerFound layerName availableLayers) then false
      else checkValidationLayerSupport_loop rest availableLayers
  end.

Definition checkValidationLayerSupport (env : Platform) : bool :=
  checkValidationLayerSupport_loop validationLayers (instanceLayers env).

(** [checkDeviceExtensionSupport]: a [std::set] of the required names, from
    which every available name is erased. *)
Definition checkDeviceExtensionSupport (env : Platform) (device : VkPhysicalDevice)
  : bool :=
  let requiredExtensions : gset string := list_to_set deviceExtensions in
  let requiredExtensions :=
    foldl (fun req extension => req ∖ {[ extension ]}) requiredExtensions
          (deviceExtensionProperties env device) in
  bool_decide (requiredExtensions = ∅).

Record QueueFamilyIndices : Set := mkIndices {
  graphicsFamily : option nat;
  presentFamily : option nat
}.

Definition has_value {A} (o : option A) : bool :=
  match o with Some _ => true | None => false end.

Definition isComplete (indices : QueueFamilyIndices) : bool :=
  has_value (graphicsFamily indices) && has_value (presentFamily indices).

(** The body of the range-for of [findQueueFamilies]; [i] counts the families
    already visited.  Family indices are positions in the vector. *)
Fixpoint findQueueFamilies_loop (presentSupport : nat -> bool)
    (queueFamilies : list VkQueueFamilyProperties) (i : nat)
    (indices : QueueFamilyIndices) : QueueFamilyIndices :=
  match queueFamilies with
  | [] => indices
  | queueFamily :: rest =>
      let indices :=
        if negb (Z.land (queueFlags queueFamily) VK_QUEUE_GRAPHICS_BIT =? 0)
        then mkIndices (Some i) (presentFamily indices)
        else indices in
      let indices :=
        if presentSupport i
        then mkIndices (graphicsFamily indices) (Some i)
        else indices in
      if isComplete indices then indices
      else findQueueFamilies_loop presentSupport rest (S i) indices
  end.

Definition findQueueFamilies (env : Platform) (device : VkPhysicalDevice)
  : QueueFamilyIndices :=
  findQueueFamilies_loop (surfaceSupport env device)
    (queueFamilyProperties env device) 0%nat (mkIndices None None).

Record SwapChainSupportDetails : Set := mkSupport {
  capabilities : VkSurfaceCapabilitiesKHR;
  formats : list VkSurfaceFormatKHR;
  presentModes : list VkPresentModeKHR
}.

Definition querySwapChainSupport (env : Platform) (device : VkPhysicalDevice)
  : SwapChainSupportDetails :=
  mkSupport (surfaceCapabilities env device) (surfaceFormats env device)
            (surfacePresentModes env device).

(** [std::vector::empty] *)
Definition vector_empty {A} (v : list A) : bool :=
  match v with [] => true | _ => false end.

Definition isDeviceSuitable (env : Platform) (device : VkPhysicalDevice) : bool :=
  let indices := findQueueFamilies env device in
  let extensionsSupported := checkDeviceExtensionSupport env device in
  let swapChainAdequate :=
    if extensionsSupported
    then
      let swapChainSupport := querySwapChainSupport env device in
      negb (vector_empty (formats swapChainSupport))
      && negb (vector_empty (presentModes swapChainSupport))
    else false in
  isComplete indices && extensionsSupported && swapChainAdequate.

(** ** Objects, observable events, exceptions *)

(** The objects the program creates.  Single objects are named by their
    kind; image views and framebuffers by their position in their vector. *)
Inductive Resource : Set :=
| GlfwLibrary
| Window
| Instance
| DebugMessenger
| Surface
| LogicalDevice
| Swapchain
| ImageView (i : nat)
| RenderPass
| ShaderModule (stage : ShaderStage)
| PipelineLayout
| GraphicsPipeline
| Framebuffer (i : nat)
| CommandPool.

#[global] Instance ShaderStage_eq_dec : EqDecision ShaderStage.
Proof. solve_decision. Defined.

#[global] Instance Resource_eq_dec : EqDecision Resource.
Proof. solve_decision. Defined.

Record VkDeviceQueueCreateInfo : Set := mkQueueCreateInfo {
  queueFamilyIndex : nat;
  queueCreateCount : Z;
  pQueuePriorities : Q
}.

Record VkDeviceCreateInfo : Set := mkDeviceCreateInfo {
  pQueueCreateInfos : list VkDeviceQueueCreateInfo;
  queueCreateInfoCount : Z;
  ppEnabledExtensionNames : list string;
  ppEnabledLayerNames : list string
}.

Inductive VkSharingMode : Set :=
| VK_SHARING_MODE_EXCLUSIVE
| VK_SHARING_MODE_CONCURRENT.

Record VkSwapchainCreateInfoKHR : Set := mkSwapchainCreateInfo {
  sci_minImageCount : Z;
  sci_imageFormat : VkFormat;
  sci_imageColorSpace : VkColorSpaceKHR;
  sci_imageExtent : VkExtent2D;
  sci_imageSharingMode : VkSharingMode;
  sci_pQueueFamilyIndices : list nat;
  sci_preTransform : VkFlags;
  sci_presentMode : VkPresentModeKHR
}.

(** What the program does to the outside world, in order.  Queries are not
    recorded: their answers are read from the [Platform].

    [Stderr] is a line [main] writes to [std::cerr].  In a debug build the
    program also registers [debugCallback] with the driver (through the
    instance create-info and the debug messenger); the validation layer calls
    it when and as often as it sees fit, and each call writes a line
    "validation layer: ..." to [std::cerr].  Those lines are the driver's
    doing and are not part of the trace.  In a release build the callback is
    never registered. *)
Inductive Event : Set :=
| Create (r : Resource)                      (* a creation call that succeeded *)
| Destroy (r : Resource)                     (* a destruction call on a live handle *)
| DestroyNullHandle                          (* a destruction call on VK_NULL_HANDLE *)
| Call_vkCreateDevice (ci : VkDeviceCreateInfo)
| Call_vkCreateSwapchainKHR (ci : VkSwapchainCreateInfoKHR)
| GetDeviceQueue (family : nat) (index : Z)
| AllocateCommandBuffers (n : nat)
| BeginCommandBuffer (i : nat)
| CmdBeginRenderPass (i : nat) (framebuffer : option nat)
| CmdBindPipeline (i : nat)
| CmdDraw (i : nat) (vertexCount instanceCount firstVertex firstInstance : Z)
| CmdEndRenderPass (i : nat)
| EndCommandBuffer (i : nat)
| PollEvents
| QueueSubmit                                (* vkQueueSubmit *)
| QueuePresent                               (* vkQueuePresentKHR *)
| StdoutExtensionCount (n : nat)
| StdoutExtension (name : string) (specVersion : Z)
| Stderr (line : string).

Inductive exception : Set :=
| runtime_error (what_arg : string)
| bad_optional_access.

(** [std::exception::what]. *)
Definition what (e : exception) : string :=
  match e with
  | runtime_error what_arg => what_arg
  | bad_optional_access => "bad optional access"
  end.

(** Why a computation has neither returned nor thrown. *)
Inductive stuck : Set :=
| OutOfFuel            (* the event loop is still running *)
| UndefinedBehaviour.  (* e.g. indexing an empty vector *)

Inductive outcome (A : Type) : Type :=
| Returns (a : A)
| Throws (e : exception)
| Stuck (why : stuck).
Arguments Returns {A} a.
Arguments Throws {A} e.
Arguments Stuck {A} why.

(** ** Members of [HelloTriangleApplication] and the monad over them

    The record keeps the members whose values later code inspects: the
    selected physical device, the swap chain's images, format and extent, and
    the three handle vectors.  A handle in a vector is [Some i] once the
    [i]-th object has been created into it and [None] while it is still the
    null handle left by [resize].

    The handles of the single objects ([window], [instance],
    [debugMessenger], [surface], [device], [graphicsQueue], [presentQueue],
    [swapChain], [renderPass], [pipelineLayout], [graphicsPipeline],
    [commandPool]) are written once, by the call that creates or retrieves
    them, and afterwards only handed back to the driver.  The record does not
    hold them: such a write is the [Create] or [GetDeviceQueue] event of the
    trace.  Equality of two states therefore speaks of the members listed
    here and of no others. *)
Record App : Set := mkApp {
  physicalDevice : VkPhysicalDevice;
  swapChainImages : list Z;
  swapChainImageFormat : VkFormat;
  swapChainExtent : VkExtent2D;
  swapChainImageViews : list (option nat);
  swapChainFramebuffers : list (option nat);
  commandBuffers : list (option nat)
}.

Definition set_physicalDevice (v : VkPhysicalDevice) (s : App) : App :=
  mkApp v (swapChainImages s) (swapChainImageFormat s) (swapChainExtent s)
        (swapChainImageViews s) (swapChainFramebuffers s) (commandBuffers s).

Definition set_swapChain (imgs : list Z) (f : VkFormat) (e : VkExtent2D) (s : App)
  : App :=
  mkApp (physicalDevice s) imgs f e
        (swapChainImageViews s) (swapChainFramebuffers s) (commandBuffers s).

Definition set_swapChainImageViews (v : list (option nat)) (s : App) : App :=
  mkApp (physicalDevice s) (swapChainImages s) (swapChainImageFormat s)
        (swapChainExtent s) v (swapChainFramebuffers s) (commandBuffers s).

Definition set_swapChainFramebuffers (v : list (option nat)) (s : App) : App :=
  mkApp (physicalDevice s) (swapChainImages s) (swapChainImageFormat s)
        (swapChainExtent s) (swapChainImageViews s) v (commandBuffers s).

Definition set_commandBuffers (v : list (option nat)) (s : App) : App :=
  mkApp (physicalDevice s) (swapChainImages s) (swapChainImageFormat s)
        (swapChainExtent s) (swapChainImageViews s) (swapChainFramebuffers s) v.

(** A computation maps the members to an outcome, the new members and the
    events it produced.  An exception keeps the members and the events
    produced before it was thrown. *)
Definition M (A : Type) : Type := App -> outcome A * App * list Event.

Definition ret {A} (a : A) : M A := fun s => (Returns a, s, []).

Definition bind {A B} (m : M A) (k : A -> M B) : M B :=
  fun s =>
    match m s with
    | (Returns a, s1, t1) =>
        match k a s1 with
        | (o, s2, t2) => (o, s2, t1 ++ t2)
        end
    | (Throws e, s1, t1) => (Throws e, s1, t1)
    | (Stuck w, s1, t1) => (Stuck w, s1, t1)
    end.

Notation "x <- m ;; k" := (bind m (fun x => k))
  (at level 100, m at next level, right associativity).
Notation "m ;;; k" := (bind m (fun _ => k))
  (at level 100, right associativity).

Definition throw {A} (e : exception) : M A := fun s => (Throws e, s, []).
Definition undefined {A} : M A := fun s => (Stuck UndefinedBehaviour, s, []).
Definition emit (e : Event) : M unit := fun s => (Returns tt, s, [e]).
Definition get : M App := fun s => (Returns s, s, []).
Definition modify (f : App -> App) : M unit := fun s => (Returns tt, f s, []).

(** [std::optional::value]. *)
Definition value {A} (o : option A) : M A :=
  match o with
  | Some a => ret a
  | None => throw bad_optional_access
  end.

(** A range-for over [l]. *)
Fixpoint for_each {A} (l : list A) (body : A -> M unit) : M unit :=
  match l with
  | [] => ret tt
  | x :: rest => body x ;;; for_each rest body
  end.

(** [std::vector::resize] with value-initialised new elements. *)
Definition resize {A} (n : nat) (v : list (option A)) : list (option A) :=
  take n v ++ replicate (n - length v) None.

Definition outcome_of {A} (r : outcome A * App * list Event) : outcome A := r.1.1.
Definition state_of {A} (r : outcome A * App * list Event) : App := r.1.2.
Definition trace_of {A} (r : outcome A * App * list Event) : list Event := r.2.

(** ** The member functions *)

Section Program.

Variable env : Platform.

(** A checked call: when the platform answers [VK_SUCCESS] its effect [ev]
    takes place; the result is handed back to the caller either way. *)
Definition call (c : Call) (ev : Event) : M VkResult :=
  match result env c with
  | VK_SUCCESS => emit ev ;;; ret VK_SUCCESS
  | r => ret r
  end.

(** [if (r != VK_SUCCESS) throw std::runtime_error(msg);] *)
Definition throw_unless_success (r : VkResult) (msg : string) : M unit :=
  if negb (bool_decide (r = VK_SUCCESS)) then throw (runtime_error msg)
  else ret tt.

(** [initWindow].  The results of [glfwInit] and [glfwCreateWindow] are not
    inspected by the source; both are taken to succeed. *)
Definition initWindow : M unit :=
  emit (Create GlfwLibrary) ;;;
  emit (Create Window).

(** [printExtensions].  The count is printed first.  The second call of
    [vkEnumerateInstanceExtensionProperties] is then given the local array of
    32 entries together with the full count, so with more than 32 instance
    extensions the driver writes past the end of the array: undefined
    behaviour.  Otherwise the loop, guarded by [i < extensionCount && i < 32],
    prints every entry. *)
Definition printExtensions : M unit :=
  emit (StdoutExtensionCount (length (instanceExtensions env))) ;;;
  if (32 <? length (instanceExtensions env))%nat
  then undefined
  else
    for_each (take 32 (instanceExtensions env))
      (fun extension => emit (StdoutExtension extension.1 extension.2)).

Definition createInstance : M unit :=
  if enableValidationLayers env && negb (checkValidationLayerSupport env)
  then throw (runtime_error "validation layers requested, but not available!")
  else
    r <- call vkCreateInstance (Create Instance) ;;
    throw_unless_success r "failed to create instance!".

Definition CreateDebugUtilMessengerEXT : M VkResult :=
  if procAddr env "vkCreateDebugUtilsMessengerEXT"
  then call vkCreateDebugUtilsMessengerEXT (Create DebugMessenger)
  else ret VK_ERROR_EXTENSION_NOT_PRESENT.

Definition DestroyDebugUtilsMessengerEXT : M unit :=
  if procAddr env "vkDestroyDebugUtilsMessengerEXT"
  then emit (Destroy DebugMessenger)
  else ret tt.

Definition setupDebugMessenger : M unit :=
  if negb (enableValidationLayers env) then ret tt
  else
    r <- CreateDebugUtilMessengerEXT ;;
    throw_unless_success r "failed to set up debug messenger!".

Definition createSurface : M unit :=
  r <- call glfwCreateWindowSurface (Create Surface) ;;
  throw_unless_success r "failed to create window surface!".

Fixpoint pickPhysicalDevice_loop (devices : list VkPhysicalDevice) : M unit :=
  match devices with
  | [] => ret tt
  | device :: rest =>
      if isDeviceSuitable env device
      then modify (set_physicalDevice device)
      else pickPhysicalDevice_loop rest
  end.

Definition pickPhysicalDevice : M unit :=
  let deviceCount := length (physicalDevices env) in
  if (deviceCount =? 0)%nat
  then throw (runtime_error "failed to find GPUs with Vulkan support!")
  else
    pickPhysicalDevice_loop (physicalDevices env) ;;;
    s <- get ;;
    if physicalDevice s =? VK_NULL_HANDLE
    then throw (runtime_error "failed to find a suitable GPU!")
    else ret tt.

Definition createLogicalDevice : M unit :=
  s <- get ;;
  let indices := findQueueFamilies env (physicalDevice s) in
  g <- value (graphicsFamily indices) ;;
  p <- value (presentFamily indices) ;;
  let uniqueQueueFamilies : list nat := [g; p] in
  let queuePriority : Q := 1%Q in
  let queueCreateInfos :=
    map (fun queueFamily => mkQueueCreateInfo queueFamily 1 queuePriority)
        uniqueQueueFamilies in
  let createInfo :=
    mkDeviceCreateInfo queueCreateInfos
      (U32.wrap (Z.of_nat (length queueCreateInfos)))
      deviceExtensions
      (if enableValidationLayers env then validationLayers else []) in
  emit (Call_vkCreateDevice createInfo) ;;;
  r <- call vkCreateDevice (Create LogicalDevice) ;;
  throw_unless_success r "failed to create logical device!" ;;;
  g' <- value (graphicsFamily indices) ;;
  emit (GetDeviceQueue g' 0) ;;;
  p' <- value (presentFamily indices) ;;
  emit (GetDeviceQueue p' 0).

Definition createSwapChain : M unit :=
  s <- get ;;
  let swapChainSupport := querySwapChainSupport env (physicalDevice s) in
  surfaceFormat <-
    match chooseSwapSurfaceFormat (formats swapChainSupport) with
    | Some f => ret f
    | None => undefined
    end ;;
  let presentMode := chooseSwapPresentMode (presentModes swapChainSupport) in
  let extent := chooseSwapExtent (framebufferSize env) (capabilities swapChainSupport) in
  let imageCount := imageCount (capabilities swapChainSupport) in
  let indices := findQueueFamilies env (physicalDevice s) in
  g <- value (graphicsFamily indices) ;;
  p <- value (presentFamily indices) ;;
  let queueFamilyIndices := [g; p] in
  let createInfo :=
    if negb (bool_decide (graphicsFamily indices = presentFamily indices))
    then mkSwapchainCreateInfo imageCount (format surfaceFormat)
           (colorSpace surfaceFormat) extent
           VK_SHARING_MODE_CONCURRENT queueFamilyIndices
           (currentTransform (capabilities swapChainSupport)) presentMode
    else mkSwapchainCreateInfo imageCount (format surfaceFormat)
           (colorSpace surfaceFormat) extent
           VK_SHARING_MODE_EXCLUSIVE []
           (currentTransform (capabilities swapChainSupport)) presentMode in
  emit (Call_vkCreateSwapchainKHR createInfo) ;;;
  r <- call vkCreateSwapchainKHR (Create Swapchain) ;;
  throw_unless_success r "failed to create swap chain!" ;;;
  modify (set_swapChain (swapchainImages env) (format surfaceFormat) extent).

Definition createImageviews : M unit :=
  s <- get ;;
  let n := length (swapChainImages s) in
  modify (fun s => set_swapChainImageViews (resize n (swapChainImageViews s)) s) ;;;
  for_each (seq 0 n) (fun i =>
    r <- call (vkCreateImageView i) (Create (ImageView i)) ;;
    throw_unless_success r "failed to create image views!" ;;;
    modify (fun s =>
      set_swapChainImageViews (<[ i := Some i ]> (swapChainImageViews s)) s)).

Definition createRenderPass : M unit :=
  r <- call vkCreateRenderPass (Create RenderPass) ;;
  throw_unless_success r "failed to create render pass!".

Definition readFile (filename : string) : M (list Byte.byte) :=
  match fileContents env filename with
  | None => throw (runtime_error "failed to open file!")
  | Some buffer => ret buffer
  end.

Definition createShaderModule (stage : ShaderStage) (code : list Byte.byte)
  : M unit :=
  r <- call (vkCreateShaderModule stage) (Create (ShaderModule stage)) ;;
  throw_unless_success r "failed to create shader module!".

(** [createGraphicsPipeline].  [createFixedFunctions] only fills in members
    that are handed to [vkCreateGraphicsPipelines]; it has no effect of its
    own and is left out. *)
Definition createGraphicsPipeline : M unit :=
  vertShaderCode <- readFile "vert.spv" ;;
  fragShaderCode <- readFile "frag.spv" ;;
  createShaderModule Vert vertShaderCode ;;;
  createShaderModule Frag fragShaderCode ;;;
  r <- call vkCreatePipelineLayout (Create PipelineLayout) ;;
  throw_unless_success r "failed to create pipeline layout!" ;;;
  r <- call vkCreateGraphicsPipelines (Create GraphicsPipeline) ;;
  throw_unless_success r "failed to create graphics pipeline!" ;;;
  emit (Destroy (ShaderModule Frag)) ;;;
  emit (Destroy (ShaderModule Vert)).

Definition createFramebuffers : M unit :=
  s <- get ;;
  let n := length (swapChainImageViews s) in
  modify (fun s =>
    set_swapChainFramebuffers (resize n (swapChainFramebuffers s)) s) ;;;
  for_each (seq 0 n) (fun i =>
    r <- call (vkCreateFramebuffer i) (Create (Framebuffer i)) ;;
    throw_unless_success r "failed to create framebuffer!" ;;;
    modify (fun s =>
      set_swapChainFramebuffers (<[ i := Some i ]> (swapChainFramebuffers s)) s)).

Definition createCommandPool : M unit :=
  s <- get ;;
  let queueFamilyIndices := findQueueFamilies env (physicalDevice s) in
  _ <- value (graphicsFamily queueFamilyIndices) ;;
  r <- call vkCreateCommandPool (Create CommandPool) ;;
  throw_unless_success r "failed to create command pool!".

Definition createCommandBuffers : M unit :=
  s <- get ;;
  let n := length (swapChainFramebuffers s) in
  modify (fun s => set_commandBuffers (resize n (commandBuffers s)) s) ;;;
  r <- call vkAllocateCommandBuffers (AllocateCommandBuffers n) ;;
  throw_unless_success r "failed to allocate command buffer!" ;;;
  modify (set_commandBuffers (map Some (seq 0 n))) ;;;
  for_each (seq 0 n) (fun i =>
    r <- call (vkBeginCommandBuffer i) (BeginCommandBuffer i) ;;
    throw_unless_success r "failed to begin recording command buffer!" ;;;
    s <- get ;;
    emit (CmdBeginRenderPass i (default None (swapChainFramebuffers s !! i))) ;;;
    emit (CmdBindPipeline i) ;;;
    emit (CmdDraw i 3 1 0 0) ;;;
    emit (CmdEndRenderPass i) ;;;
    r <- call (vkEndCommandBuffer i) (EndCommandBuffer i) ;;
    throw_unless_success r "failed to record command buffer!").

Definition initVulkan : M unit :=
  printExtensions ;;;
  createInstance ;;;
  setupDebugMessenger ;;;
  createSurface ;;;
  pickPhysicalDevice ;;;
  createLogicalDevice ;;;
  createSwapChain ;;;
  createImageviews ;;;
  createRenderPass ;;;
  createGraphicsPipeline ;;;
  createFramebuffers ;;;
  createCommandPool ;;;
  createCommandBuffers.

(** [mainLoop]: [polls] counts the [glfwPollEvents] calls made so far; one
    unit of fuel pays for one evaluation of the loop condition. *)
Fixpoint mainLoop_from (polls fuel : nat) : M unit :=
  match fuel with
  | O => fun s => (Stuck OutOfFuel, s, [])
  | S fuel' =>
      if negb (closeRequested env polls)
      then emit PollEvents ;;; mainLoop_from (S polls) fuel'
      else ret tt
  end.

Definition mainLoop (fuel : nat) : M unit := mainLoop_from 0 fuel.

(** A destruction call on an element of a handle vector. *)
Definition destroy (kind : nat -> Resource) (handle : option nat) : M unit :=
  match handle with
  | Some i => emit (Destroy (kind i))
  | None => emit DestroyNullHandle
  end.

Definition cleanup : M unit :=
  emit (Destroy CommandPool) ;;;
  s <- get ;;
  for_each (swapChainFramebuffers s) (fun framebuffer =>
    destroy Framebuffer framebuffer) ;;;
  emit (Destroy GraphicsPipeline) ;;;
  emit (Destroy PipelineLayout) ;;;
  emit (Destroy RenderPass) ;;;
  for_each (swapChainImageViews s) (fun imageView =>
    destroy ImageView imageView) ;;;
  emit (Destroy Swapchain) ;;;
  emit (Destroy LogicalDevice) ;;;
  (if enableValidationLayers env then DestroyDebugUtilsMessengerEXT else ret tt) ;;;
  emit (Destroy Surface) ;;;
  emit (Destroy Instance) ;;;
  emit (Destroy Window) ;;;
  emit (Destroy GlfwLibrary).

Definition run (fuel : nat) : M unit :=
  initWindow ;;;
  initVulkan ;;;
  mainLoop fuel ;;;
  cleanup.

Definition EXIT_SUCCESS : Z := 0.
Definition EXIT_FAILURE : Z := 1.

(** The members of a default-constructed application: the initialisers of
    the class give the null handle and empty vectors; the format and extent
    members start with indeterminate values. *)
Definition app0 (indeterminate : VkFormat * VkExtent2D) : App :=
  mkApp VK_NULL_HANDLE [] indeterminate.1 indeterminate.2 [] [] [].

(** [main]: the exit status ([None] while the event loop is still running or
    after undefined behaviour) and everything the process did. *)
Definition main (fuel : nat) (indeterminate : VkFormat * VkExtent2D)
  : option Z * list Event :=
  match run fuel (app0 indeterminate) with
  | (Returns _, _, t) => (Some EXIT_SUCCESS, t)
  | (Throws e, _, t) => (Some EXIT_FAILURE, t ++ [Stderr (what e)])
  | (Stuck _, _, t) => (None, t)
  end.

End Program.

(** * Notions used to state the properties *)

(** ** Swap chain choices *)

(** The format [chooseSwapSurfaceFormat] looks for. *)
Definition preferred_format : VkSurfaceFormatKHR :=
  mkSurfaceFormat VK_FORMAT_B8G8R8A8_SRGB VK_COLOR_SPACE_SRGB_NONLINEAR_KHR.

(** [r] is [v] clamped into the interval from [lo] to [hi]. *)
Definition clamped_into (lo hi v r : Z) : Prop :=
  lo <= r <= hi
  /\ (lo <= v <= hi -> r = v)
  /\ (v < lo -> r = lo)
  /\ (hi < v -> r = hi).

(** Following the spec's words: [clamp(v, lo, hi)] as [std::clamp] computes
    it, the lower bound first. *)
Definition clamp (v lo hi : Z) : Z :=
  if v <? lo then lo else if hi <? v then hi else v.

(** Following the spec's words: [clamp(minImageCount + 1, minImageCount,
    maxImageCount)] over 32-bit unsigned arithmetic, where a [maxImageCount]
    of 0 means that no upper clamp is applied. *)
Definition clamped_imageCount (caps : VkSurfaceCapabilitiesKHR) : Z :=
  let v := U32.add (minImageCount caps) 1 in
  if maxImageCount caps =? 0
  then (if v <? minImageCount caps then minImageCount caps else v)
  else clamp v (minImageCount caps) (maxImageCount caps).

(** ** Queue families *)

(** The flags of a family include graphics capability: bit 0 is set. *)
Definition graphics_capable (f : VkQueueFamilyProperties) : bool :=
  Z.testbit (queueFlags f) 0.

(** Family [i] of the device is graphics capable. *)
Definition graphicsAt (env : Platform) (device : VkPhysicalDevice) (i : nat) : bool :=
  match queueFamilyProperties env device !! i with
  | Some f => graphics_capable f
  | None => false
  end.

(** [o] is the highest index below [m] that satisfies [Q], if there is one. *)
Definition is_last (Q : nat -> bool) (m : nat) (o : option nat) : Prop :=
  match o with
  | Some g => (g < m)%nat /\ Q g = true /\ forall j, (g < j < m)%nat -> Q j = false
  | None => forall j, (j < m)%nat -> Q j = false
  end.

(** Some family of index at most [j] satisfies [Q]. *)
Definition seen (Q : nat -> bool) (j : nat) : Prop :=
  exists i, (i <= j)%nat /\ Q i = true.

(** ** Sample platforms *)

Definition sample_capabilities : VkSurfaceCapabilitiesKHR :=
  mkCapabilities 2 3 (mkExtent 800 600) (mkExtent 1 1) (mkExtent 4096 4096) 1.

(** A machine with one GPU (handle 7) that offers the swap chain extension,
    two surface formats and FIFO presentation; every checked call succeeds,
    both shader files open, the swap chain has two images and the window is
    closed after two polls. *)
Definition sample_platform (ndebug : bool) (layers : list string)
    (families : list VkQueueFamilyProperties) (present : nat -> bool) : Platform :=
  mkPlatform ndebug layers [("VK_KHR_surface", 25)] (fun _ => true) [7]
    (fun _ => families) (fun _ => present)
    (fun _ => ["VK_KHR_swapchain"])
    (fun _ => sample_capabilities)
    (fun _ => [mkSurfaceFormat 44 0; mkSurfaceFormat 50 0])
    (fun _ => [VK_PRESENT_MODE_FIFO_KHR])
    (800, 600) [11; 12]
    (fun _ => Some [])
    (fun _ => VK_SUCCESS)
    (fun polls => (2 <=? polls)%nat).

(** Family 0 does graphics only; family 1 does graphics and present. *)
Definition graphics_then_both : Platform :=
  sample_platform true [] [mkQueueFamily 1 1; mkQueueFamily 1 1]
                  (fun i => (i =? 1)%nat).

(** Family 0 does graphics and present. *)
Definition single_family : Platform :=
  sample_platform true [] [mkQueueFamily 15 16] (fun i => (i =? 0)%nat).

(** Family 0 does present only; family 1 does graphics only. *)
Definition split_families : Platform :=
  sample_platform true [] [mkQueueFamily 4 1; mkQueueFamily 1 1]
                  (fun i => (i =? 0)%nat).

(** Following the spec's words: the lowest index in [i, i + n) that satisfies
    [Q]. *)
Fixpoint lowest_index_from (Q : nat -> bool) (i n : nat) : option nat :=
  match n with
  | O => None
  | S n' => if Q i then Some i else lowest_index_from Q (S i) n'
  end.

(** Following the spec's words: the lowest-indexed graphics-capable family
    and, independently, the lowest-indexed family with present support. *)
Definition lowest_indexed_families (env : Platform) (device : VkPhysicalDevice)
  : QueueFamilyIndices :=
  let n := length (queueFamilyProperties env device) in
  mkIndices (lowest_index_from (graphicsAt env device) 0 n)
            (lowest_index_from (surfaceSupport env device) 0 n).

(** ** Events and computations *)

(** An event other than a queue submission or a presentation. *)
Definition quiet (e : Event) : Prop := e <> QueueSubmit /\ e <> QueuePresent.

(** Started in [s] with a physical device satisfying [Q], the computation
    [m] produces only quiet events, does not throw [bad_optional_access], and
    returns, if it does, with a physical device satisfying [Q']. *)
Definition keeps_at (Q Q' : VkPhysicalDevice -> Prop) {A} (m : M A) (s : App)
  : Prop :=
  Q (physicalDevice s) ->
  Forall quiet (trace_of (m s))
  /\ (forall a, outcome_of (m s) = Returns a -> Q' (physicalDevice (state_of (m s))))
  /\ outcome_of (m s) <> Throws bad_optional_access.

(** What the process does when validation is requested but a layer is
    missing: initialise GLFW, open the window, list the extensions, and
    report the error. *)
Definition validation_failure_trace (env : Platform) : list Event :=
  [Create GlfwLibrary; Create Window]
  ++ StdoutExtensionCount (length (instanceExtensions env))
     :: map (fun extension => StdoutExtension extension.1 extension.2)
            (take 32 (instanceExtensions env))
  ++ [Stderr "validation layers requested, but not available!"].

(** Validation on, no layer installed. *)
Definition no_layers : Platform :=
  sample_platform false [] [mkQueueFamily 15 16] (fun i => (i =? 0)%nat).

(** Thirty-three instance extensions, one more than the array of
    [printExtensions] holds. *)
Definition thirty_three_extensions : list (string * Z) :=
  [("VK_KHR_surface", 25); ("VK_KHR_win32_surface", 6);
   ("VK_KHR_xlib_surface", 6); ("VK_KHR_xcb_surface", 6);
   ("VK_KHR_wayland_surface", 6); ("VK_KHR_display", 23);
   ("VK_KHR_get_display_properties2", 1);
   ("VK_KHR_get_physical_device_properties2", 2);
   ("VK_KHR_get_surface_capabilities2", 1);
   ("VK_KHR_device_group_creation", 1);
   ("VK_KHR_external_fence_capabilities", 1);
   ("VK_KHR_external_memory_capabilities", 1);
   ("VK_KHR_external_semaphore_capabilities", 1);
   ("VK_KHR_surface_protected_capabilities", 1);
   ("VK_KHR_portability_enumeration", 1);
   ("VK_EXT_debug_report", 10); ("VK_EXT_debug_utils", 2);
   ("VK_EXT_direct_mode_display", 1);
   ("VK_EXT_display_surface_counter", 1);
   ("VK_EXT_swapchain_colorspace", 4);
   ("VK_EXT_acquire_drm_display", 1); ("VK_EXT_acquire_xlib_display", 1);
   ("VK_EXT_headless_surface", 1); ("VK_EXT_surface_maintenance1", 1);
   ("VK_EXT_validation_features", 6); ("VK_EXT_validation_flags", 3);
   ("VK_EXT_layer_settings", 2); ("VK_EXT_metal_surface", 1);
   ("VK_EXT_directfb_surface", 1); ("VK_EXT_application_parameters", 1);
   ("VK_LUNARG_direct_driver_loading", 1);
   ("VK_NV_external_memory_capabilities", 1);
   ("VK_GOOGLE_surfaceless_query", 2)].

(** Validation on, no layer installed, and thirty-three instance
    extensions. *)
Definition no_layers_many_extensions : Platform :=
  mkPlatform false [] thirty_three_extensions (fun _ => true) [7]
    (fun _ => [mkQueueFamily 15 16]) (fun _ i => (i =? 0)%nat)
    (fun _ => ["VK_KHR_swapchain"])
    (fun _ => sample_capabilities)
    (fun _ => [mkSurfaceFormat 44 0; mkSurfaceFormat 50 0])
    (fun _ => [VK_PRESENT_MODE_FIFO_KHR])
    (800, 600) [11; 12]
    (fun _ => Some [])
    (fun _ => VK_SUCCESS)
    (fun polls => (2 <=? polls)%nat).

(** The vector [v] after the handles of [l] have been stored at their own
    positions, one after the other. *)
Definition fill (v : list (option nat)) (l : list nat) : list (option nat) :=
  foldl (fun v i => <[ i := Some i ]> v) v l.

(** One round of the loops of [createImageviews] and [createFramebuffers]:
    the checked call [c i] creates [kind i] into position [i] of the vector
    read by [getv] and written by [setv]. *)
Definition create_into (env : Platform) (c : nat -> Call) (kind : nat -> Resource)
    (msg : string) (getv : App -> list (option nat))
    (setv : list (option nat) -> App -> App) (i : nat) : M unit :=
  r <- call env (c i) (Create (kind i)) ;;
  throw_unless_success r msg ;;;
  modify (fun s => setv (<[ i := Some i ]> (getv s)) s).

(** The commands recorded into command buffer [i]. *)
Definition record_one (framebuffers : list (option nat)) (i : nat) : list Event :=
  [BeginCommandBuffer i;
   CmdBeginRenderPass i (default None (framebuffers !! i));
   CmdBindPipeline i; CmdDraw i 3 1 0 0; CmdEndRenderPass i;
   EndCommandBuffer i].

(** The event of a destruction call on an element of a handle vector. *)
Definition destroy_event (kind : nat -> Resource) (handle : option nat) : Event :=
  match handle with
  | Some i => Destroy (kind i)
  | None => DestroyNullHandle
  end.

(** ** The trace of a complete run *)

(** [initVulkan] up to, but excluding, the creation of the logical device. *)
Definition instance_creation (env : Platform) : list Event :=
  (StdoutExtensionCount (length (instanceExtensions env))
   :: map (fun extension => StdoutExtension extension.1 extension.2)
          (take 32 (instanceExtensions env)))
  ++ [Create Instance]
  ++ (if enableValidationLayers env then [Create DebugMessenger] else [])
  ++ [Create Surface].

(** Everything before the creation of the logical device. *)
Definition before_device (env : Platform) : list Event :=
  [Create GlfwLibrary; Create Window] ++ instance_creation env.

(** [createLogicalDevice]. *)
Definition device_creation (ci : VkDeviceCreateInfo) (g p : nat) : list Event :=
  [Call_vkCreateDevice ci; Create LogicalDevice;
   GetDeviceQueue g 0; GetDeviceQueue p 0].

(** The rest of [initVulkan], for [n] swap chain images. *)
Definition device_objects (ci : VkSwapchainCreateInfoKHR) (n : nat) : list Event :=
  [Call_vkCreateSwapchainKHR ci; Create Swapchain]
  ++ map (fun i => Create (ImageView i)) (seq 0 n)
  ++ [Create RenderPass; Create (ShaderModule Vert); Create (ShaderModule Frag);
      Create PipelineLayout; Create GraphicsPipeline;
      Destroy (ShaderModule Frag); Destroy (ShaderModule Vert)]
  ++ map (fun i => Create (Framebuffer i)) (seq 0 n)
  ++ [Create CommandPool]
  ++ (AllocateCommandBuffers n
      :: concat (map (record_one (map Some (seq 0 n))) (seq 0 n))).

(** From the swap chain to the end of the event loop, after [k] polls. *)
Definition after_device (ci : VkSwapchainCreateInfoKHR) (n k : nat) : list Event :=
  device_objects ci n ++ replicate k PollEvents.

(** What [cleanup] destroys before the logical device. *)
Definition cleanup_device_objects (n : nat) : list Event :=
  [Destroy CommandPool]
  ++ map (fun i => Destroy (Framebuffer i)) (seq 0 n)
  ++ [Destroy GraphicsPipeline; Destroy PipelineLayout; Destroy RenderPass]
  ++ map (fun i => Destroy (ImageView i)) (seq 0 n)
  ++ [Destroy Swapchain].

(** What [cleanup] destroys after the logical device. *)
Definition cleanup_instance_objects (env : Platform) : list Event :=
  (if enableValidationLayers env && procAddr env "vkDestroyDebugUtilsMessengerEXT"
   then [Destroy DebugMessenger] else [])
  ++ [Destroy Surface; Destroy Instance; Destroy Window; Destroy GlfwLibrary].

(** Everything [cleanup] does, for [n] swap chain images. *)
Definition cleanup_trace (env : Platform) (n : nat) : list Event :=
  cleanup_device_objects n ++ Destroy LogicalDevice :: cleanup_instance_objects env.

(** ** Order of events, order of creation and of destruction *)

(** Some occurrence of [a] comes before some occurrence of [b] in [t]. *)
Definition precedes (a b : Event) (t : list Event) : Prop :=
  exists i j, (i < j)%nat /\ t !! i = Some a /\ t !! j = Some b.

(** Position of each kind of object in the order of creation. *)
Definition creation_rank (r : Resource) : nat :=
  match r with
  | GlfwLibrary => 0
  | Window => 1
  | Instance => 2
  | DebugMessenger => 3
  | Surface => 4
  | LogicalDevice => 5
  | Swapchain => 6
  | ImageView _ => 7
  | RenderPass => 8
  | ShaderModule _ => 9
  | PipelineLayout => 10
  | GraphicsPipeline => 11
  | Framebuffer _ => 12
  | CommandPool => 13
  end.

(** Position of each kind of object in the order of [cleanup]; the shader
    modules are not destroyed there. *)
Definition cleanup_rank (r : Resource) : option nat :=
  match r with
  | CommandPool => Some 0
  | Framebuffer _ => Some 1
  | GraphicsPipeline => Some 2
  | PipelineLayout => Some 3
  | RenderPass => Some 4
  | ImageView _ => Some 5
  | Swapchain => Some 6
  | LogicalDevice => Some 7
  | DebugMessenger => Some 8
  | Surface => Some 9
  | Instance => Some 10
  | Window => Some 11
  | GlfwLibrary => Some 12
  | ShaderModule _ => None
  end%nat.

(** Two objects of the same kind: equal, or two elements of one vector. *)
Definition same_kind (r1 r2 : Resource) : bool :=
  (creation_rank r1 =? creation_rank r2)%nat.

(** The rank of a creation, and of a destruction made by [cleanup]. *)
Definition create_rank (e : Event) : option nat :=
  match e with Create r => Some (creation_rank r) | _ => None end.

Definition destroy_rank (e : Event) : option nat :=
  match e with Destroy r => cleanup_rank r | _ => None end.

(** The events of [l] that [f] ranks occur in non-decreasing order of rank. *)
Definition sorted_by (f : Event -> option nat) (l : list Event) : Prop :=
  forall i j x y a b,
    (i < j)%nat -> l !! i = Some x -> l !! j = Some y ->
    f x = Some a -> f y = Some b -> (a <= b)%nat.

(** [l] is sorted and none of its ranks is below [c]. *)
Definition chain (f : Event -> option nat) (c : nat) (l : list Event) : Prop :=
  sorted_by f l /\ forall x a, x ∈ l -> f x = Some a -> (c <= a)%nat.

(** Following the spec's words: [cleanup] destroys in strict
    reverse-of-creation order; of two objects of different kinds that
    [cleanup] destroys, the one created later is destroyed earlier. *)
Definition reverse_of_creation (before cleanup : list Event) : Prop :=
  forall r1 r2,
    same_kind r1 r2 = false ->
    Destroy r1 ∈ cleanup -> Destroy r2 ∈ cleanup ->
    precedes (Create r1) (Create r2) before ->
    precedes (Destroy r2) (Destroy r1) cleanup.

(** A debug build on a machine where the validation layer is installed. *)
Definition validating : Platform :=
  sample_platform false ["VK_LAYER_KHRONOS_validation"] [mkQueueFamily 15 16]
                  (fun i => (i =? 0)%nat).

(** ** Notions for the further properties *)

(** Every event [m] produces, from whatever state, satisfies [P]. *)
Definition emits_only (P : Event -> Prop) {A} (m : M A) : Prop :=
  forall s, Forall P (trace_of (m s)).

(** The events [initVulkan] can produce: creations (the debug messenger only
    in a build with validation), the destruction of the two shader modules,
    the calls that carry a create-info, queue retrieval, command buffer
    recording and the extension listing; a device create-info names the
    swap chain extension and, only with validation, the validation layers. *)
Definition init_event (env : Platform) (e : Event) : Prop :=
  match e with
  | Create DebugMessenger => enableValidationLayers env = true
  | Destroy (ShaderModule _) => True
  | Destroy _ => False
  | DestroyNullHandle => False
  | Call_vkCreateDevice ci =>
      ppEnabledLayerNames ci
      = (if enableValidationLayers env then validationLayers else [])
      /\ ppEnabledExtensionNames ci = deviceExtensions
  | PollEvents => False
  | QueueSubmit => False
  | QueuePresent => False
  | Stderr _ => False
  | _ => True
  end.

(** The events of a whole run as far as validation is concerned: the debug
    messenger is created or destroyed only in a build with validation, and a
    device create-info names the validation layers only there. *)
Definition run_event (env : Platform) (e : Event) : Prop :=
  match e with
  | Create DebugMessenger => enableValidationLayers env = true
  | Destroy DebugMessenger => enableValidationLayers env = true
  | Call_vkCreateDevice ci =>
      ppEnabledLayerNames ci
      = (if enableValidationLayers env then validationLayers else [])
      /\ ppEnabledExtensionNames ci = deviceExtensions
  | _ => True
  end.

(** [m] returns from [s] and leaves the selected physical device alone. *)
Definition returns_keeping (m : M unit) (s : App) : Prop :=
  exists s' t, m s = (Returns tt, s', t) /\ physicalDevice s' = physicalDevice s.

(** A platform on which nothing goes wrong: the instance extensions fit the
    array of [printExtensions]; validation, when the build asks for it, is
    installed and its messenger entry point resolves; every checked call
    succeeds; the first suitable GPU has a handle other than the null
    handle; both shader files open; the window is closed at some point. *)
Definition healthy (env : Platform) : Prop :=
  (length (instanceExtensions env) <= 32)%nat
  /\ (enableValidationLayers env = true ->
        checkValidationLayerSupport env = true
        /\ procAddr env "vkCreateDebugUtilsMessengerEXT" = true)
  /\ (forall c, result env c = VK_SUCCESS)
  /\ (exists pre d post,
        physicalDevices env = pre ++ d :: post
        /\ (forall d', d' ∈ pre -> isDeviceSuitable env d' = false)
        /\ isDeviceSuitable env d = true
        /\ d <> VK_NULL_HANDLE)
  /\ (exists vert, fileContents env "vert.spv" = Some vert)
  /\ (exists frag, fileContents env "frag.spv" = Some frag)
  /\ (exists k, closeRequested env k = true).

(** The platform [env] with other results for its checked calls. *)
Definition with_result (env : Platform) (r : Call -> VkResult) : Platform :=
  mkPlatform (NDEBUG env) (instanceLayers env) (instanceExtensions env)
    (procAddr env) (physicalDevices env) (queueFamilyProperties env)
    (surfaceSupport env) (deviceExtensionProperties env)
    (surfaceCapabilities env) (surfaceFormats env) (surfacePresentModes env)
    (framebufferSize env) (swapchainImages env) (fileContents env) r
    (closeRequested env).

(** The sample machine, release build, on which creating the swap chain
    fails. *)
Definition swapchain_fails : Platform :=
  with_result single_family
    (fun c => match c with
              | vkCreateSwapchainKHR => VK_ERROR_INITIALIZATION_FAILED
              | _ => VK_SUCCESS
              end).

(** The sample machine on which the second image view cannot be created. *)
Definition second_view_fails : Platform :=
  with_result single_family
    (fun c => match c with
              | vkCreateImageView 1 => VK_ERROR_INITIALIZATION_FAILED
              | _ => VK_SUCCESS
              end).

(** The sample machine on which the first framebuffer cannot be created. *)
Definition first_framebuffer_fails : Platform :=
  with_result single_family
    (fun c => match c with
              | vkCreateFramebuffer 0 => VK_ERROR_INITIALIZATION_FAILED
              | _ => VK_SUCCESS
              end).

(** The sample machine without the fragment shader file. *)
Definition no_fragment_shader : Platform :=
  mkPlatform true [] [("VK_KHR_surface", 25)] (fun _ => true) [7]
    (fun _ => [mkQueueFamily 15 16]) (fun _ i => (i =? 0)%nat)
    (fun _ => ["VK_KHR_swapchain"])
    (fun _ => sample_capabilities)
    (fun _ => [mkSurfaceFormat 44 0; mkSurfaceFormat 50 0])
    (fun _ => [VK_PRESENT_MODE_FIFO_KHR])
    (800, 600) [11; 12]
    (fun name => if String.eqb name "vert.spv" then Some [] else None)
    (fun _ => VK_SUCCESS)
    (fun polls => (2 <=? polls)%nat).


(** A debug build on the sample machine whose loader resolves the entry
    point that creates a debug messenger but not the one that destroys it. *)
Definition destroy_entry_missing : Platform :=
  mkPlatform false ["VK_LAYER_KHRONOS_validation"] [("VK_KHR_surface", 25)]
    (fun name => String.eqb name "vkCreateDebugUtilsMessengerEXT") [7]
    (fun _ => [mkQueueFamily 15 16]) (fun _ i => (i =? 0)%nat)
    (fun _ => ["VK_KHR_swapchain"])
    (fun _ => sample_capabilities)
    (fun _ => [mkSurfaceFormat 44 0; mkSurfaceFormat 50 0])
    (fun _ => [VK_PRESENT_MODE_FIFO_KHR])
    (800, 600) [11; 12]
    (fun _ => Some [])
    (fun _ => VK_SUCCESS)
    (fun polls => (2 <=? polls)%nat).

(** A debug build on the sample machine, the validation layer installed,
    whose loader resolves no debug-utils entry point. *)
Definition messenger_entry_missing : Platform :=
  mkPlatform false ["VK_LAYER_KHRONOS_validation"] [("VK_KHR_surface", 25)]
    (fun _ => false) [7]
    (fun _ => [mkQueueFamily 15 16]) (fun _ i => (i =? 0)%nat)
    (fun _ => ["VK_KHR_swapchain"])
    (fun _ => sample_capabilities)
    (fun _ => [mkSurfaceFormat 44 0; mkSurfaceFormat 50 0])
    (fun _ => [VK_PRESENT_MODE_FIFO_KHR])
    (800, 600) [11; 12]
    (fun _ => Some [])
    (fun _ => VK_SUCCESS)
    (fun polls => (2 <=? polls)%nat).

(** The draw commands of a trace, in order and with repetitions. *)
Definition draws (t : list Event) : list Event :=
  List.filter (fun e => match e with CmdDraw _ _ _ _ _ => true | _ => false end) t.

(** * Properties *)

(** ** 32-bit unsigned arithmetic *)

Lemma U32_wrap_in_range z : U32.in_range (U32.wrap z).
Proof. unfold U32.in_range, U32.wrap, U32.modulus. apply Z.mod_pos_bound. lia. Qed.

Lemma U32_wrap_small z : U32.in_range z -> U32.wrap z = z.
Proof. unfold U32.in_range, U32.wrap. intros H. apply Z.mod_small. exact H. Qed.

Lemma U32_add_no_overflow a b :
  0 <= a -> 0 <= b -> a + b <= U32.UINT32_MAX -> U32.add a b = a + b.
Proof.
  intros Ha Hb Hab. unfold U32.add. apply U32_wrap_small.
  unfold U32.in_range, U32.modulus, U32.UINT32_MAX in *. lia.
Qed.

Lemma U32_add_max_one : U32.add U32.UINT32_MAX 1 = 0.
Proof. reflexivity. Qed.

(** ** Present mode *)

Lemma chooseSwapPresentMode_mailbox (l : list VkPresentModeKHR) :
  VK_PRESENT_MODE_MAILBOX_KHR ∈ l ->
  chooseSwapPresentMode l = VK_PRESENT_MODE_MAILBOX_KHR.
Proof.
  induction l as [|m l IH]; intros Hin.
  - inversion Hin.
  - simpl. destruct (decide (m = VK_PRESENT_MODE_MAILBOX_KHR)) as [->|Hne].
    + reflexivity.
    + apply IH. apply elem_of_cons in Hin as [Heq|Hin]; [congruence|exact Hin].
Qed.

Lemma chooseSwapPresentMode_fifo (l : list VkPresentModeKHR) :
  VK_PRESENT_MODE_MAILBOX_KHR ∉ l ->
  chooseSwapPresentMode l = VK_PRESENT_MODE_FIFO_KHR.
Proof.
  induction l as [|m l IH]; intros Hnin.
  - reflexivity.
  - simpl. apply not_elem_of_cons in Hnin as [Hne Hnin].
    destruct (decide (m = VK_PRESENT_MODE_MAILBOX_KHR)) as [Heq|_].
    + congruence.
    + apply IH, Hnin.
Qed.

(** C6.  For every list of candidate present modes, [chooseSwapPresentMode]
    returns mailbox when mailbox occurs in the list and FIFO otherwise,
    whatever other modes the list holds (it may even be empty or lack FIFO). *)
Theorem chooseSwapPresentMode_spec (l : list VkPresentModeKHR) :
  (VK_PRESENT_MODE_MAILBOX_KHR ∈ l
   /\ chooseSwapPresentMode l = VK_PRESENT_MODE_MAILBOX_KHR)
  \/ ((VK_PRESENT_MODE_MAILBOX_KHR ∉ l)
      /\ chooseSwapPresentMode l = VK_PRESENT_MODE_FIFO_KHR).
Proof.
  destruct (decide (VK_PRESENT_MODE_MAILBOX_KHR ∈ l)) as [Hin|Hnin].
  - left. split; [exact Hin | apply chooseSwapPresentMode_mailbox, Hin].
  - right. split; [exact Hnin | apply chooseSwapPresentMode_fifo, Hnin].
Qed.

Example chooseSwapPresentMode_immediate_only :
  chooseSwapPresentMode
    [VK_PRESENT_MODE_IMMEDIATE_KHR; VK_PRESENT_MODE_FIFO_RELAXED_KHR]
  = VK_PRESENT_MODE_FIFO_KHR.
Proof. reflexivity. Qed.

(** ** Surface format *)

Lemma is_preferred_format_true (f : VkSurfaceFormatKHR) :
  is_preferred_format f = true <-> f = preferred_format.
Proof.
  unfold is_preferred_format, preferred_format. destruct f as [fmt cs]; simpl.
  rewrite andb_true_iff, !Z.eqb_eq. split.
  - intros [-> ->]. reflexivity.
  - intros H. injection H as -> ->. split; reflexivity.
Qed.

Lemma chooseSwapSurfaceFormat_loop_found (l : list VkSurfaceFormatKHR) :
  preferred_format ∈ l ->
  chooseSwapSurfaceFormat_loop l = Some preferred_format.
Proof.
  induction l as [|f l IH]; intros Hin.
  - inversion Hin.
  - simpl. destruct (is_preferred_format f) eqn:Hf.
    + apply is_preferred_format_true in Hf. congruence.
    + apply IH. apply elem_of_cons in Hin as [Heq|Hin]; [|exact Hin].
      subst f. discriminate Hf.
Qed.

Lemma chooseSwapSurfaceFormat_loop_absent (l : list VkSurfaceFormatKHR) :
  preferred_format ∉ l -> chooseSwapSurfaceFormat_loop l = None.
Proof.
  induction l as [|f l IH]; intros Hnin.
  - reflexivity.
  - simpl. apply not_elem_of_cons in Hnin as [Hne Hnin].
    destruct (is_preferred_format f) eqn:Hf.
    + apply is_preferred_format_true in Hf. congruence.
    + apply IH, Hnin.
Qed.

(** C5.  On a non-empty candidate list [chooseSwapSurfaceFormat] returns the
    BGRA8-sRGB / sRGB-nonlinear format when some candidate is that format, and
    the first candidate otherwise; in the preferred case every reordering of
    the list gives the same answer.  (The result is a function of the list.) *)
Theorem chooseSwapSurfaceFormat_spec (l : list VkSurfaceFormatKHR) :
  l <> [] ->
  exists f,
    chooseSwapSurfaceFormat l = Some f
    /\ ((preferred_format ∈ l /\ f = preferred_format)
        \/ ((preferred_format ∉ l) /\ l !! 0%nat = Some f))
    /\ (forall l', l' ≡ₚ l -> preferred_format ∈ l ->
          chooseSwapSurfaceFormat l' = Some f).
Proof.
  intros Hne. unfold chooseSwapSurfaceFormat.
  destruct (decide (preferred_format ∈ l)) as [Hin|Hnin].
  - exists preferred_format.
    rewrite (chooseSwapSurfaceFormat_loop_found l Hin).
    split; [reflexivity|]. split; [left; split; [exact Hin|reflexivity]|].
    intros l' Hperm _.
    rewrite (chooseSwapSurfaceFormat_loop_found l'); [reflexivity|].
    rewrite Hperm. exact Hin.
  - destruct l as [|f0 l]; [congruence|]. exists f0.
    rewrite (chooseSwapSurfaceFormat_loop_absent _ Hnin).
    split; [reflexivity|]. split; [right; split; [exact Hnin|reflexivity]|].
    intros l' _ Hin. contradiction.
Qed.

Lemma chooseSwapSurfaceFormat_spec_witness :
  exists f,
    chooseSwapSurfaceFormat [mkSurfaceFormat 44 0; preferred_format] = Some f
    /\ ((preferred_format ∈ [mkSurfaceFormat 44 0; preferred_format]
         /\ f = preferred_format)
        \/ ((preferred_format ∉ [mkSurfaceFormat 44 0; preferred_format])
            /\ [mkSurfaceFormat 44 0; preferred_format] !! 0%nat = Some f))
    /\ (forall l', l' ≡ₚ [mkSurfaceFormat 44 0; preferred_format] ->
          preferred_format ∈ [mkSurfaceFormat 44 0; preferred_format] ->
          chooseSwapSurfaceFormat l' = Some f).
Proof.
  apply (chooseSwapSurfaceFormat_spec [mkSurfaceFormat 44 0; preferred_format]).
  discriminate.
Defined.

Example chooseSwapSurfaceFormat_first_when_absent :
  chooseSwapSurfaceFormat [mkSurfaceFormat 44 0; mkSurfaceFormat 37 0]
  = Some (mkSurfaceFormat 44 0).
Proof. reflexivity. Qed.

(** ** Swap extent *)

Lemma max_min_clamped (lo hi v : Z) :
  lo <= hi -> clamped_into lo hi v (Z.max lo (Z.min hi v)).
Proof. unfold clamped_into. intros H. repeat split; lia. Qed.

Lemma static_cast_uint32_nonneg (z : Z) :
  0 <= z < 2 ^ 31 -> U32.wrap z = z.
Proof.
  intros H. apply U32_wrap_small. unfold U32.in_range, U32.modulus. lia.
Qed.

(** C4.  [chooseSwapExtent] returns the current extent of the capabilities
    unchanged when it is defined, which the code reads off its width (width
    other than the [UINT32_MAX] sentinel); otherwise each component of the
    result is the framebuffer size (converted to [uint32_t], which leaves a
    non-negative [int] as it is) bounded below by [minImageExtent] and above
    by [maxImageExtent], that is, clamped into the interval between them
    whenever that interval is not empty. *)
Theorem chooseSwapExtent_spec (fb : Z * Z) (caps : VkSurfaceCapabilitiesKHR) :
  let r := chooseSwapExtent fb caps in
  ((0 <= fb.1 < 2 ^ 31 -> U32.wrap fb.1 = fb.1)
   /\ (0 <= fb.2 < 2 ^ 31 -> U32.wrap fb.2 = fb.2))
  /\
  ((width (currentExtent caps) <> U32.UINT32_MAX /\ r = currentExtent caps)
  \/ (width (currentExtent caps) = U32.UINT32_MAX
      /\ width r = Z.max (width (minImageExtent caps))
                         (Z.min (width (maxImageExtent caps)) (U32.wrap fb.1))
      /\ height r = Z.max (height (minImageExtent caps))
                          (Z.min (height (maxImageExtent caps)) (U32.wrap fb.2))
      /\ (width (minImageExtent caps) <= width (maxImageExtent caps) ->
          clamped_into (width (minImageExtent caps)) (width (maxImageExtent caps))
                       (U32.wrap fb.1) (width r))
      /\ (height (minImageExtent caps) <= height (maxImageExtent caps) ->
          clamped_into (height (minImageExtent caps)) (height (maxImageExtent caps))
                       (U32.wrap fb.2) (height r)))).
Proof.
  split; [split; apply static_cast_uint32_nonneg|].
  unfold chooseSwapExtent.
  destruct (Z.eqb_spec (width (currentExtent caps)) U32.UINT32_MAX) as [Heq|Hne];
    simpl.
  - right. split; [exact Heq|]. split; [reflexivity|]. split; [reflexivity|].
    split; intros Hle; apply max_min_clamped, Hle.
  - left. split; [exact Hne | reflexivity].
Qed.

Example chooseSwapExtent_defined :
  chooseSwapExtent (1024, 768)
    (mkCapabilities 2 3 (mkExtent 800 600) (mkExtent 1 1) (mkExtent 4096 4096) 1)
  = mkExtent 800 600.
Proof. reflexivity. Qed.

Example chooseSwapExtent_undefined :
  chooseSwapExtent (8000, 0)
    (mkCapabilities 2 3 (mkExtent U32.UINT32_MAX U32.UINT32_MAX)
                    (mkExtent 1 1) (mkExtent 4096 4096) 1)
  = mkExtent 4096 1.
Proof. reflexivity. Qed.

(** ** Image count *)

(** What the code computes: the smaller of [minImageCount + 1] (wrapped to 32
    bits) and [maxImageCount], the latter only when it is not 0. *)
Lemma imageCount_min (caps : VkSurfaceCapabilitiesKHR) :
  imageCount caps =
    if maxImageCount caps >? 0
    then Z.min (U32.add (minImageCount caps) 1) (maxImageCount caps)
    else U32.add (minImageCount caps) 1.
Proof.
  unfold imageCount.
  destruct (Z.gtb_spec (maxImageCount caps) 0); simpl; [|reflexivity].
  destruct (Z.gtb_spec (U32.add (minImageCount caps) 1) (maxImageCount caps)); lia.
Qed.

(** When [minImageCount] is [UINT32_MAX] the sum wraps to 0 and no lower clamp
    brings it back. *)
Lemma imageCount_wraps :
  imageCount (mkCapabilities U32.UINT32_MAX 0 (mkExtent 800 600) (mkExtent 1 1)
                             (mkExtent 4096 4096) 1) = 0
  /\ clamped_imageCount
       (mkCapabilities U32.UINT32_MAX 0 (mkExtent 800 600) (mkExtent 1 1)
                       (mkExtent 4096 4096) 1) = U32.UINT32_MAX.
Proof. split; reflexivity. Qed.

(** C3, as stated, fails: the claimed equality is false for a surface whose
    [minImageCount] is [UINT32_MAX]. *)
Lemma imageCount_not_clamp_at_uint32_max :
  ~ (forall caps : VkSurfaceCapabilitiesKHR,
       U32.in_range (minImageCount caps) -> U32.in_range (maxImageCount caps) ->
       imageCount caps = clamped_imageCount caps).
Proof.
  intros H.
  specialize (H (mkCapabilities U32.UINT32_MAX 0 (mkExtent 800 600) (mkExtent 1 1)
                                (mkExtent 4096 4096) 1)).
  simpl in H.
  assert (Hr : U32.in_range U32.UINT32_MAX)
    by (unfold U32.in_range, U32.modulus, U32.UINT32_MAX; lia).
  assert (H0 : U32.in_range 0) by (unfold U32.in_range, U32.modulus; lia).
  specialize (H Hr H0). destruct imageCount_wraps as [Hc Hs].
  rewrite Hc, Hs in H. discriminate H.
Qed.

(** C3, amended.  For 32-bit capabilities whose [minImageCount] is below
    [UINT32_MAX] (so that [minImageCount + 1] does not wrap), the image count
    requested by [createSwapChain] is [clamp(minImageCount + 1, minImageCount,
    maxImageCount)], with no upper clamp when [maxImageCount] is 0; when the
    bounds are ordered this is [max(minImageCount, min(minImageCount + 1,
    maxImageCount))]. *)
Theorem imageCount_clamp (caps : VkSurfaceCapabilitiesKHR) :
  U32.in_range (minImageCount caps) ->
  U32.in_range (maxImageCount caps) ->
  minImageCount caps <> U32.UINT32_MAX ->
  imageCount caps = clamped_imageCount caps
  /\ (maxImageCount caps = 0 -> imageCount caps = minImageCount caps + 1)
  /\ (0 < maxImageCount caps -> minImageCount caps <= maxImageCount caps ->
      imageCount caps =
        Z.max (minImageCount caps)
              (Z.min (minImageCount caps + 1) (maxImageCount caps))).
Proof.
  unfold U32.in_range, U32.modulus, U32.UINT32_MAX.
  intros Hmin Hmax Hne.
  assert (Hadd : U32.add (minImageCount caps) 1 = minImageCount caps + 1).
  { apply U32_add_no_overflow; unfold U32.UINT32_MAX; lia. }
  unfold clamped_imageCount, clamp. rewrite imageCount_min, Hadd.
  repeat split.
  - destruct (Z.gtb_spec (maxImageCount caps) 0);
      destruct (Z.eqb_spec (maxImageCount caps) 0); try lia;
      destruct (Z.ltb_spec (minImageCount caps + 1) (minImageCount caps)); try lia.
    destruct (Z.ltb_spec (maxImageCount caps) (minImageCount caps + 1)); lia.
  - intros H0. destruct (Z.gtb_spec (maxImageCount caps) 0); lia.
  - intros Hpos Hle. destruct (Z.gtb_spec (maxImageCount caps) 0); lia.
Qed.

Lemma imageCount_clamp_witness :
  let caps := mkCapabilities 2 3 (mkExtent 800 600) (mkExtent 1 1)
                             (mkExtent 4096 4096) 1 in
  imageCount caps = 3 /\ clamped_imageCount caps = 3.
Proof.
  cbv zeta.
  destruct (imageCount_clamp
              (mkCapabilities 2 3 (mkExtent 800 600) (mkExtent 1 1)
                              (mkExtent 4096 4096) 1)) as [H _].
  - unfold U32.in_range, U32.modulus. simpl. lia.
  - unfold U32.in_range, U32.modulus. simpl. lia.
  - simpl. unfold U32.UINT32_MAX. lia.
  - split; [rewrite H|]; reflexivity.
Defined.

(** ** Queue family discovery *)

Lemma graphics_bit_test (f : VkQueueFamilyProperties) :
  negb (Z.land (queueFlags f) VK_QUEUE_GRAPHICS_BIT =? 0) = graphics_capable f.
Proof.
  unfold graphics_capable, VK_QUEUE_GRAPHICS_BIT.
  change 1 with (Z.ones 1). rewrite Z.land_ones by lia.
  change (2 ^ 1) with 2. rewrite <- Z.bit0_mod.
  destruct (Z.testbit (queueFlags f) 0); reflexivity.
Qed.

Lemma is_last_step (Q : nat -> bool) (m : nat) (o : option nat) :
  is_last Q m o ->
  is_last Q (S m) (if Q m then Some m else o).
Proof.
  intros H. destruct (Q m) eqn:Hm.
  - simpl. repeat split; [lia | exact Hm | intros j Hj; lia].
  - destruct o as [g|]; simpl in *.
    + destruct H as (Hg & HQ & Hbetween). repeat split; [lia | exact HQ |].
      intros j Hj. destruct (decide (j = m)) as [->|Hne]; [exact Hm|].
      apply Hbetween. lia.
    + intros j Hj. destruct (decide (j = m)) as [->|Hne]; [exact Hm|].
      apply H. lia.
Qed.

Lemma incomplete_not_seen (G P : nat -> bool) (m : nat) (ind : QueueFamilyIndices) :
  is_last G m (graphicsFamily ind) ->
  is_last P m (presentFamily ind) ->
  isComplete ind = false ->
  forall j, (j < m)%nat -> ~ (seen G j /\ seen P j).
Proof.
  intros HG HP Hinc j Hj [(g & Hg & HGg) (p & Hp & HPp)].
  unfold isComplete in Hinc.
  destruct (graphicsFamily ind) as [g0|]; simpl in *.
  - destruct (presentFamily ind) as [p0|]; simpl in *; [discriminate|].
    rewrite HP in HPp by lia. discriminate.
  - rewrite HG in HGg by lia. discriminate.
Qed.

Section FindQueueFamilies.

Variable env : Platform.
Variable device : VkPhysicalDevice.

Let fams := queueFamilyProperties env device.
Let G := graphicsAt env device.
Let P := surfaceSupport env device.

Lemma findQueueFamilies_loop_spec (rest pre : list VkQueueFamilyProperties)
    (ind : QueueFamilyIndices) :
  fams = pre ++ rest ->
  is_last G (length pre) (graphicsFamily ind) ->
  is_last P (length pre) (presentFamily ind) ->
  isComplete ind = false ->
  let r := findQueueFamilies_loop P rest (length pre) ind in
  exists m,
    (length pre <= m <= length fams)%nat
    /\ ((m < length fams)%nat -> isComplete r = true)
    /\ (forall j, (S j < m)%nat -> ~ (seen G j /\ seen P j))
    /\ is_last G m (graphicsFamily r)
    /\ is_last P m (presentFamily r).
Proof.
  revert pre ind. induction rest as [|f rest IH]; intros pre ind Hfams HG HP Hinc.
  - simpl. exists (length pre). rewrite Hfams, app_nil_r.
    split; [lia|]. split; [lia|]. split; [|split; assumption].
    intros j Hj. apply (incomplete_not_seen G P (length pre) ind HG HP Hinc). lia.
  - simpl.
    assert (HGf : G (length pre) = graphics_capable f).
    { unfold G, graphicsAt. fold fams. rewrite Hfams, list_lookup_middle by reflexivity.
      reflexivity. }
    rewrite graphics_bit_test, <- HGf.
    set (ind1 := if G (length pre)
                 then mkIndices (Some (length pre)) (presentFamily ind) else ind).
    set (ind2 := if P (length pre)
                 then mkIndices (graphicsFamily ind1) (Some (length pre)) else ind1).
    assert (HG2 : is_last G (S (length pre)) (graphicsFamily ind2)).
    { replace (graphicsFamily ind2)
        with (if G (length pre) then Some (length pre) else graphicsFamily ind).
      - apply is_last_step, HG.
      - unfold ind2, ind1. destruct (G (length pre)), (P (length pre)); reflexivity. }
    assert (HP2 : is_last P (S (length pre)) (presentFamily ind2)).
    { replace (presentFamily ind2)
        with (if P (length pre) then Some (length pre) else presentFamily ind).
      - apply is_last_step, HP.
      - unfold ind2, ind1. destruct (G (length pre)), (P (length pre)); reflexivity. }
    assert (Hlen : length fams = (length pre + S (length rest))%nat).
    { rewrite Hfams, length_app. reflexivity. }
    destruct (isComplete ind2) eqn:Hc.
    + exists (S (length pre)).
      split; [lia|]. split; [intros _; exact Hc|]. split; [|split; assumption].
      intros j Hj. apply (incomplete_not_seen G P (length pre) ind HG HP Hinc). lia.
    + destruct (IH (pre ++ [f]) ind2) as (m & Hm & Hstop & Hearly & HGm & HPm).
      * rewrite Hfams, <- app_assoc. reflexivity.
      * rewrite length_app. simpl. rewrite Nat.add_1_r. exact HG2.
      * rewrite length_app. simpl. rewrite Nat.add_1_r. exact HP2.
      * exact Hc.
      * rewrite length_app in *. simpl in *. rewrite Nat.add_1_r in *.
        exists m. split; [lia|]. split; [intros Hlt; apply Hstop; lia|].
        split; [exact Hearly|]. split; assumption.
Qed.

Lemma findQueueFamilies_visited :
  let r := findQueueFamilies env device in
  exists m,
    (m <= length fams)%nat
    /\ ((m < length fams)%nat -> isComplete r = true)
    /\ (forall j, (S j < m)%nat -> ~ (seen G j /\ seen P j))
    /\ is_last G m (graphicsFamily r)
    /\ is_last P m (presentFamily r).
Proof.
  destruct (findQueueFamilies_loop_spec fams [] (mkIndices None None))
    as (m & Hm & Hstop & Hearly & HGm & HPm).
  - reflexivity.
  - simpl. intros j Hj. lia.
  - simpl. intros j Hj. lia.
  - reflexivity.
  - exists m. simpl in Hm. split; [lia|]. split; [exact Hstop|].
    split; [exact Hearly|]. split; assumption.
Qed.

(** When the scan reaches a family that supports both graphics and present
    (no earlier family completed the pair), both indices are that family. *)
Lemma findQueueFamilies_both_at (k : nat) :
  (k < length fams)%nat ->
  G k = true -> P k = true ->
  (forall j, (j < k)%nat -> ~ (seen G j /\ seen P j)) ->
  findQueueFamilies env device = mkIndices (Some k) (Some k).
Proof.
  intros Hk HGk HPk Hbefore.
  destruct findQueueFamilies_visited as (m & Hm & Hstop & Hearly & HGm & HPm).
  destruct (findQueueFamilies env device) as [g p]; simpl in *.
  assert (Hmk : m = S k).
  { destruct (lt_eq_lt_dec m (S k)) as [[Hlt|Heq]|Hgt]; [exfalso|exact Heq|exfalso].
    - assert (Hc : isComplete (mkIndices g p) = true) by (apply Hstop; lia).
      unfold isComplete in Hc; simpl in Hc.
      destruct g as [g|]; [|discriminate]. destruct p as [p|]; [|discriminate].
      simpl in HGm, HPm. destruct HGm as (Hg & HGg & _), HPm as (Hp & HPp & _).
      apply (Hbefore (m - 1)%nat); [lia|].
      split; [exists g | exists p]; split; try assumption; lia.
    - apply (Hearly k Hgt). split; exists k; split; auto. }
  subst m. f_equal.
  - destruct g as [g|]; simpl in HGm.
    + destruct HGm as (Hg & _ & Hlast). f_equal.
      destruct (decide (g = k)) as [->|Hne]; [reflexivity|].
      rewrite Hlast in HGk by lia. discriminate.
    + rewrite HGm in HGk by lia. discriminate.
  - destruct p as [p|]; simpl in HPm.
    + destruct HPm as (Hp & _ & Hlast). f_equal.
      destruct (decide (p = k)) as [->|Hne]; [reflexivity|].
      rewrite Hlast in HPk by lia. discriminate.
    + rewrite HPm in HPk by lia. discriminate.
Qed.

(** C1, amended.  [findQueueFamilies] visits the families in order and
    stops at the first family by which both a graphics-capable and a
    present-supporting family have been met (or at the end of the list).
    With [m] the number of families visited, [graphicsFamily] is the
    highest-indexed graphics-capable family among the first [m] and
    [presentFamily] the highest-indexed present-supporting family among the
    first [m]; an index is absent exactly when no visited family qualifies.
    In particular, when the scan reaches a family that supports both, both
    indices equal that family's index. *)
Theorem findQueueFamilies_spec :
  let r := findQueueFamilies env device in
  (exists m,
    (m <= length fams)%nat
    /\ ((m < length fams)%nat -> isComplete r = true)
    /\ (forall j, (S j < m)%nat -> ~ (seen G j /\ seen P j))
    /\ is_last G m (graphicsFamily r)
    /\ is_last P m (presentFamily r))
  /\ (forall k, (k < length fams)%nat -> G k = true -> P k = true ->
        (forall j, (j < k)%nat -> ~ (seen G j /\ seen P j)) ->
        r = mkIndices (Some k) (Some k)).
Proof.
  split; [apply findQueueFamilies_visited | apply findQueueFamilies_both_at].
Qed.

End FindQueueFamilies.

(** ** Queue family discovery on the sample platforms *)

Example findQueueFamilies_graphics_then_both :
  findQueueFamilies graphics_then_both 7 = mkIndices (Some 1%nat) (Some 1%nat)
  /\ lowest_indexed_families graphics_then_both 7
     = mkIndices (Some 0%nat) (Some 1%nat).
Proof. split; reflexivity. Qed.

(** C1, as stated, fails: with a graphics-only family 0 followed by a family 1
    that does graphics and present, the returned graphics family is 1, not
    the lowest-indexed graphics family 0. *)
Lemma findQueueFamilies_not_lowest_indexed :
  findQueueFamilies graphics_then_both 7
  <> lowest_indexed_families graphics_then_both 7.
Proof. vm_compute. discriminate. Qed.

Example findQueueFamilies_single_family :
  findQueueFamilies single_family 7 = mkIndices (Some 0%nat) (Some 0%nat).
Proof. reflexivity. Qed.

Example findQueueFamilies_split_families :
  findQueueFamilies split_families 7 = mkIndices (Some 1%nat) (Some 0%nat).
Proof. reflexivity. Qed.

(** ** Queue create records of [createLogicalDevice] *)

(** C2 (the code departs from it).  When the graphics and present families
    coincide, [createLogicalDevice] still hands two queue-create records to
    [vkCreateDevice], both for the same family: [uniqueQueueFamilies] is a
    [std::vector], so nothing is deduplicated. *)
Theorem createLogicalDevice_duplicate_queue_family
    (env : Platform) (s : App) (k : nat) :
  findQueueFamilies env (physicalDevice s) = mkIndices (Some k) (Some k) ->
  exists ci rest,
    trace_of (createLogicalDevice env s) = Call_vkCreateDevice ci :: rest
    /\ pQueueCreateInfos ci
       = [mkQueueCreateInfo k 1 1%Q; mkQueueCreateInfo k 1 1%Q]
    /\ queueCreateInfoCount ci = 2.
Proof.
  intros H. unfold createLogicalDevice, bind, get, trace_of. simpl.
  rewrite H. simpl. unfold call, bind.
  destruct (result env vkCreateDevice); simpl;
    eexists _, _; (split; [reflexivity|]); split; reflexivity.
Qed.

Lemma createLogicalDevice_duplicate_queue_family_witness :
  exists ci rest,
    trace_of (createLogicalDevice single_family
                (set_physicalDevice 7 (app0 (0, mkExtent 0 0))))
    = Call_vkCreateDevice ci :: rest
    /\ pQueueCreateInfos ci
       = [mkQueueCreateInfo 0 1 1%Q; mkQueueCreateInfo 0 1 1%Q]
    /\ queueCreateInfoCount ci = 2.
Proof.
  apply (createLogicalDevice_duplicate_queue_family
           single_family (set_physicalDevice 7 (app0 (0, mkExtent 0 0))) 0%nat).
  reflexivity.
Defined.

(** ** Reasoning about computations *)

Lemma bind_returns {A B} (m : M A) (k : A -> M B) (s s' : App) (b : B)
    (t : list Event) :
  bind m k s = (Returns b, s', t) ->
  exists a s1 t1 t2,
    m s = (Returns a, s1, t1) /\ k a s1 = (Returns b, s', t2) /\ t = t1 ++ t2.
Proof.
  unfold bind. destruct (m s) as [[[a|e|w] s1] t1]; try discriminate.
  destruct (k a s1) as [[o s2] t2] eqn:Hk. intros H. injection H as -> -> <-.
  exists a, s1, t1, t2. repeat split; [exact Hk].
Qed.

Lemma bind_of_returns {A B} (m : M A) (k : A -> M B) (s s1 : App) (a : A)
    (t1 : list Event) :
  m s = (Returns a, s1, t1) ->
  bind m k s = (outcome_of (k a s1), state_of (k a s1), t1 ++ trace_of (k a s1)).
Proof.
  intros H. unfold bind. rewrite H. destruct (k a s1) as [[o s2] t2]. reflexivity.
Qed.

Lemma bind_of_throws {A B} (m : M A) (k : A -> M B) (s s1 : App) (e : exception)
    (t1 : list Event) :
  m s = (Throws e, s1, t1) -> bind m k s = (Throws e, s1, t1).
Proof. intros H. unfold bind. rewrite H. reflexivity. Qed.

Lemma for_each_emit {A} (f : A -> Event) (l : list A) (s : App) :
  for_each l (fun x => emit (f x)) s = (Returns tt, s, map f l).
Proof.
  induction l as [|x l IH]; [reflexivity|].
  simpl. unfold bind. simpl. rewrite IH. reflexivity.
Qed.

Section Keeps.

Variable env : Platform.
Variables Q : VkPhysicalDevice -> Prop.

Lemma keeps_assuming {A} (Q' : VkPhysicalDevice -> Prop) (m : M A) (s : App) :
  (Q (physicalDevice s) -> keeps_at Q Q' m s) -> keeps_at Q Q' m s.
Proof. intros H HQ. exact (H HQ HQ). Qed.

Lemma keeps_ret {A} (a : A) (s : App) : keeps_at Q Q (ret a) s.
Proof. intros HQ. repeat split; [constructor | intros _ _; exact HQ | discriminate]. Qed.

Lemma keeps_get (s : App) : keeps_at Q Q get s.
Proof. intros HQ. repeat split; [constructor | intros _ _; exact HQ | discriminate]. Qed.

Lemma keeps_throw {A} (Q' : VkPhysicalDevice -> Prop) (msg : string) (s : App) :
  keeps_at Q Q' (throw (A := A) (runtime_error msg)) s.
Proof. intros HQ. repeat split; [constructor | discriminate | discriminate]. Qed.

Lemma keeps_undefined {A} (Q' : VkPhysicalDevice -> Prop) (s : App) :
  keeps_at Q Q' (undefined (A := A)) s.
Proof. intros HQ. repeat split; [constructor | discriminate | discriminate]. Qed.

Lemma keeps_emit (e : Event) (s : App) : quiet e -> keeps_at Q Q (emit e) s.
Proof.
  intros He HQ. repeat split; [repeat constructor; apply He | intros _ _; exact HQ
                              | discriminate].
Qed.

Lemma keeps_modify (f : App -> App) (s : App) :
  physicalDevice (f s) = physicalDevice s -> keeps_at Q Q (modify f) s.
Proof.
  intros Hf HQ. repeat split; [constructor | | discriminate].
  intros _ _. change (Q (physicalDevice (f s))). rewrite Hf. exact HQ.
Qed.

Lemma keeps_value {A} (a : A) (s : App) : keeps_at Q Q (value (Some a)) s.
Proof. apply keeps_ret. Qed.

Lemma keeps_bind {A B} (Q1 Q2 : VkPhysicalDevice -> Prop) (m : M A)
    (k : A -> M B) (s : App) :
  keeps_at Q Q1 m s ->
  (forall a s1 t1, m s = (Returns a, s1, t1) -> keeps_at Q1 Q2 (k a) s1) ->
  keeps_at Q Q2 (bind m k) s.
Proof.
  intros Hm Hk HQ. destruct (Hm HQ) as (Ht & Hret & Hbad).
  unfold bind. destruct (m s) as [[[a|e|w] s1] t1] eqn:Hms; simpl in *.
  - destruct (Hk a s1 t1 eq_refl (Hret a eq_refl)) as (Ht2 & Hret2 & Hbad2).
    destruct (k a s1) as [[o s2] t2]; simpl in *.
    split; [apply Forall_app; split; assumption|]. split; assumption.
  - split; [exact Ht|]. split; [discriminate|].
    intros Heq. apply Hbad. unfold outcome_of in *. simpl in *. congruence.
  - split; [exact Ht|]. split; discriminate.
Qed.

Lemma keeps_for_each {A} (l : list A) (body : A -> M unit) :
  (forall x s, keeps_at Q Q (body x) s) ->
  forall s, keeps_at Q Q (for_each l body) s.
Proof.
  intros Hbody. induction l as [|x l IH]; intros s; simpl.
  - apply keeps_ret.
  - apply (keeps_bind Q Q); [apply Hbody | intros _ s1 _ _; apply IH].
Qed.

Lemma keeps_call (c : Call) (ev : Event) (s : App) :
  quiet ev -> keeps_at Q Q (call env c ev) s.
Proof.
  intros Hev. unfold call. destruct (result env c); try apply keeps_ret.
  apply (keeps_bind Q Q); [apply keeps_emit, Hev | intros; apply keeps_ret].
Qed.

Lemma keeps_throw_unless_success (r : VkResult) (msg : string) (s : App) :
  keeps_at Q Q (throw_unless_success r msg) s.
Proof.
  unfold throw_unless_success.
  destruct (negb (bool_decide (r = VK_SUCCESS))); [apply keeps_throw | apply keeps_ret].
Qed.

End Keeps.

Ltac quiet := split; discriminate.

(** One step of a [keeps_at] proof, by the shape of the computation. *)
Ltac keeps_step :=
  lazymatch goal with
  | |- keeps_at _ _ (ret _) _ => apply keeps_ret
  | |- keeps_at _ _ get _ => apply keeps_get
  | |- keeps_at _ _ (throw (runtime_error _)) _ => apply keeps_throw
  | |- keeps_at _ _ undefined _ => apply keeps_undefined
  | |- keeps_at _ _ (emit _) _ => apply keeps_emit; quiet
  | |- keeps_at _ _ (modify _) _ => apply keeps_modify; reflexivity
  | |- keeps_at _ _ (value (Some _)) _ => apply keeps_value
  | |- keeps_at _ _ (call _ _ _) _ => apply keeps_call; quiet
  | |- keeps_at _ _ (throw_unless_success _ _) _ => apply keeps_throw_unless_success
  | |- keeps_at _ _ (for_each _ _) _ => apply keeps_for_each; intros
  | |- keeps_at ?Q _ (bind _ _) _ => apply (keeps_bind Q Q); [ | intros ? ? ? ?]
  | |- keeps_at _ _ (if ?b then _ else _) _ => destruct b
  | |- keeps_at _ _ (match ?x with _ => _ end) _ => destruct x
  end.

Ltac keeps := repeat keeps_step.

Section MembersKeep.

Variable env : Platform.
Variable Q : VkPhysicalDevice -> Prop.

Lemma initWindow_keeps (s : App) : keeps_at Q Q (initWindow) s.
Proof. unfold initWindow. keeps. Qed.

Lemma printExtensions_keeps (s : App) : keeps_at Q Q (printExtensions env) s.
Proof. unfold printExtensions. keeps. Qed.

Lemma createInstance_keeps (s : App) : keeps_at Q Q (createInstance env) s.
Proof. unfold createInstance. keeps. Qed.

Lemma setupDebugMessenger_keeps (s : App) :
  keeps_at Q Q (setupDebugMessenger env) s.
Proof. unfold setupDebugMessenger, CreateDebugUtilMessengerEXT. keeps. Qed.

Lemma createSurface_keeps (s : App) : keeps_at Q Q (createSurface env) s.
Proof. unfold createSurface. keeps. Qed.

Lemma createImageviews_keeps (s : App) : keeps_at Q Q (createImageviews env) s.
Proof. unfold createImageviews. keeps. Qed.

Lemma createRenderPass_keeps (s : App) : keeps_at Q Q (createRenderPass env) s.
Proof. unfold createRenderPass. keeps. Qed.

Lemma readFile_keeps (filename : string) (s : App) :
  keeps_at Q Q (readFile env filename) s.
Proof. unfold readFile. destruct (fileContents env filename); keeps. Qed.

Lemma createGraphicsPipeline_keeps (s : App) :
  keeps_at Q Q (createGraphicsPipeline env) s.
Proof.
  unfold createGraphicsPipeline, createShaderModule.
  apply (keeps_bind Q Q Q); [apply readFile_keeps | intros ? ? ? ?].
  apply (keeps_bind Q Q Q); [apply readFile_keeps | intros ? ? ? ?].
  keeps.
Qed.

Lemma createFramebuffers_keeps (s : App) : keeps_at Q Q (createFramebuffers env) s.
Proof. unfold createFramebuffers. keeps. Qed.

Lemma createCommandBuffers_keeps (s : App) :
  keeps_at Q Q (createCommandBuffers env) s.
Proof. unfold createCommandBuffers. keeps. Qed.

Lemma mainLoop_from_keeps (fuel polls : nat) (s : App) :
  keeps_at Q Q (mainLoop_from env polls fuel) s.
Proof.
  revert polls s. induction fuel as [|fuel IH]; intros polls s; simpl.
  - intros HQ. repeat split; [constructor | discriminate | discriminate].
  - destruct (negb (closeRequested env polls)); [|apply keeps_ret].
    apply (keeps_bind Q Q Q); [keeps | intros; apply IH].
Qed.

Lemma destroy_keeps (kind : nat -> Resource) (handle : option nat) (s : App) :
  keeps_at Q Q (destroy kind handle) s.
Proof. unfold destroy. destruct handle; keeps. Qed.

Lemma cleanup_keeps (s : App) : keeps_at Q Q (cleanup env) s.
Proof.
  unfold cleanup, DestroyDebugUtilsMessengerEXT.
  repeat first [ apply destroy_keeps | keeps_step ].
Qed.

(** From here on the physical device has a complete pair of queue families. *)
Hypothesis Q_complete :
  forall d, Q d -> isComplete (findQueueFamilies env d) = true.

Lemma complete_indices (d : VkPhysicalDevice) :
  Q d -> exists g p, findQueueFamilies env d = mkIndices (Some g) (Some p).
Proof.
  intros HQ. specialize (Q_complete d HQ). unfold isComplete in Q_complete.
  destruct (findQueueFamilies env d) as [[g|] [p|]]; try discriminate.
  exists g, p. reflexivity.
Qed.

Lemma createLogicalDevice_keeps (s : App) :
  keeps_at Q Q (createLogicalDevice env) s.
Proof.
  apply keeps_assuming. intros HQ.
  destruct (complete_indices _ HQ) as (g & p & Hgp).
  unfold createLogicalDevice.
  apply (keeps_bind Q Q Q); [apply keeps_get | intros a s1 t1 Hget].
  injection Hget as <- <- <-. rewrite Hgp. simpl. keeps.
Qed.

Lemma createSwapChain_keeps (s : App) : keeps_at Q Q (createSwapChain env) s.
Proof.
  apply keeps_assuming. intros HQ.
  destruct (complete_indices _ HQ) as (g & p & Hgp).
  unfold createSwapChain.
  apply (keeps_bind Q Q Q); [apply keeps_get | intros a s1 t1 Hget].
  injection Hget as <- <- <-. rewrite Hgp. simpl.
  apply (keeps_bind Q Q Q); [|intros ? ? ? ?; keeps].
  destruct (chooseSwapSurfaceFormat _); keeps.
Qed.

Lemma createCommandPool_keeps (s : App) : keeps_at Q Q (createCommandPool env) s.
Proof.
  apply keeps_assuming. intros HQ.
  destruct (complete_indices _ HQ) as (g & p & Hgp).
  unfold createCommandPool.
  apply (keeps_bind Q Q Q); [apply keeps_get | intros a s1 t1 Hget].
  injection Hget as <- <- <-. rewrite Hgp. simpl. keeps.
Qed.

End MembersKeep.

(** ** Physical device selection *)

Lemma isDeviceSuitable_complete (env : Platform) (d : VkPhysicalDevice) :
  isDeviceSuitable env d = true -> isComplete (findQueueFamilies env d) = true.
Proof.
  unfold isDeviceSuitable. intros H.
  apply andb_true_iff in H as [H _]. apply andb_true_iff in H as [H _]. exact H.
Qed.

(** The loop of [pickPhysicalDevice] produces no event and either leaves the
    member alone or stores a suitable device in it. *)
Lemma pickPhysicalDevice_loop_spec (env : Platform)
    (devices : list VkPhysicalDevice) (s : App) :
  exists s',
    pickPhysicalDevice_loop env devices s = (Returns tt, s', [])
    /\ (s' = s
        \/ exists d, d ∈ devices /\ isDeviceSuitable env d = true
                     /\ s' = set_physicalDevice d s).
Proof.
  induction devices as [|d devices IH]; simpl.
  - exists s. split; [reflexivity | left; reflexivity].
  - destruct (isDeviceSuitable env d) eqn:Hd.
    + exists (set_physicalDevice d s). split; [reflexivity|]. right.
      exists d. split; [apply list_elem_of_here|]. split; [exact Hd | reflexivity].
    + destruct IH as (s' & Hrun & Hs'). exists s'. split; [exact Hrun|].
      destruct Hs' as [->|(d' & Hin & Hd' & ->)]; [left; reflexivity|].
      right. exists d'. split; [apply list_elem_of_further, Hin|].
      split; [exact Hd' | reflexivity].
Qed.

(** When [pickPhysicalDevice] returns, having started from the null handle,
    the selected device is suitable; it produces no event and throws only
    [std::runtime_error]. *)
Lemma pickPhysicalDevice_spec (env : Platform) (s : App) :
  physicalDevice s = VK_NULL_HANDLE ->
  trace_of (pickPhysicalDevice env s) = []
  /\ (forall a, outcome_of (pickPhysicalDevice env s) = Returns a ->
        isDeviceSuitable env (physicalDevice (state_of (pickPhysicalDevice env s)))
        = true)
  /\ outcome_of (pickPhysicalDevice env s) <> Throws bad_optional_access.
Proof.
  intros Hnull. unfold pickPhysicalDevice.
  destruct (length (physicalDevices env) =? 0)%nat.
  - repeat split; [discriminate | discriminate].
  - destruct (pickPhysicalDevice_loop_spec env (physicalDevices env) s)
      as (s' & Hrun & Hs').
    rewrite (bind_of_returns _ _ _ _ _ _ Hrun).
    unfold bind, get. simpl.
    destruct (Z.eqb_spec (physicalDevice s') VK_NULL_HANDLE) as [Heq|Hne]; simpl.
    + repeat split; [discriminate | discriminate].
    + split; [reflexivity|]. split; [|discriminate].
      intros _ _. destruct Hs' as [->|(d & _ & Hd & ->)]; [contradiction|].
      exact Hd.
Qed.

Lemma pickPhysicalDevice_keeps (env : Platform) (s : App) :
  keeps_at (fun d => d = VK_NULL_HANDLE)
           (fun d => isDeviceSuitable env d = true) (pickPhysicalDevice env) s.
Proof.
  intros Hnull. destruct (pickPhysicalDevice_spec env s Hnull) as (Ht & Hret & Hbad).
  split; [rewrite Ht; constructor|]. split; assumption.
Qed.

(** ** The whole run: quiet, and safe in its optional accesses *)

Lemma initVulkan_keeps (env : Platform) (s : App) :
  keeps_at (fun d => d = VK_NULL_HANDLE)
           (fun d => isDeviceSuitable env d = true) (initVulkan env) s.
Proof.
  set (Q0 := fun d : VkPhysicalDevice => d = VK_NULL_HANDLE).
  set (Q1 := fun d : VkPhysicalDevice => isDeviceSuitable env d = true).
  assert (HQ1 : forall d, Q1 d -> isComplete (findQueueFamilies env d) = true)
    by (intros d; apply isDeviceSuitable_complete).
  unfold initVulkan.
  apply (keeps_bind Q0 Q0 Q1); [apply printExtensions_keeps | intros ? ? ? _].
  apply (keeps_bind Q0 Q0 Q1); [apply createInstance_keeps | intros ? ? ? _].
  apply (keeps_bind Q0 Q0 Q1); [apply setupDebugMessenger_keeps | intros ? ? ? _].
  apply (keeps_bind Q0 Q0 Q1); [apply createSurface_keeps | intros ? ? ? _].
  apply (keeps_bind Q0 Q1 Q1); [apply pickPhysicalDevice_keeps | intros ? ? ? _].
  apply (keeps_bind Q1 Q1 Q1);
    [apply createLogicalDevice_keeps, HQ1 | intros ? ? ? _].
  apply (keeps_bind Q1 Q1 Q1); [apply createSwapChain_keeps, HQ1 | intros ? ? ? _].
  apply (keeps_bind Q1 Q1 Q1); [apply createImageviews_keeps | intros ? ? ? _].
  apply (keeps_bind Q1 Q1 Q1); [apply createRenderPass_keeps | intros ? ? ? _].
  apply (keeps_bind Q1 Q1 Q1); [apply createGraphicsPipeline_keeps | intros ? ? ? _].
  apply (keeps_bind Q1 Q1 Q1); [apply createFramebuffers_keeps | intros ? ? ? _].
  apply (keeps_bind Q1 Q1 Q1); [apply createCommandPool_keeps, HQ1 | intros ? ? ? _].
  apply createCommandBuffers_keeps.
Qed.

Lemma run_keeps (env : Platform) (fuel : nat) (s : App) :
  keeps_at (fun d => d = VK_NULL_HANDLE)
           (fun d => isDeviceSuitable env d = true) (run env fuel) s.
Proof.
  set (Q0 := fun d : VkPhysicalDevice => d = VK_NULL_HANDLE).
  set (Q1 := fun d : VkPhysicalDevice => isDeviceSuitable env d = true).
  unfold run.
  apply (keeps_bind Q0 Q0 Q1); [apply initWindow_keeps | intros ? ? ? _].
  apply (keeps_bind Q0 Q1 Q1); [apply initVulkan_keeps | intros ? ? ? _].
  apply (keeps_bind Q1 Q1 Q1); [apply mainLoop_from_keeps | intros ? ? ? _].
  apply cleanup_keeps.
Qed.

Lemma main_trace (env : Platform) (fuel : nat) (ind : VkFormat * VkExtent2D) :
  (main env fuel ind).2 = trace_of (run env fuel (app0 ind))
  \/ exists e,
       outcome_of (run env fuel (app0 ind)) = Throws e
       /\ (main env fuel ind).2
          = trace_of (run env fuel (app0 ind)) ++ [Stderr (what e)].
Proof.
  unfold main. destruct (run env fuel (app0 ind)) as [[[a|e|w] s'] t]; simpl.
  - left. reflexivity.
  - right. exists e. split; reflexivity.
  - left. reflexivity.
Qed.

(** ** The event loop *)

Lemma mainLoop_from_trace (env : Platform) (fuel polls : nat) (s : App) :
  exists k,
    (k <= fuel)%nat
    /\ trace_of (mainLoop_from env polls fuel s) = replicate k PollEvents
    /\ state_of (mainLoop_from env polls fuel s) = s.
Proof.
  revert polls. induction fuel as [|fuel IH]; intros polls; simpl.
  - exists 0%nat. repeat split. lia.
  - destruct (closeRequested env polls); simpl.
    + exists 0%nat. repeat split. lia.
    + destruct (IH (S polls)) as (k & Hk & Ht & Hs).
      exists (S k). unfold bind, emit. simpl.
      destruct (mainLoop_from env (S polls) fuel s) as [[o s'] t]; simpl in *.
      subst. repeat split. lia.
Qed.

(** Enough fuel lets the loop return: it ends at the first poll count at
    which the close flag is set. *)
Lemma mainLoop_from_returns (env : Platform) (k polls fuel : nat) (s : App) :
  closeRequested env (polls + k) = true ->
  (forall j, (j < k)%nat -> closeRequested env (polls + j) = false) ->
  (k < fuel)%nat ->
  mainLoop_from env polls fuel s = (Returns tt, s, replicate k PollEvents).
Proof.
  revert polls fuel. induction k as [|k IH]; intros polls fuel Hclose Hopen Hfuel;
    (destruct fuel as [|fuel]; [lia|]); simpl.
  - rewrite Nat.add_0_r in Hclose. rewrite Hclose. reflexivity.
  - assert (Hp : closeRequested env polls = false).
    { rewrite <- (Hopen 0%nat) by lia. f_equal. lia. }
    rewrite Hp. simpl.
    assert (Hrec : mainLoop_from env (S polls) fuel s
                   = (Returns tt, s, replicate k PollEvents)).
    { apply IH; [| |lia].
      - rewrite <- Hclose. f_equal. lia.
      - intros j Hj. rewrite <- (Hopen (S j)) by lia. f_equal. lia. }
    unfold bind, emit. rewrite Hrec. reflexivity.
Qed.

(** C9.  Every iteration of the main event loop only checks the close flag
    and polls events: whatever the fuel, the loop produces nothing but
    [PollEvents] and leaves the members untouched; and in the whole run, up
    to and including the message of a fatal error, no queue submission and no
    presentation ever takes place. *)
Theorem mainLoop_never_draws (env : Platform) (fuel : nat) :
  (forall s, exists k,
      trace_of (mainLoop env fuel s) = replicate k PollEvents
      /\ state_of (mainLoop env fuel s) = s)
  /\ (forall ind,
        (QueueSubmit ∉ (main env fuel ind).2)
        /\ (QueuePresent ∉ (main env fuel ind).2)).
Proof.
  split.
  - intros s. destruct (mainLoop_from_trace env fuel 0 s) as (k & _ & Ht & Hs).
    exists k. split; assumption.
  - intros ind.
    assert (Hq : Forall quiet (main env fuel ind).2).
    { destruct (run_keeps env fuel (app0 ind) eq_refl) as (Ht & _ & _).
      destruct (main_trace env fuel ind) as [->|(e & _ & ->)]; [exact Ht|].
      apply Forall_app. split; [exact Ht|]. repeat constructor; discriminate. }
    rewrite Forall_forall in Hq.
    split; intros Hin; destruct (Hq _ Hin) as [H1 H2]; congruence.
Qed.

(** ** Safety of the optional accesses *)

(** C10.  After [pickPhysicalDevice] has returned (the member having started
    as the null handle), both optionals of the selected device's
    [QueueFamilyIndices] hold a value, so in every later state with that
    device [createLogicalDevice], [createSwapChain] and [createCommandPool] do
    not throw [std::bad_optional_access]; nor does the run as a whole. *)
Theorem optional_access_safe (env : Platform) (s : App) :
  physicalDevice s = VK_NULL_HANDLE ->
  (exists a, outcome_of (pickPhysicalDevice env s) = Returns a) ->
  let device := physicalDevice (state_of (pickPhysicalDevice env s)) in
  (exists g p, findQueueFamilies env device = mkIndices (Some g) (Some p))
  /\ (forall s2, physicalDevice s2 = device ->
        outcome_of (createLogicalDevice env s2) <> Throws bad_optional_access
        /\ outcome_of (createSwapChain env s2) <> Throws bad_optional_access
        /\ outcome_of (createCommandPool env s2) <> Throws bad_optional_access)
  /\ (forall fuel ind,
        outcome_of (run env fuel (app0 ind)) <> Throws bad_optional_access).
Proof.
  intros Hnull [a Hret] device.
  destruct (pickPhysicalDevice_spec env s Hnull) as (_ & Hsuit & _).
  specialize (Hsuit a Hret). fold device in Hsuit.
  set (Q1 := fun d : VkPhysicalDevice => isDeviceSuitable env d = true).
  assert (HQ1 : forall d, Q1 d -> isComplete (findQueueFamilies env d) = true)
    by (intros d; apply isDeviceSuitable_complete).
  split; [apply (complete_indices env Q1 HQ1), Hsuit|]. split.
  - intros s2 Hs2.
    assert (H2 : Q1 (physicalDevice s2)) by (rewrite Hs2; exact Hsuit).
    split; [|split].
    + apply (createLogicalDevice_keeps env Q1 HQ1 s2 H2).
    + apply (createSwapChain_keeps env Q1 HQ1 s2 H2).
    + apply (createCommandPool_keeps env Q1 HQ1 s2 H2).
  - intros fuel ind. apply (run_keeps env fuel (app0 ind) eq_refl).
Qed.

Lemma optional_access_safe_witness :
  let s := app0 (0, mkExtent 0 0) in
  let device := physicalDevice (state_of (pickPhysicalDevice single_family s)) in
  (exists g p, findQueueFamilies single_family device = mkIndices (Some g) (Some p))
  /\ (forall s2, physicalDevice s2 = device ->
        outcome_of (createLogicalDevice single_family s2)
          <> Throws bad_optional_access
        /\ outcome_of (createSwapChain single_family s2)
             <> Throws bad_optional_access
        /\ outcome_of (createCommandPool single_family s2)
             <> Throws bad_optional_access)
  /\ (forall fuel ind,
        outcome_of (run single_family fuel (app0 ind)) <> Throws bad_optional_access).
Proof.
  apply (optional_access_safe single_family (app0 (0, mkExtent 0 0))).
  - reflexivity.
  - exists tt. vm_compute. reflexivity.
Defined.

Example pickPhysicalDevice_single_family :
  physicalDevice (state_of (pickPhysicalDevice single_family (app0 (0, mkExtent 0 0))))
  = 7.
Proof. vm_compute. reflexivity. Qed.

(** ** Validation layers *)

Lemma layerFound_spec (layerName : string) (availableLayers : list string) :
  layerFound layerName availableLayers = true <-> layerName ∈ availableLayers.
Proof.
  induction availableLayers as [|l ls IH]; simpl.
  - split; [discriminate | intros H; inversion H].
  - rewrite elem_of_cons. destruct (String.eqb_spec layerName l) as [->|Hne].
    + split; [left; reflexivity | reflexivity].
    + rewrite IH. split; [right; assumption | intros [Heq|Hin]; [contradiction|exact Hin]].
Qed.

Lemma checkValidationLayerSupport_loop_spec (requested availableLayers : list string) :
  checkValidationLayerSupport_loop requested availableLayers = true
  <-> forall layerName, layerName ∈ requested -> layerName ∈ availableLayers.
Proof.
  induction requested as [|l ls IH]; simpl.
  - split; [intros _ x H; inversion H | reflexivity].
  - destruct (layerFound l availableLayers) eqn:Hl; simpl.
    + rewrite IH. apply layerFound_spec in Hl. split.
      * intros H x Hx. apply elem_of_cons in Hx as [->|Hx]; [exact Hl | apply H, Hx].
      * intros H x Hx. apply H, list_elem_of_further, Hx.
    + split; [discriminate|]. intros H.
      assert (Hin : l ∈ availableLayers) by apply H, list_elem_of_here.
      apply layerFound_spec in Hin. congruence.
Qed.

Lemma printExtensions_run (env : Platform) (s : App) :
  (length (instanceExtensions env) <= 32)%nat ->
  printExtensions env s
  = (Returns tt, s,
     StdoutExtensionCount (length (instanceExtensions env))
     :: map (fun extension => StdoutExtension extension.1 extension.2)
            (take 32 (instanceExtensions env))).
Proof.
  intros Hfit. unfold printExtensions. erewrite bind_of_returns by reflexivity.
  destruct (Nat.ltb_spec 32 (length (instanceExtensions env))) as [Hlt|_]; [lia|].
  rewrite for_each_emit. reflexivity.
Qed.

Lemma printExtensions_overflow (env : Platform) (s : App) :
  (32 < length (instanceExtensions env))%nat ->
  printExtensions env s
  = (Stuck UndefinedBehaviour, s,
     [StdoutExtensionCount (length (instanceExtensions env))]).
Proof.
  intros Hlt. unfold printExtensions, bind, emit, undefined.
  destruct (Nat.ltb_spec 32 (length (instanceExtensions env))) as [_|Hle]; [|lia].
  reflexivity.
Qed.

Lemma printExtensions_returns (env : Platform) (s s' : App) (t : list Event)
    (a : unit) :
  printExtensions env s = (Returns a, s', t) ->
  (length (instanceExtensions env) <= 32)%nat
  /\ s' = s
  /\ t = StdoutExtensionCount (length (instanceExtensions env))
         :: map (fun extension => StdoutExtension extension.1 extension.2)
                (take 32 (instanceExtensions env)).
Proof.
  intros H.
  destruct (Nat.ltb_spec 32 (length (instanceExtensions env))) as [Hlt|Hle].
  - rewrite (printExtensions_overflow env s Hlt) in H. discriminate H.
  - rewrite (printExtensions_run env s Hle) in H. inversion H; subst.
    split; [exact Hle|]. split; reflexivity.
Qed.

(** C8.  With validation layers enabled and some requested layer missing from
    the enumerated instance layers, [createInstance] throws at once, having
    done nothing.  When the instance extensions fit the array of
    [printExtensions] (at most 32), [main] then writes the message to the
    error stream and returns [EXIT_FAILURE], which is not zero, and the
    process created nothing but the GLFW state and the window: no instance,
    no device, and no second attempt.  With more than 32 instance extensions
    the run never gets as far as [createInstance]: [printExtensions] overruns
    its array after printing the count, so there is no message on the error
    stream and no exit status. *)
Theorem createInstance_validation_unavailable (env : Platform) :
  enableValidationLayers env = true ->
  (exists layerName,
      layerName ∈ validationLayers /\ layerName ∉ instanceLayers env) ->
  (forall s,
      createInstance env s
      = (Throws (runtime_error "validation layers requested, but not available!"),
         s, []))
  /\ ((length (instanceExtensions env) <= 32)%nat ->
      forall fuel ind,
        main env fuel ind = (Some EXIT_FAILURE, validation_failure_trace env))
  /\ ((32 < length (instanceExtensions env))%nat ->
      forall fuel ind,
        main env fuel ind
        = (None,
           [Create GlfwLibrary; Create Window;
            StdoutExtensionCount (length (instanceExtensions env))]))
  /\ EXIT_FAILURE <> 0
  /\ (forall r, Create r ∈ validation_failure_trace env ->
        r = GlfwLibrary \/ r = Window).
Proof.
  intros Hen (layerName & Hreq & Hmissing).
  assert (Hcheck : checkValidationLayerSupport env = false).
  { destruct (checkValidationLayerSupport env) eqn:Hc; [|reflexivity].
    unfold checkValidationLayerSupport in Hc.
    pose proof (proj1 (checkValidationLayerSupport_loop_spec _ _) Hc) as Hall.
    exfalso. apply Hmissing, Hall, Hreq. }
  assert (Hthrow : forall s,
    createInstance env s
    = (Throws (runtime_error "validation layers requested, but not available!"),
       s, [])).
  { intros s. unfold createInstance. rewrite Hen, Hcheck. reflexivity. }
  split; [exact Hthrow|]. split; [|split; [|split; [discriminate|]]].
  - intros Hfit fuel ind. unfold main, run.
    erewrite bind_of_returns by reflexivity.
    assert (Hinit : initVulkan env (app0 ind)
      = (Throws (runtime_error "validation layers requested, but not available!"),
         app0 ind,
         StdoutExtensionCount (length (instanceExtensions env))
         :: map (fun extension => StdoutExtension extension.1 extension.2)
                (take 32 (instanceExtensions env)))).
    { unfold initVulkan.
      erewrite bind_of_returns by (apply printExtensions_run, Hfit).
      erewrite bind_of_throws by apply Hthrow. simpl. rewrite app_nil_r.
      reflexivity. }
    erewrite bind_of_throws by exact Hinit. simpl.
    unfold validation_failure_trace. simpl. reflexivity.
  - intros Hmany fuel ind. unfold main, run, initVulkan, initWindow.
    unfold bind at 1 2 3 4. unfold emit at 1 2.
    rewrite (printExtensions_overflow env (app0 ind) Hmany). reflexivity.
  - intros r Hin. unfold validation_failure_trace in Hin. simpl in Hin.
    apply elem_of_cons in Hin as [Heq|Hin]; [left; congruence|].
    apply elem_of_cons in Hin as [Heq|Hin]; [right; congruence|].
    apply elem_of_cons in Hin as [Heq|Hin]; [discriminate|].
    apply elem_of_app in Hin as [Hin|Hin].
    + apply list_elem_of_fmap in Hin as (x & Heq & _). discriminate.
    + apply elem_of_cons in Hin as [Heq|Hin]; [discriminate | inversion Hin].
Qed.

Lemma createInstance_validation_unavailable_witness :
  (forall s,
      createInstance no_layers_many_extensions s
      = (Throws (runtime_error "validation layers requested, but not available!"),
         s, []))
  /\ (forall fuel ind,
        main no_layers_many_extensions fuel ind
        = (None,
           [Create GlfwLibrary; Create Window; StdoutExtensionCount 33])).
Proof.
  destruct (createInstance_validation_unavailable no_layers_many_extensions)
    as (Hthrow & _ & Hmany & _).
  - reflexivity.
  - exists "VK_LAYER_KHRONOS_validation". split.
    + apply list_elem_of_here.
    + intros H. inversion H.
  - split; [exact Hthrow|]. apply Hmany. simpl. lia.
Defined.

Example main_no_layers :
  main no_layers 0 (0, mkExtent 0 0)
  = (Some 1,
     [Create GlfwLibrary; Create Window; StdoutExtensionCount 1;
      StdoutExtension "VK_KHR_surface" 25;
      Stderr "validation layers requested, but not available!"]).
Proof. reflexivity. Qed.

(** ** Complete runs: what each member function does when it returns *)

Lemma fill_length (l : list nat) (v : list (option nat)) :
  length (fill v l) = length v.
Proof.
  revert v. induction l as [|x l IH]; intros v; simpl; [reflexivity|].
  unfold fill in *. simpl. rewrite IH, length_insert. reflexivity.
Qed.

Lemma fill_lookup_notin (l : list nat) (v : list (option nat)) (i : nat) :
  i ∉ l -> fill v l !! i = v !! i.
Proof.
  revert v. induction l as [|x l IH]; intros v Hnin; [reflexivity|].
  apply not_elem_of_cons in Hnin as [Hne Hnin].
  unfold fill in *. simpl. rewrite IH by exact Hnin.
  apply list_lookup_insert_ne. congruence.
Qed.

Lemma fill_lookup_in (l : list nat) (v : list (option nat)) (i : nat) :
  i ∈ l -> (i < length v)%nat -> fill v l !! i = Some (Some i).
Proof.
  revert v. induction l as [|x l IH]; intros v Hin Hlt; [inversion Hin|].
  change (fill v (x :: l)) with (fill (<[ x := Some x ]> v) l).
  destruct (decide (i ∈ l)) as [Hl|Hl].
  - apply IH; [exact Hl | rewrite length_insert; exact Hlt].
  - apply elem_of_cons in Hin as [->|Hin]; [|contradiction].
    rewrite fill_lookup_notin by exact Hl.
    apply list_lookup_insert_eq, Hlt.
Qed.

Lemma fill_seq (v : list (option nat)) :
  fill v (seq 0 (length v)) = map Some (seq 0 (length v)).
Proof.
  apply list_eq. intros i.
  destruct (decide (i < length v)%nat) as [Hlt|Hge].
  - rewrite fill_lookup_in; [| apply elem_of_seq; lia | exact Hlt].
    change (map Some (seq 0 (length v))) with (Some <$> seq 0 (length v)).
    rewrite list_lookup_fmap, lookup_seq_lt by exact Hlt. reflexivity.
  - rewrite !lookup_ge_None_2; [reflexivity | |].
    + rewrite length_map, length_seq. lia.
    + rewrite fill_length. lia.
Qed.

Lemma resize_length {A} (n : nat) (v : list (option A)) : length (resize n v) = n.
Proof.
  unfold resize. rewrite length_app, length_take, length_replicate. lia.
Qed.

Lemma checked_call_returns (env : Platform) (c : Call) (ev : Event) (msg : string)
    (s s' : App) (t : list Event) (a : unit) :
  (r <- call env c ev ;; throw_unless_success r msg) s = (Returns a, s', t) ->
  s' = s /\ t = [ev].
Proof.
  unfold call, bind, throw_unless_success.
  destruct (result env c); simpl; intros H; inversion H; subst.
  split; reflexivity.
Qed.

Lemma for_each_returns {A} (f : App -> A -> list Event) (body : A -> M unit) :
  (forall x s s' t a, body x s = (Returns a, s', t) -> s' = s /\ t = f s x) ->
  forall l s s' t a,
    for_each l body s = (Returns a, s', t) -> s' = s /\ t = concat (map (f s) l).
Proof.
  intros Hbody. induction l as [|x l IH]; intros s s' t a Hrun; simpl in *.
  - inversion Hrun. split; reflexivity.
  - apply bind_returns in Hrun as (a1 & s1 & t1 & t2 & H1 & H2 & ->).
    apply Hbody in H1 as [-> ->]. apply IH in H2 as [-> ->].
    split; reflexivity.
Qed.

Section VectorLoop.

Variable env : Platform.
Variable c : nat -> Call.
Variable kind : nat -> Resource.
Variable msg : string.
Variable getv : App -> list (option nat).
Variable setv : list (option nat) -> App -> App.
Hypothesis getv_setv : forall v s, getv (setv v s) = v.
Hypothesis setv_setv : forall v1 v2 s, setv v2 (setv v1 s) = setv v2 s.
Hypothesis setv_getv : forall s, setv (getv s) s = s.

Lemma create_into_returns (i : nat) (s s' : App) (t : list Event) (a : unit) :
  create_into env c kind msg getv setv i s = (Returns a, s', t) ->
  s' = setv (<[ i := Some i ]> (getv s)) s /\ t = [Create (kind i)].
Proof.
  unfold create_into, call, bind, throw_unless_success, modify.
  destruct (result env (c i)); simpl; intros H; inversion H; subst.
  split; reflexivity.
Qed.

Lemma for_each_create_into (l : list nat) (s s' : App) (t : list Event) (a : unit) :
  for_each l (create_into env c kind msg getv setv) s = (Returns a, s', t) ->
  s' = setv (fill (getv s) l) s /\ t = map (fun i => Create (kind i)) l.
Proof.
  revert s t. induction l as [|i l IH]; intros s t Hrun; simpl in Hrun.
  - inversion Hrun; subst. change (fill (getv s') []) with (getv s').
    rewrite setv_getv. split; reflexivity.
  - apply bind_returns in Hrun as (a1 & s1 & t1 & t2 & H1 & H2 & ->).
    apply create_into_returns in H1 as [-> ->]. apply IH in H2 as [-> ->].
    rewrite getv_setv, setv_setv. split; reflexivity.
Qed.

End VectorLoop.

(** Unfolding of the monad's operations in hypothesis [H]. *)
Ltac unfold_monad H :=
  unfold bind, ret, get, emit, throw, undefined, modify, value, call,
    throw_unless_success in H; simpl in H.

Lemma set_swapChainImageViews_id (s : App) :
  set_swapChainImageViews (swapChainImageViews s) s = s.
Proof. destruct s. reflexivity. Qed.

Lemma set_swapChainFramebuffers_id (s : App) :
  set_swapChainFramebuffers (swapChainFramebuffers s) s = s.
Proof. destruct s. reflexivity. Qed.

Section Returns.

Variable env : Platform.

Lemma createInstance_returns (s s' : App) (t : list Event) (a : unit) :
  createInstance env s = (Returns a, s', t) -> s' = s /\ t = [Create Instance].
Proof.
  unfold createInstance. intros H.
  destruct (enableValidationLayers env && negb (checkValidationLayerSupport env));
    [discriminate H|].
  apply checked_call_returns in H. exact H.
Qed.

Lemma setupDebugMessenger_returns (s s' : App) (t : list Event) (a : unit) :
  setupDebugMessenger env s = (Returns a, s', t) ->
  s' = s
  /\ t = if enableValidationLayers env then [Create DebugMessenger] else [].
Proof.
  unfold setupDebugMessenger, CreateDebugUtilMessengerEXT. intros H.
  destruct (enableValidationLayers env); simpl in H.
  - destruct (procAddr env "vkCreateDebugUtilsMessengerEXT").
    + apply checked_call_returns in H. exact H.
    + discriminate H.
  - inversion H. split; reflexivity.
Qed.

Lemma createSurface_returns (s s' : App) (t : list Event) (a : unit) :
  createSurface env s = (Returns a, s', t) -> s' = s /\ t = [Create Surface].
Proof. apply checked_call_returns. Qed.

Lemma pickPhysicalDevice_returns (s s' : App) (t : list Event) (a : unit) :
  pickPhysicalDevice env s = (Returns a, s', t) ->
  s' = set_physicalDevice (physicalDevice s') s /\ t = [].
Proof.
  unfold pickPhysicalDevice. intros H.
  destruct (length (physicalDevices env) =? 0)%nat; [discriminate H|].
  destruct (pickPhysicalDevice_loop_spec env (physicalDevices env) s)
    as (s1 & Hrun & Hs1).
  rewrite (bind_of_returns _ _ _ _ _ _ Hrun) in H. unfold_monad H.
  destruct (physicalDevice s1 =? VK_NULL_HANDLE); simpl in H; [discriminate H|].
  inversion H; subst. split; [|reflexivity].
  destruct Hs1 as [->|(d & _ & _ & ->)]; [destruct s|]; reflexivity.
Qed.

Lemma createLogicalDevice_returns (s s' : App) (t : list Event) (a : unit) :
  createLogicalDevice env s = (Returns a, s', t) ->
  s' = s
  /\ exists ci g p,
       t = [Call_vkCreateDevice ci; Create LogicalDevice;
            GetDeviceQueue g 0; GetDeviceQueue p 0].
Proof.
  unfold createLogicalDevice. intros H. unfold_monad H.
  destruct (findQueueFamilies env (physicalDevice s)) as [[g|] [p|]];
    simpl in H; try discriminate H.
  destruct (result env vkCreateDevice); simpl in H; try discriminate H.
  inversion H; subst. split; [reflexivity|]. eexists _, g, p. reflexivity.
Qed.

Lemma createSwapChain_returns (s s' : App) (t : list Event) (a : unit) :
  createSwapChain env s = (Returns a, s', t) ->
  exists ci f e,
    s' = set_swapChain (swapchainImages env) f e s
    /\ t = [Call_vkCreateSwapchainKHR ci; Create Swapchain].
Proof.
  unfold createSwapChain. intros H. unfold_monad H.
  destruct (chooseSwapSurfaceFormat _) as [f|]; simpl in H; [|discriminate H].
  destruct (findQueueFamilies env (physicalDevice s)) as [[g|] [p|]];
    simpl in H; try discriminate H.
  destruct (result env vkCreateSwapchainKHR); simpl in H; try discriminate H.
  inversion H; subst. eexists _, _, _. split; reflexivity.
Qed.

Lemma createImageviews_returns (s s' : App) (t : list Event) (a : unit) :
  createImageviews env s = (Returns a, s', t) ->
  let n := length (swapChainImages s) in
  s' = set_swapChainImageViews (map Some (seq 0 n)) s
  /\ t = map (fun i => Create (ImageView i)) (seq 0 n).
Proof.
  intros H n. unfold createImageviews in H.
  apply bind_returns in H as (s0 & s1 & t1 & t2 & Hget & H & ->).
  inversion Hget; subst s0 s1 t1. clear Hget.
  apply bind_returns in H as (a1 & s1 & t1 & t3 & Hmod & H & ->).
  inversion Hmod; subst a1 s1 t1. clear Hmod.
  apply (for_each_create_into env vkCreateImageView ImageView
           "failed to create image views!" swapChainImageViews
           set_swapChainImageViews (fun _ _ => eq_refl) (fun _ _ _ => eq_refl)
           set_swapChainImageViews_id) in H.
  destruct H as [-> ->]. simpl. fold n.
  rewrite <- (resize_length n (swapChainImageViews s)) at 2 3.
  rewrite fill_seq. rewrite resize_length. split; reflexivity.
Qed.

Lemma createRenderPass_returns (s s' : App) (t : list Event) (a : unit) :
  createRenderPass env s = (Returns a, s', t) -> s' = s /\ t = [Create RenderPass].
Proof. apply checked_call_returns. Qed.

Lemma createGraphicsPipeline_returns (s s' : App) (t : list Event) (a : unit) :
  createGraphicsPipeline env s = (Returns a, s', t) ->
  s' = s
  /\ t = [Create (ShaderModule Vert); Create (ShaderModule Frag);
          Create PipelineLayout; Create GraphicsPipeline;
          Destroy (ShaderModule Frag); Destroy (ShaderModule Vert)].
Proof.
  unfold createGraphicsPipeline, readFile, createShaderModule. intros H.
  unfold_monad H.
  destruct (fileContents env "vert.spv"); simpl in H; [|discriminate H].
  destruct (fileContents env "frag.spv"); simpl in H; [|discriminate H].
  destruct (result env (vkCreateShaderModule Vert)); simpl in H; try discriminate H.
  destruct (result env (vkCreateShaderModule Frag)); simpl in H; try discriminate H.
  destruct (result env vkCreatePipelineLayout); simpl in H; try discriminate H.
  destruct (result env vkCreateGraphicsPipelines); simpl in H; try discriminate H.
  inversion H; subst. split; reflexivity.
Qed.

Lemma createFramebuffers_returns (s s' : App) (t : list Event) (a : unit) :
  createFramebuffers env s = (Returns a, s', t) ->
  let n := length (swapChainImageViews s) in
  s' = set_swapChainFramebuffers (map Some (seq 0 n)) s
  /\ t = map (fun i => Create (Framebuffer i)) (seq 0 n).
Proof.
  intros H n. unfold createFramebuffers in H.
  apply bind_returns in H as (s0 & s1 & t1 & t2 & Hget & H & ->).
  inversion Hget; subst s0 s1 t1. clear Hget.
  apply bind_returns in H as (a1 & s1 & t1 & t3 & Hmod & H & ->).
  inversion Hmod; subst a1 s1 t1. clear Hmod.
  apply (for_each_create_into env vkCreateFramebuffer Framebuffer
           "failed to create framebuffer!" swapChainFramebuffers
           set_swapChainFramebuffers (fun _ _ => eq_refl) (fun _ _ _ => eq_refl)
           set_swapChainFramebuffers_id) in H.
  destruct H as [-> ->]. simpl. fold n.
  rewrite <- (resize_length n (swapChainFramebuffers s)) at 2 3.
  rewrite fill_seq. rewrite resize_length. split; reflexivity.
Qed.

Lemma createCommandPool_returns (s s' : App) (t : list Event) (a : unit) :
  createCommandPool env s = (Returns a, s', t) -> s' = s /\ t = [Create CommandPool].
Proof.
  unfold createCommandPool. intros H. unfold_monad H.
  destruct (graphicsFamily (findQueueFamilies env (physicalDevice s)));
    simpl in H; [|discriminate H].
  destruct (result env vkCreateCommandPool); simpl in H; try discriminate H.
  inversion H; subst. split; reflexivity.
Qed.

End Returns.

Lemma createCommandBuffers_returns (env : Platform) (s s' : App)
    (t : list Event) (a : unit) :
  createCommandBuffers env s = (Returns a, s', t) ->
  let n := length (swapChainFramebuffers s) in
  s' = set_commandBuffers (map Some (seq 0 n)) s
  /\ t = AllocateCommandBuffers n
         :: concat (map (record_one (swapChainFramebuffers s)) (seq 0 n)).
Proof.
  intros H n. unfold createCommandBuffers in H.
  apply bind_returns in H as (s0 & s1 & t1 & t2 & Hget & H & ->).
  inversion Hget; subst s0 s1 t1. clear Hget.
  apply bind_returns in H as (a1 & s1 & t1 & t3 & Hmod & H & ->).
  inversion Hmod; subst a1 s1 t1. clear Hmod.
  apply bind_returns in H as (r & s1 & t1 & t4 & Hcall & H & ->).
  apply bind_returns in H as (a1 & s2 & t2 & t5 & Hthrow & H & ->).
  apply bind_returns in H as (a2 & s3 & t6 & t7 & Hmod & H & ->).
  unfold call in Hcall. unfold throw_unless_success in Hthrow.
  destruct (result env vkAllocateCommandBuffers);
    inversion Hcall; subst; simpl in Hthrow; try discriminate Hthrow.
  inversion Hthrow; subst. inversion Hmod; subst. clear Hcall Hthrow Hmod.
  apply (for_each_returns (fun s i => record_one (swapChainFramebuffers s) i)) in H.
  - destruct H as [-> ->]. fold n. split; [destruct s|]; reflexivity.
  - clear. intros i s s' t a H. unfold_monad H.
    destruct (result env (vkBeginCommandBuffer i)); simpl in H; try discriminate H.
    destruct (result env (vkEndCommandBuffer i)); simpl in H; try discriminate H.
    inversion H; subst. split; reflexivity.
Qed.

Lemma for_each_destroy (kind : nat -> Resource) (v : list (option nat)) (s : App) :
  for_each v (fun handle => destroy kind handle) s
  = (Returns tt, s, map (destroy_event kind) v).
Proof.
  induction v as [|h v IH]; [reflexivity|].
  destruct h; simpl; unfold bind, emit; simpl; rewrite IH; reflexivity.
Qed.

Lemma cleanup_run (env : Platform) (s : App) :
  cleanup env s
  = (Returns tt, s,
     [Destroy CommandPool]
     ++ map (destroy_event Framebuffer) (swapChainFramebuffers s)
     ++ [Destroy GraphicsPipeline; Destroy PipelineLayout; Destroy RenderPass]
     ++ map (destroy_event ImageView) (swapChainImageViews s)
     ++ [Destroy Swapchain; Destroy LogicalDevice]
     ++ (if enableValidationLayers env
            && procAddr env "vkDestroyDebugUtilsMessengerEXT"
         then [Destroy DebugMessenger] else [])
     ++ [Destroy Surface; Destroy Instance; Destroy Window; Destroy GlfwLibrary]).
Proof.
  unfold cleanup, DestroyDebugUtilsMessengerEXT, bind, get, emit. simpl.
  rewrite !for_each_destroy.
  destruct (enableValidationLayers env);
    [destruct (procAddr env "vkDestroyDebugUtilsMessengerEXT")|];
    simpl; rewrite <- ?app_assoc; reflexivity.
Qed.

(** ** The trace of a complete run *)

Lemma map_destroy_event (kind : nat -> Resource) (l : list nat) :
  map (destroy_event kind) (map Some l) = map (fun i => Destroy (kind i)) l.
Proof. induction l as [|i l IH]; simpl; [|rewrite IH]; reflexivity. Qed.

Lemma initVulkan_returns (env : Platform) (ind : VkFormat * VkExtent2D)
    (s' : App) (t : list Event) (a : unit) :
  initVulkan env (app0 ind) = (Returns a, s', t) ->
  let n := length (swapchainImages env) in
  swapChainFramebuffers s' = map Some (seq 0 n)
  /\ swapChainImageViews s' = map Some (seq 0 n)
  /\ exists ciD g p ciS,
       t = instance_creation env ++ device_creation ciD g p ++ device_objects ciS n.
Proof.
  intros H n. unfold initVulkan in H.
  apply bind_returns in H as (a1 & s1 & t1 & r1 & H1 & H & ->).
  apply printExtensions_returns in H1 as (_ & -> & ->).
  apply bind_returns in H as (a2 & s2 & t2 & r2 & H2 & H & ->).
  apply createInstance_returns in H2 as [-> ->].
  apply bind_returns in H as (a3 & s3 & t3 & r3 & H3 & H & ->).
  apply setupDebugMessenger_returns in H3 as [-> ->].
  apply bind_returns in H as (a4 & s4 & t4 & r4 & H4 & H & ->).
  apply createSurface_returns in H4 as [-> ->].
  apply bind_returns in H as (a5 & s5 & t5 & r5 & H5 & H & ->).
  apply pickPhysicalDevice_returns in H5 as [Hs5 ->].
  apply bind_returns in H as (a6 & s6 & t6 & r6 & H6 & H & ->).
  apply createLogicalDevice_returns in H6 as [-> (ciD & g & p & ->)].
  apply bind_returns in H as (a7 & s7 & t7 & r7 & H7 & H & ->).
  apply createSwapChain_returns in H7 as (ciS & f & e & Hs7 & ->).
  apply bind_returns in H as (a8 & s8 & t8 & r8 & H8 & H & ->).
  apply createImageviews_returns in H8 as [Hs8 ->].
  apply bind_returns in H as (a9 & s9 & t9 & r9 & H9 & H & ->).
  apply createRenderPass_returns in H9 as [-> ->].
  apply bind_returns in H as (a10 & s10 & t10 & r10 & H10 & H & ->).
  apply createGraphicsPipeline_returns in H10 as [-> ->].
  apply bind_returns in H as (a11 & s11 & t11 & r11 & H11 & H & ->).
  apply createFramebuffers_returns in H11 as [Hs11 ->].
  apply bind_returns in H as (a12 & s12 & t12 & r12 & H12 & H & ->).
  apply createCommandPool_returns in H12 as [-> ->].
  apply createCommandBuffers_returns in H as [Hs' ->].
  assert (Hn7 : length (swapChainImages s7) = n) by (rewrite Hs7; reflexivity).
  rewrite Hn7 in *.
  assert (Hn8 : length (swapChainImageViews s8) = n).
  { rewrite Hs8. simpl. rewrite length_map, length_seq. reflexivity. }
  rewrite Hn8 in *.
  assert (Hfb : swapChainFramebuffers s11 = map Some (seq 0 n))
    by (rewrite Hs11; reflexivity).
  assert (Hn11 : length (swapChainFramebuffers s11) = n).
  { rewrite Hfb, length_map, length_seq. reflexivity. }
  rewrite Hn11, Hfb in *.
  split; [rewrite Hs'; exact Hfb|].
  split; [rewrite Hs', Hs11, Hs8; reflexivity|].
  exists ciD, g, p, ciS.
  unfold instance_creation, device_creation, device_objects. simpl.
  repeat (rewrite <- ?app_assoc; simpl; f_equal).
Qed.

Lemma cleanup_trace_of_vectors (env : Platform) (s : App) (n : nat) :
  swapChainFramebuffers s = map Some (seq 0 n) ->
  swapChainImageViews s = map Some (seq 0 n) ->
  cleanup env s = (Returns tt, s, cleanup_trace env n).
Proof.
  intros Hfb Hiv. rewrite cleanup_run, Hfb, Hiv, !map_destroy_event.
  unfold cleanup_trace, cleanup_device_objects, cleanup_instance_objects.
  repeat (rewrite <- ?app_assoc; simpl; f_equal).
Qed.

Lemma run_returns (env : Platform) (fuel : nat) (ind : VkFormat * VkExtent2D)
    (s' : App) (t : list Event) (a : unit) :
  run env fuel (app0 ind) = (Returns a, s', t) ->
  let n := length (swapchainImages env) in
  cleanup env s' = (Returns tt, s', cleanup_trace env n)
  /\ exists ciD g p ciS k,
       t = (before_device env ++ device_creation ciD g p ++ after_device ciS n k)
           ++ cleanup_trace env n.
Proof.
  intros H n. unfold run in H.
  apply bind_returns in H as (a1 & s1 & t1 & r1 & H1 & H & ->).
  inversion H1; subst a1 s1 t1. clear H1.
  apply bind_returns in H as (a2 & s2 & t2 & r2 & H2 & H & ->).
  apply initVulkan_returns in H2 as (Hfb & Hiv & ciD & g & p & ciS & ->).
  apply bind_returns in H as (a3 & s3 & t3 & r3 & H3 & H & ->).
  destruct (mainLoop_from_trace env fuel 0 s2) as (k & _ & Ht & Hs).
  unfold mainLoop in H3. rewrite H3 in Ht, Hs.
  unfold trace_of, state_of in Ht, Hs. simpl in Ht, Hs. subst t3 s3.
  rewrite (cleanup_trace_of_vectors env s2 n Hfb Hiv) in H.
  inversion H; subst. clear H.
  split; [apply cleanup_trace_of_vectors; assumption|].
  exists ciD, g, p, ciS, k.
  unfold before_device, after_device.
  repeat (rewrite <- ?app_assoc; simpl; f_equal).
Qed.

(** ** Order of events *)

Lemma precedes_app_l (a b : Event) (l1 l2 : list Event) :
  precedes a b l1 -> precedes a b (l1 ++ l2).
Proof.
  intros (i & j & Hij & Hi & Hj). exists i, j.
  split; [exact Hij|]. split; apply lookup_app_l_Some; assumption.
Qed.

Lemma precedes_app_r (a b : Event) (l1 l2 : list Event) :
  precedes a b l2 -> precedes a b (l1 ++ l2).
Proof.
  intros (i & j & Hij & Hi & Hj). exists (length l1 + i)%nat, (length l1 + j)%nat.
  split; [lia|]. split; rewrite lookup_app_r by lia.
  - replace (length l1 + i - length l1)%nat with i by lia. exact Hi.
  - replace (length l1 + j - length l1)%nat with j by lia. exact Hj.
Qed.

Lemma precedes_across (a b : Event) (l1 l2 : list Event) :
  a ∈ l1 -> b ∈ l2 -> precedes a b (l1 ++ l2).
Proof.
  intros Ha Hb. apply list_elem_of_lookup_1 in Ha as [i Hi].
  apply list_elem_of_lookup_1 in Hb as [j Hj].
  exists i, (length l1 + j)%nat. pose proof (lookup_lt_Some _ _ _ Hi).
  split; [lia|]. split; [apply lookup_app_l_Some, Hi|].
  rewrite lookup_app_r by lia.
  replace (length l1 + j - length l1)%nat with j by lia. exact Hj.
Qed.

(** Whatever comes after an occurrence of [a] that nothing equal to [a]
    precedes, lies in the rest of the list. *)
Lemma precedes_after_first (a b : Event) (l1 l2 : list Event) :
  a ∉ l1 -> precedes a b (l1 ++ a :: l2) -> b ∈ l2.
Proof.
  intros Hnin (i & j & Hij & Hi & Hj).
  assert (Hge : (length l1 <= i)%nat).
  { destruct (decide (i < length l1)%nat) as [Hlt|]; [|lia].
    exfalso. apply Hnin. rewrite lookup_app_l in Hi by exact Hlt.
    apply list_elem_of_lookup_2 in Hi. exact Hi. }
  rewrite lookup_app_r in Hj by lia.
  rewrite lookup_cons_ne_0 in Hj by lia.
  apply list_elem_of_lookup_2 in Hj. exact Hj.
Qed.

(** Case analysis on a membership hypothesis [H] over an explicit list. *)
Ltac elem_cases H :=
  repeat match type of H with
         | _ ∈ _ ++ _ => apply elem_of_app in H as [H|H]
         | _ ∈ _ :: _ => apply elem_of_cons in H as [H|H]; [try discriminate H|]
         | _ ∈ [] => inversion H
         | _ ∈ map _ _ =>
             let i := fresh "i" in
             let Hi := fresh "Hi" in
             apply list_elem_of_fmap in H as (i & H & Hi); try discriminate H
         | _ ∈ replicate _ _ => apply elem_of_replicate_inv in H; try discriminate H
         | _ ∈ (if ?b then _ else _) => destruct b
         end.

(** Search for an element in an explicit list. *)
Ltac elem_search :=
  solve [ apply list_elem_of_here
        | eassumption
        | apply list_elem_of_fmap; eexists; split; [reflexivity | eassumption]
        | apply list_elem_of_further; elem_search
        | apply elem_of_app; left; elem_search
        | apply elem_of_app; right; elem_search ].

Lemma recording_lifeless (framebuffers : list (option nat)) (l : list nat)
    (e : Event) :
  e ∈ concat (map (record_one framebuffers) l) ->
  (forall r, e <> Create r) /\ (forall r, e <> Destroy r).
Proof.
  induction l as [|i l IH]; simpl; intros H; [inversion H|].
  unfold record_one in H at 1.
  repeat (apply elem_of_cons in H as [->|H]; [split; discriminate|]).
  apply IH, H.
Qed.

Section CompleteRun.

Variable env : Platform.
Variable ciD : VkDeviceCreateInfo.
Variable ciS : VkSwapchainCreateInfoKHR.
Variables g p n k : nat.

(** The trace of a complete run, and its part before [cleanup]. *)
Let before_cleanup : list Event :=
  before_device env ++ device_creation ciD g p ++ after_device ciS n k.
Let complete : list Event := before_cleanup ++ cleanup_trace env n.

Lemma complete_around_device_creation :
  complete
  = (before_device env ++ [Call_vkCreateDevice ciD])
    ++ Create LogicalDevice
       :: ([GetDeviceQueue g 0; GetDeviceQueue p 0]
           ++ after_device ciS n k ++ cleanup_trace env n).
Proof.
  unfold complete, before_cleanup, device_creation.
  rewrite <- !app_assoc. reflexivity.
Qed.

Lemma complete_around_device_destruction :
  complete
  = (before_cleanup ++ cleanup_device_objects n)
    ++ Destroy LogicalDevice :: cleanup_instance_objects env.
Proof.
  unfold complete, cleanup_trace. rewrite <- !app_assoc. reflexivity.
Qed.

Lemma device_created_once :
  Create LogicalDevice ∉ before_device env ++ [Call_vkCreateDevice ciD].
Proof.
  intros H. unfold before_device, instance_creation in H. elem_cases H.
Qed.

(** Whatever is created after the logical device is destroyed either within
    [initVulkan] (the shader modules) or by the first part of [cleanup]. *)
Lemma created_after_device (r : Resource) :
  Create r ∈ [GetDeviceQueue g 0; GetDeviceQueue p 0]
             ++ after_device ciS n k ++ cleanup_trace env n ->
  Destroy r ∈ before_cleanup ++ cleanup_device_objects n.
Proof.
  intros H.
  unfold after_device, device_objects, cleanup_trace, cleanup_device_objects,
    cleanup_instance_objects in H.
  unfold before_cleanup, after_device, device_objects, cleanup_device_objects.
  elem_cases H;
    try (injection H as ->);
    try (apply recording_lifeless in H as [H _]; exfalso; exact (H r eq_refl));
    elem_search.
Qed.

Lemma destroyed_after_creation_order (r : Resource) :
  precedes (Create LogicalDevice) (Create r) complete ->
  precedes (Destroy r) (Destroy LogicalDevice) complete.
Proof.
  intros H. rewrite complete_around_device_creation in H.
  apply precedes_after_first in H; [|apply device_created_once].
  apply created_after_device in H.
  rewrite complete_around_device_destruction.
  apply precedes_across; [exact H | apply list_elem_of_here].
Qed.

Lemma device_before_instance :
  precedes (Destroy LogicalDevice) (Destroy Instance) complete.
Proof.
  rewrite complete_around_device_destruction.
  change (Destroy LogicalDevice :: cleanup_instance_objects env)
    with ([Destroy LogicalDevice] ++ cleanup_instance_objects env).
  apply precedes_app_r, precedes_across; [apply list_elem_of_here|].
  unfold cleanup_instance_objects. elem_search.
Qed.

Lemma swapchain_before_surface :
  precedes (Destroy Swapchain) (Destroy Surface) complete.
Proof.
  rewrite complete_around_device_destruction.
  apply precedes_across.
  - unfold cleanup_device_objects. elem_search.
  - unfold cleanup_instance_objects. elem_search.
Qed.

Lemma surface_before_instance :
  precedes (Destroy Surface) (Destroy Instance) complete.
Proof.
  rewrite complete_around_device_destruction.
  apply precedes_app_r.
  change (Destroy LogicalDevice :: cleanup_instance_objects env)
    with ([Destroy LogicalDevice] ++ cleanup_instance_objects env).
  apply precedes_app_r. unfold cleanup_instance_objects.
  apply precedes_app_r.
  exists 0%nat, 1%nat. split; [lia|]. split; reflexivity.
Qed.

End CompleteRun.

(** ** Creation order against destruction order *)

Section Ranks.

Variable f : Event -> option nat.

Lemma chain_nil (c : nat) : chain f c [].
Proof.
  split; [intros i j x y a b _ Hi; inversion Hi | intros x a Hx; inversion Hx].
Qed.

Lemma chain_cons_some (c m : nat) (e : Event) (l : list Event) :
  f e = Some m -> (c <= m)%nat -> chain f m l -> chain f c (e :: l).
Proof.
  intros He Hcm [Hs Ha]. split.
  - intros i j x y a b Hij Hi Hj Hx Hy.
    destruct j as [|j]; [lia|]. simpl in Hj.
    destruct i as [|i]; simpl in Hi.
    + injection Hi as <-. rewrite He in Hx. injection Hx as <-.
      apply (Ha y b); [apply list_elem_of_lookup_2 in Hj; exact Hj | exact Hy].
    + apply (Hs i j x y a b); [lia | assumption..].
  - intros x a Hx Hfx. apply elem_of_cons in Hx as [->|Hx].
    + rewrite He in Hfx. injection Hfx as <-. exact Hcm.
    + specialize (Ha x a Hx Hfx). lia.
Qed.

Lemma chain_cons_none (c : nat) (e : Event) (l : list Event) :
  f e = None -> chain f c l -> chain f c (e :: l).
Proof.
  intros He [Hs Ha]. split.
  - intros i j x y a b Hij Hi Hj Hx Hy.
    destruct j as [|j]; [lia|]. simpl in Hj.
    destruct i as [|i]; simpl in Hi.
    + injection Hi as <-. rewrite He in Hx. discriminate Hx.
    + apply (Hs i j x y a b); [lia | assumption..].
  - intros x a Hx Hfx. apply elem_of_cons in Hx as [->|Hx].
    + rewrite He in Hfx. discriminate Hfx.
    + exact (Ha x a Hx Hfx).
Qed.

Lemma chain_app_const (c m : nat) (l1 l2 : list Event) :
  (forall x, x ∈ l1 -> f x = Some m) -> (c <= m)%nat -> chain f m l2 ->
  chain f c (l1 ++ l2).
Proof.
  intros Hl1 Hcm Hl2. revert c Hcm. induction l1 as [|e l1 IH]; intros c Hcm; simpl.
  - destruct Hl2 as [Hs Ha]. split; [exact Hs|].
    intros x a Hx Hfx. specialize (Ha x a Hx Hfx). lia.
  - apply (chain_cons_some c m); [apply Hl1, list_elem_of_here | exact Hcm |].
    apply IH; [|lia]. intros x Hx. apply Hl1, list_elem_of_further, Hx.
Qed.

Lemma chain_app_none (c : nat) (l1 l2 : list Event) :
  (forall x, x ∈ l1 -> f x = None) -> chain f c l2 -> chain f c (l1 ++ l2).
Proof.
  intros Hl1 Hl2. induction l1 as [|e l1 IH]; simpl; [exact Hl2|].
  apply chain_cons_none; [apply Hl1, list_elem_of_here|].
  apply IH. intros x Hx. apply Hl1, list_elem_of_further, Hx.
Qed.

Lemma chain_none (c : nat) (l : list Event) :
  (forall x, x ∈ l -> f x = None) -> chain f c l.
Proof.
  intros Hl. rewrite <- (app_nil_r l). apply chain_app_none; [exact Hl|].
  apply chain_nil.
Qed.

(** In a sorted list, of two ranked events that both occur, the one of lower
    rank occurs first. *)
Lemma sorted_by_precedes (l : list Event) (x y : Event) (a b : nat) :
  sorted_by f l -> x ∈ l -> y ∈ l -> f x = Some a -> f y = Some b ->
  (a < b)%nat -> precedes x y l.
Proof.
  intros Hs Hx Hy Hfx Hfy Hab.
  apply list_elem_of_lookup_1 in Hx as [i Hi].
  apply list_elem_of_lookup_1 in Hy as [j Hj].
  destruct (lt_eq_lt_dec i j) as [[Hlt|Heq]|Hgt].
  - exists i, j. split; [exact Hlt|]. split; assumption.
  - subst j. rewrite Hi in Hj. injection Hj as <-. rewrite Hfx in Hfy.
    injection Hfy as <-. lia.
  - specialize (Hs j i y x b a Hgt Hj Hi Hfy Hfx). lia.
Qed.

End Ranks.

Lemma recording_unranked (f : Event -> option nat) (framebuffers : list (option nat))
    (l : list nat) :
  (forall e, (forall r, e <> Create r) -> (forall r, e <> Destroy r) -> f e = None) ->
  forall x, x ∈ concat (map (record_one framebuffers) l) -> f x = None.
Proof.
  intros Hf x Hx. apply recording_lifeless in Hx as [Hc Hd]. apply Hf; assumption.
Qed.

Lemma create_rank_lifeless (e : Event) :
  (forall r, e <> Create r) -> (forall r, e <> Destroy r) -> create_rank e = None.
Proof. intros Hc _. destruct e; try reflexivity. exfalso. exact (Hc r eq_refl). Qed.

(** One step of a [chain] proof, by the shape of the list. *)
Ltac chain_step :=
  lazymatch goal with
  | |- chain _ _ [] => apply chain_nil
  | |- chain _ _ (_ :: _) =>
      first [ apply chain_cons_none; [reflexivity|]
            | eapply chain_cons_some; [reflexivity | simpl; lia |] ]
  | |- chain _ _ ((if ?b then _ else _) ++ _) => destruct b; simpl
  | |- chain _ _ (map _ _ ++ _) =>
      first [ apply chain_app_none;
              [ let x := fresh "x" in
                let H := fresh "H" in
                intros x H; apply list_elem_of_fmap in H as (? & -> & _);
                reflexivity |]
            | eapply chain_app_const;
              [ let x := fresh "x" in
                let H := fresh "H" in
                intros x H; apply list_elem_of_fmap in H as (? & -> & _);
                simpl; reflexivity
              | simpl; lia |] ]
  | |- chain _ _ (replicate _ PollEvents) =>
      apply chain_none;
      let x := fresh "x" in
      let H := fresh "H" in
      intros x H; apply elem_of_replicate_inv in H as ->; reflexivity
  end.

Lemma before_cleanup_sorted (env : Platform) (ciD : VkDeviceCreateInfo)
    (ciS : VkSwapchainCreateInfoKHR) (g p n k : nat) :
  sorted_by create_rank
    (before_device env ++ device_creation ciD g p ++ after_device ciS n k).
Proof.
  cut (chain create_rank 0
         (before_device env ++ device_creation ciD g p ++ after_device ciS n k));
    [intros [Hs _]; exact Hs|].
  unfold before_device, instance_creation, device_creation, after_device,
    device_objects.
  rewrite <- !app_assoc. simpl.
  repeat chain_step.
  all: apply chain_app_none;
    [apply recording_unranked, create_rank_lifeless | repeat chain_step].
Qed.

Lemma cleanup_trace_sorted (env : Platform) (n : nat) :
  sorted_by destroy_rank (cleanup_trace env n).
Proof.
  cut (chain destroy_rank 0 (cleanup_trace env n)); [intros [Hs _]; exact Hs|].
  unfold cleanup_trace, cleanup_device_objects, cleanup_instance_objects.
  rewrite <- !app_assoc. simpl.
  repeat chain_step.
Qed.

Lemma cleanup_trace_ranked (env : Platform) (n : nat) (r : Resource) :
  Destroy r ∈ cleanup_trace env n -> exists a, cleanup_rank r = Some a.
Proof.
  intros H.
  unfold cleanup_trace, cleanup_device_objects, cleanup_instance_objects in H.
  elem_cases H; injection H as ->; eexists; reflexivity.
Qed.

(** In a complete run [cleanup] destroys in the reverse of the order of
    creation, by kind, except that the debug messenger, created before the
    surface, is also destroyed before it. *)
Lemma cleanup_reverses_creation (env : Platform) (ciD : VkDeviceCreateInfo)
    (ciS : VkSwapchainCreateInfoKHR) (g p n k : nat) (r1 r2 : Resource) :
  same_kind r1 r2 = false ->
  (r1, r2) <> (DebugMessenger, Surface) ->
  Destroy r1 ∈ cleanup_trace env n ->
  Destroy r2 ∈ cleanup_trace env n ->
  precedes (Create r1) (Create r2)
    (before_device env ++ device_creation ciD g p ++ after_device ciS n k) ->
  precedes (Destroy r2) (Destroy r1) (cleanup_trace env n).
Proof.
  intros Hkind Hne H1 H2 (i & j & Hij & Hi & Hj).
  pose proof (before_cleanup_sorted env ciD ciS g p n k i j _ _ _ _
                Hij Hi Hj eq_refl eq_refl) as Hle.
  destruct (cleanup_trace_ranked env n r1 H1) as [a Ha].
  destruct (cleanup_trace_ranked env n r2 H2) as [b Hb].
  apply (sorted_by_precedes destroy_rank _ _ _ b a (cleanup_trace_sorted env n));
    try assumption.
  unfold same_kind in Hkind. apply Nat.eqb_neq in Hkind.
  destruct r1, r2; simpl in *;
    try discriminate; try (injection Ha as <-; injection Hb as <-; lia);
    congruence.
Qed.

(** ** Teardown order *)

Example run_validating :
  exists s',
    run validating 3 (app0 (0, mkExtent 0 0))
    = (Returns tt, s',
       (before_device validating
        ++ device_creation
             (mkDeviceCreateInfo
                [mkQueueCreateInfo 0 1 1; mkQueueCreateInfo 0 1 1] 2
                deviceExtensions validationLayers) 0 0
        ++ after_device
             (mkSwapchainCreateInfo 3 50 0 (mkExtent 800 600)
                VK_SHARING_MODE_EXCLUSIVE [] 1 VK_PRESENT_MODE_FIFO_KHR) 2 2)
       ++ cleanup_trace validating 2).
Proof. eexists. vm_compute. reflexivity. Qed.

(** C7, as stated, fails: in a complete run with validation enabled the debug
    messenger is created before the surface and also destroyed before it, so
    the order of [cleanup] is not the strict reverse of the order of
    creation. *)
Lemma cleanup_not_reverse_of_creation :
  exists s' before,
    run validating 3 (app0 (0, mkExtent 0 0))
    = (Returns tt, s', before ++ cleanup_trace validating 2)
    /\ ~ reverse_of_creation before (cleanup_trace validating 2).
Proof.
  destruct run_validating as [s' Hrun]. eexists s', _. split; [exact Hrun|].
  intros Hrev.
  destruct (Hrev DebugMessenger Surface) as (i & j & Hij & Hi & Hj).
  - reflexivity.
  - vm_compute. elem_search.
  - vm_compute. elem_search.
  - exists 5%nat, 6%nat. split; [lia|]. split; reflexivity.
  - vm_compute in Hi, Hj.
    do 12 (destruct i as [|i]; [try discriminate Hi|]);
      [|do 3 (destruct i as [|i]; try discriminate Hi)].
    do 11 (destruct j as [|j]; [try discriminate Hj; try lia|]).
    do 5 (destruct j as [|j]; try discriminate Hj).
Qed.

(** C7, amended.  In every complete run [cleanup] destroys, in this order
    ([cleanup_trace]): command pool, framebuffers, pipeline, pipeline layout,
    render pass, image views, swapchain, logical device, debug messenger (when
    validation is enabled and its destroy entry point resolves), surface,
    instance, window, GLFW state.  By kind this is the reverse of the order of
    creation, except that the debug messenger, created before the surface, is
    destroyed before it.  Every object created after the logical device is
    destroyed before it, the logical device is destroyed before the instance,
    and the surface is destroyed after the swapchain and before the
    instance. *)
Theorem cleanup_order (env : Platform) (fuel : nat)
    (ind : VkFormat * VkExtent2D) (s' : App) (t : list Event) :
  run env fuel (app0 ind) = (Returns tt, s', t) ->
  let n := length (swapchainImages env) in
  exists before,
    t = before ++ cleanup_trace env n
    /\ cleanup env s' = (Returns tt, s', cleanup_trace env n)
    /\ (forall r1 r2,
          same_kind r1 r2 = false ->
          (r1, r2) <> (DebugMessenger, Surface) ->
          Destroy r1 ∈ cleanup_trace env n -> Destroy r2 ∈ cleanup_trace env n ->
          precedes (Create r1) (Create r2) before ->
          precedes (Destroy r2) (Destroy r1) (cleanup_trace env n))
    /\ (forall r,
          precedes (Create LogicalDevice) (Create r) t ->
          precedes (Destroy r) (Destroy LogicalDevice) t)
    /\ precedes (Destroy LogicalDevice) (Destroy Instance) t
    /\ precedes (Destroy Swapchain) (Destroy Surface) t
    /\ precedes (Destroy Surface) (Destroy Instance) t.
Proof.
  intros Hrun n.
  destruct (run_returns env fuel ind s' t tt Hrun)
    as (Hcleanup & ciD & g & p & ciS & k & ->).
  fold n in Hcleanup |- *.
  exists (before_device env ++ device_creation ciD g p ++ after_device ciS n k).
  split; [reflexivity|]. split; [exact Hcleanup|]. split; [|split; [|split; [|split]]].
  - intros r1 r2. apply cleanup_reverses_creation.
  - intros r. apply destroyed_after_creation_order.
  - apply device_before_instance.
  - apply swapchain_before_surface.
  - apply surface_before_instance.
Qed.

Lemma cleanup_order_witness :
  exists s' t,
    run validating 3 (app0 (0, mkExtent 0 0)) = (Returns tt, s', t)
    /\ exists before,
         t = before ++ cleanup_trace validating 2
         /\ cleanup validating s' = (Returns tt, s', cleanup_trace validating 2)
         /\ (forall r1 r2,
               same_kind r1 r2 = false ->
               (r1, r2) <> (DebugMessenger, Surface) ->
               Destroy r1 ∈ cleanup_trace validating 2 ->
               Destroy r2 ∈ cleanup_trace validating 2 ->
               precedes (Create r1) (Create r2) before ->
               precedes (Destroy r2) (Destroy r1) (cleanup_trace validating 2))
         /\ (forall r,
               precedes (Create LogicalDevice) (Create r) t ->
               precedes (Destroy r) (Destroy LogicalDevice) t)
         /\ precedes (Destroy LogicalDevice) (Destroy Instance) t
         /\ precedes (Destroy Swapchain) (Destroy Surface) t
         /\ precedes (Destroy Surface) (Destroy Instance) t.
Proof.
  destruct run_validating as [s' Hrun]. eexists s', _. split; [exact Hrun|].
  exact (cleanup_order validating 3 (0, mkExtent 0 0) s' _ Hrun).
Defined.

(** * Further properties *)

(** ** Layers, extensions and suitability *)

(** X1.  [checkValidationLayerSupport] answers true exactly when the one
    requested layer, VK_LAYER_KHRONOS_validation, is among the enumerated
    instance layers, wherever it stands in the enumeration. *)
Theorem checkValidationLayerSupport_iff (env : Platform) :
  checkValidationLayerSupport env = true
  <-> "VK_LAYER_KHRONOS_validation" ∈ instanceLayers env.
Proof.
  unfold checkValidationLayerSupport.
  rewrite checkValidationLayerSupport_loop_spec. unfold validationLayers. split.
  - intros H. apply H, list_elem_of_here.
  - intros H x Hx. apply elem_of_cons in Hx as [->|Hx]; [exact H | inversion Hx].
Qed.

Lemma foldl_erase (available : list string) (required : gset string) :
  foldl (fun req extension => req ∖ {[ extension ]}) required available
  = required ∖ list_to_set available.
Proof.
  revert required. induction available as [|e l IH]; intros required; simpl.
  - apply set_eq. intros x. rewrite elem_of_difference, elem_of_empty. tauto.
  - rewrite IH. apply set_eq. intros x.
    rewrite !elem_of_difference, elem_of_union, elem_of_singleton. tauto.
Qed.

Lemma checkDeviceExtensionSupport_all_found (env : Platform)
    (device : VkPhysicalDevice) :
  checkDeviceExtensionSupport env device = true
  <-> forall name, name ∈ deviceExtensions ->
        name ∈ deviceExtensionProperties env device.
Proof.
  unfold checkDeviceExtensionSupport. rewrite foldl_erase, bool_decide_eq_true.
  split.
  - intros H name Hname.
    destruct (decide (name ∈ deviceExtensionProperties env device)) as [|Hn];
      [assumption|].
    exfalso. apply (not_elem_of_empty (C := gset string) name).
    rewrite <- H. apply elem_of_difference.
    rewrite !elem_of_list_to_set. split; assumption.
  - intros H. apply set_eq. intros name.
    rewrite elem_of_difference, !elem_of_list_to_set, elem_of_empty.
    split; [intros [Hreq Hn]; apply Hn, H, Hreq | tauto].
Qed.

(** X2.  [checkDeviceExtensionSupport] answers true exactly when every
    required device extension (the swap chain extension) is among the
    extensions the device enumerates; duplicates and other extensions in the
    enumeration do not matter. *)
Theorem checkDeviceExtensionSupport_iff (env : Platform) (device : VkPhysicalDevice) :
  checkDeviceExtensionSupport env device = true
  <-> forall name, name ∈ deviceExtensions ->
        name ∈ deviceExtensionProperties env device.
Proof. apply checkDeviceExtensionSupport_all_found. Qed.

Lemma findQueueFamilies_complete_when (env : Platform) (device : VkPhysicalDevice) :
  isComplete (findQueueFamilies env device) = true
  <-> (exists i, graphicsAt env device i = true)
      /\ (exists j, (j < length (queueFamilyProperties env device))%nat
                    /\ surfaceSupport env device j = true).
Proof.
  destruct (findQueueFamilies_visited env device)
    as (m & Hm & Hstop & _ & HG & HP).
  unfold isComplete in *.
  destruct (findQueueFamilies env device) as [g p]; simpl in *. split.
  - intros Hc. destruct g as [g|]; [|discriminate].
    destruct p as [p|]; [|discriminate]. simpl in HG, HP.
    destruct HG as (_ & HGg & _), HP as (Hp & HPp & _).
    split; [exists g; exact HGg | exists p; split; [lia | exact HPp]].
  - intros [[i Hi] (j & Hj & HPj)].
    assert (Hilt : (i < length (queueFamilyProperties env device))%nat).
    { unfold graphicsAt in Hi.
      destruct (queueFamilyProperties env device !! i) eqn:Hl; [|discriminate].
      apply lookup_lt_Some in Hl. exact Hl. }
    destruct (decide (m < length (queueFamilyProperties env device))%nat)
      as [Hlt|Hge]; [apply Hstop, Hlt|].
    assert (m = length (queueFamilyProperties env device)) as -> by lia.
    destruct g as [g|]; simpl in HG; [|rewrite HG in Hi by lia; discriminate].
    destruct p as [p|]; simpl in HP; [|rewrite HP in HPj by lia; discriminate].
    reflexivity.
Qed.

(** X3.  The indices [findQueueFamilies] returns are complete exactly when
    the device has some graphics-capable queue family and some queue family
    with present support for the surface. *)
Theorem findQueueFamilies_complete_iff (env : Platform) (device : VkPhysicalDevice) :
  isComplete (findQueueFamilies env device) = true
  <-> (exists i, graphicsAt env device i = true)
      /\ (exists j, (j < length (queueFamilyProperties env device))%nat
                    /\ surfaceSupport env device j = true).
Proof. apply findQueueFamilies_complete_when. Qed.

Lemma vector_empty_false {A} (v : list A) : vector_empty v = false <-> v <> [].
Proof. destruct v; simpl; split; congruence. Qed.

(** X4.  [isDeviceSuitable] accepts a device exactly when it has a
    graphics-capable and a present-supporting queue family, enumerates the
    swap chain extension, and offers at least one surface format and one
    present mode. *)
Theorem isDeviceSuitable_iff (env : Platform) (device : VkPhysicalDevice) :
  isDeviceSuitable env device = true
  <-> ((exists i, graphicsAt env device i = true)
       /\ (exists j, (j < length (queueFamilyProperties env device))%nat
                     /\ surfaceSupport env device j = true))
      /\ "VK_KHR_swapchain" ∈ deviceExtensionProperties env device
      /\ surfaceFormats env device <> []
      /\ surfacePresentModes env device <> [].
Proof.
  rewrite <- findQueueFamilies_complete_when.
  assert (Hext : checkDeviceExtensionSupport env device = true
                 <-> "VK_KHR_swapchain" ∈ deviceExtensionProperties env device).
  { rewrite checkDeviceExtensionSupport_all_found. unfold deviceExtensions. split.
    - intros H. apply H, list_elem_of_here.
    - intros H x Hx. apply elem_of_cons in Hx as [->|Hx]; [exact H | inversion Hx]. }
  rewrite <- Hext, <- !vector_empty_false. unfold isDeviceSuitable. simpl.
  destruct (isComplete (findQueueFamilies env device));
    destruct (checkDeviceExtensionSupport env device);
    destruct (vector_empty (surfaceFormats env device));
    destruct (vector_empty (surfacePresentModes env device));
    simpl; intuition congruence.
Qed.

Example device_without_present_modes_rejected :
  isDeviceSuitable
    (mkPlatform true [] [] (fun _ => true) [7]
       (fun _ => [mkQueueFamily 15 16]) (fun _ _ => true)
       (fun _ => ["VK_KHR_swapchain"]) (fun _ => sample_capabilities)
       (fun _ => [mkSurfaceFormat 50 0]) (fun _ => [])
       (800, 600) [11] (fun _ => Some []) (fun _ => VK_SUCCESS) (fun _ => true))
    7 = false.
Proof. vm_compute. reflexivity. Qed.

(** ** Device selection *)

Lemma pickPhysicalDevice_loop_first (env : Platform)
    (pre post : list VkPhysicalDevice) (d : VkPhysicalDevice) (s : App) :
  (forall d', d' ∈ pre -> isDeviceSuitable env d' = false) ->
  isDeviceSuitable env d = true ->
  pickPhysicalDevice_loop env (pre ++ d :: post) s
  = (Returns tt, set_physicalDevice d s, []).
Proof.
  intros Hpre Hd. induction pre as [|d' pre IH]; simpl.
  - rewrite Hd. reflexivity.
  - rewrite (Hpre d') by apply list_elem_of_here.
    apply IH. intros x Hx. apply Hpre, list_elem_of_further, Hx.
Qed.

Lemma pickPhysicalDevice_loop_none (env : Platform)
    (devices : list VkPhysicalDevice) (s : App) :
  (forall d, d ∈ devices -> isDeviceSuitable env d = false) ->
  pickPhysicalDevice_loop env devices s = (Returns tt, s, []).
Proof.
  intros H. induction devices as [|d l IH]; simpl; [reflexivity|].
  rewrite (H d) by apply list_elem_of_here.
  apply IH. intros x Hx. apply H, list_elem_of_further, Hx.
Qed.

(** X5.  [pickPhysicalDevice] selects the first device of the enumeration
    that [isDeviceSuitable] accepts, whatever comes after it: it stores that
    handle in [physicalDevice], changes nothing else and produces no event
    (the handle must differ from the null handle, which the final test takes
    for "nothing found"). *)
Theorem pickPhysicalDevice_first_suitable (env : Platform) (s : App)
    (pre post : list VkPhysicalDevice) (d : VkPhysicalDevice) :
  physicalDevices env = pre ++ d :: post ->
  (forall d', d' ∈ pre -> isDeviceSuitable env d' = false) ->
  isDeviceSuitable env d = true ->
  d <> VK_NULL_HANDLE ->
  pickPhysicalDevice env s = (Returns tt, set_physicalDevice d s, []).
Proof.
  intros Hdevs Hpre Hd Hnull. unfold pickPhysicalDevice. rewrite Hdevs.
  destruct (length (pre ++ d :: post) =? 0)%nat eqn:Hlen.
  { apply Nat.eqb_eq in Hlen. rewrite length_app in Hlen. simpl in Hlen. lia. }
  rewrite (bind_of_returns _ _ _ _ _ _
             (pickPhysicalDevice_loop_first env pre post d s Hpre Hd)).
  unfold bind, get. simpl.
  destruct (Z.eqb_spec d VK_NULL_HANDLE) as [Heq|_]; [contradiction|reflexivity].
Qed.

Lemma pickPhysicalDevice_first_suitable_witness :
  pickPhysicalDevice single_family (app0 (0, mkExtent 0 0))
  = (Returns tt, set_physicalDevice 7 (app0 (0, mkExtent 0 0)), []).
Proof.
  apply (pickPhysicalDevice_first_suitable single_family _ [] [] 7).
  - reflexivity.
  - intros d' H. inversion H.
  - vm_compute. reflexivity.
  - discriminate.
Defined.

(** X6.  [pickPhysicalDevice] fails in two ways, each leaving the members
    untouched and producing no event: with "failed to find GPUs with Vulkan
    support!" when no device is enumerated, and with "failed to find a
    suitable GPU!" when devices are enumerated but [isDeviceSuitable] rejects
    every one of them. *)
Theorem pickPhysicalDevice_failures (env : Platform) (s : App) :
  (physicalDevices env = [] ->
   pickPhysicalDevice env s
   = (Throws (runtime_error "failed to find GPUs with Vulkan support!"), s, []))
  /\ (physicalDevices env <> [] ->
      (forall d, d ∈ physicalDevices env -> isDeviceSuitable env d = false) ->
      physicalDevice s = VK_NULL_HANDLE ->
      pickPhysicalDevice env s
      = (Throws (runtime_error "failed to find a suitable GPU!"), s, [])).
Proof.
  unfold pickPhysicalDevice. split.
  - intros ->. reflexivity.
  - intros Hne Hnone Hnull.
    destruct (length (physicalDevices env) =? 0)%nat eqn:Hlen.
    { apply Nat.eqb_eq, nil_length_inv in Hlen. contradiction. }
    rewrite (bind_of_returns _ _ _ _ _ _
               (pickPhysicalDevice_loop_none env _ s Hnone)).
    unfold bind, get. simpl. rewrite Hnull. reflexivity.
Qed.

(** ** The event loop *)

Lemma mainLoop_from_out_of_fuel (env : Platform) (fuel polls : nat) (s : App) :
  (forall j, (j < fuel)%nat -> closeRequested env (polls + j) = false) ->
  mainLoop_from env polls fuel s = (Stuck OutOfFuel, s, replicate fuel PollEvents).
Proof.
  revert polls. induction fuel as [|fuel IH]; intros polls Hopen; simpl.
  - reflexivity.
  - assert (Hp : closeRequested env polls = false).
    { rewrite <- (Hopen 0%nat) by lia. f_equal. lia. }
    rewrite Hp. simpl.
    assert (Hrec : mainLoop_from env (S polls) fuel s
                   = (Stuck OutOfFuel, s, replicate fuel PollEvents)).
    { apply IH. intros j Hj. rewrite <- (Hopen (S j)) by lia. f_equal. lia. }
    unfold bind, emit. rewrite Hrec. reflexivity.
Qed.

(** X7.  [mainLoop] polls events exactly as many times as it finds the close
    flag unset: when the flag is first set after [k] polls, the loop returns
    after exactly [k] calls of [glfwPollEvents], the members unchanged, and
    until then (with fuel for at most [k] evaluations of the condition) it is
    still running, having polled once per evaluation. *)
Theorem mainLoop_polls_until_close (env : Platform) (k : nat) (s : App) :
  closeRequested env k = true ->
  (forall j, (j < k)%nat -> closeRequested env j = false) ->
  (forall fuel, (k < fuel)%nat ->
     mainLoop env fuel s = (Returns tt, s, replicate k PollEvents))
  /\ (forall fuel, (fuel <= k)%nat ->
        mainLoop env fuel s = (Stuck OutOfFuel, s, replicate fuel PollEvents)).
Proof.
  intros Hclose Hopen. unfold mainLoop. split; intros fuel Hfuel.
  - apply mainLoop_from_returns; [exact Hclose | exact Hopen | exact Hfuel].
  - apply mainLoop_from_out_of_fuel. intros j Hj. apply Hopen. lia.
Qed.

Lemma mainLoop_polls_until_close_witness :
  (forall fuel, (2 < fuel)%nat ->
     mainLoop single_family fuel (app0 (0, mkExtent 0 0))
     = (Returns tt, app0 (0, mkExtent 0 0), replicate 2 PollEvents))
  /\ (forall fuel, (fuel <= 2)%nat ->
        mainLoop single_family fuel (app0 (0, mkExtent 0 0))
        = (Stuck OutOfFuel, app0 (0, mkExtent 0 0), replicate fuel PollEvents)).
Proof.
  apply (mainLoop_polls_until_close single_family 2).
  - reflexivity.
  - intros j Hj. destruct j as [|[|j]]; [reflexivity | reflexivity | lia].
Defined.

(** ** Shader files *)

(** X8.  When either shader file cannot be opened, [createGraphicsPipeline]
    throws "failed to open file!" before it creates anything: both files are
    read before the first shader module is created, so a missing fragment
    shader leaves no vertex shader module behind. *)
Theorem createGraphicsPipeline_missing_file (env : Platform) (s : App) :
  fileContents env "vert.spv" = None \/ fileContents env "frag.spv" = None ->
  createGraphicsPipeline env s
  = (Throws (runtime_error "failed to open file!"), s, []).
Proof.
  intros H. unfold createGraphicsPipeline, readFile, bind.
  destruct (fileContents env "vert.spv") as [vert|]; [|reflexivity].
  destruct H as [H|H]; [discriminate H|]. rewrite H. reflexivity.
Qed.

Lemma createGraphicsPipeline_missing_file_witness :
  createGraphicsPipeline no_fragment_shader (app0 (0, mkExtent 0 0))
  = (Throws (runtime_error "failed to open file!"), app0 (0, mkExtent 0 0), []).
Proof.
  apply (createGraphicsPipeline_missing_file no_fragment_shader).
  right. reflexivity.
Defined.

(** ** Logical device and swap chain *)

(** X9.  For a device with graphics family [g] and present family [p],
    [createLogicalDevice] hands [vkCreateDevice] one queue-create record for
    [g] and one for [p], each for one queue of priority 1.0 (two distinct
    families when [g] and [p] differ).  When the call succeeds the device is
    created and the function then retrieves queue 0 of [g] and queue 0 of
    [p], in this order, and returns; when it fails the function throws
    "failed to create logical device!" and retrieves no queue. *)
Theorem createLogicalDevice_queues (env : Platform) (s : App) (g p : nat) :
  findQueueFamilies env (physicalDevice s) = mkIndices (Some g) (Some p) ->
  exists ci,
    pQueueCreateInfos ci = [mkQueueCreateInfo g 1 1%Q; mkQueueCreateInfo p 1 1%Q]
    /\ (g <> p -> NoDup (map queueFamilyIndex (pQueueCreateInfos ci)))
    /\ (result env vkCreateDevice = VK_SUCCESS ->
        outcome_of (createLogicalDevice env s) = Returns tt
        /\ trace_of (createLogicalDevice env s)
           = [Call_vkCreateDevice ci; Create LogicalDevice;
              GetDeviceQueue g 0; GetDeviceQueue p 0])
    /\ (result env vkCreateDevice <> VK_SUCCESS ->
        outcome_of (createLogicalDevice env s)
        = Throws (runtime_error "failed to create logical device!")
        /\ trace_of (createLogicalDevice env s) = [Call_vkCreateDevice ci]).
Proof.
  intros H.
  exists (mkDeviceCreateInfo
            [mkQueueCreateInfo g 1 1%Q; mkQueueCreateInfo p 1 1%Q]
            (U32.wrap 2) deviceExtensions
            (if enableValidationLayers env then validationLayers else [])).
  split; [reflexivity|]. split; [|split].
  - intros Hne. simpl. apply NoDup_cons. split.
    + intros Hin. apply elem_of_cons in Hin as [Heq|Hin]; [congruence|inversion Hin].
    + apply NoDup_singleton.
  - intros Hr. unfold createLogicalDevice, bind, get, call. simpl.
    rewrite H. simpl. rewrite Hr. simpl. split; reflexivity.
  - intros Hr. unfold createLogicalDevice, bind, get, call. simpl.
    rewrite H. simpl.
    destruct (result env vkCreateDevice); [congruence | split; reflexivity..].
Qed.

Lemma createLogicalDevice_queues_witness :
  exists ci,
    pQueueCreateInfos ci = [mkQueueCreateInfo 1 1 1%Q; mkQueueCreateInfo 0 1 1%Q]
    /\ NoDup (map queueFamilyIndex (pQueueCreateInfos ci))
    /\ outcome_of (createLogicalDevice split_families
                     (set_physicalDevice 7 (app0 (0, mkExtent 0 0))))
       = Returns tt
    /\ trace_of (createLogicalDevice split_families
                   (set_physicalDevice 7 (app0 (0, mkExtent 0 0))))
       = [Call_vkCreateDevice ci; Create LogicalDevice;
          GetDeviceQueue 1 0; GetDeviceQueue 0 0].
Proof.
  destruct (createLogicalDevice_queues split_families
              (set_physicalDevice 7 (app0 (0, mkExtent 0 0))) 1 0 eq_refl)
    as (ci & Hci & Hdistinct & Hok & _).
  exists ci. split; [exact Hci|]. split; [apply Hdistinct; discriminate|].
  apply Hok. reflexivity.
Defined.

(** X10.  The create-info [createSwapChain] hands to [vkCreateSwapchainKHR]
    carries the image count, surface format, present mode and extent chosen
    from the device's swap chain support, and shares the images concurrently
    between the graphics and the present family exactly when the two differ
    (exclusive, with no family list, when they coincide). *)
Theorem createSwapChain_create_info (env : Platform) (s : App) (g p : nat)
    (f : VkSurfaceFormatKHR) :
  findQueueFamilies env (physicalDevice s) = mkIndices (Some g) (Some p) ->
  chooseSwapSurfaceFormat (surfaceFormats env (physicalDevice s)) = Some f ->
  exists ci rest,
    trace_of (createSwapChain env s) = Call_vkCreateSwapchainKHR ci :: rest
    /\ sci_minImageCount ci = imageCount (surfaceCapabilities env (physicalDevice s))
    /\ sci_imageFormat ci = format f
    /\ sci_imageColorSpace ci = colorSpace f
    /\ sci_presentMode ci
       = chooseSwapPresentMode (surfacePresentModes env (physicalDevice s))
    /\ sci_imageExtent ci
       = chooseSwapExtent (framebufferSize env)
           (surfaceCapabilities env (physicalDevice s))
    /\ ((g <> p /\ sci_imageSharingMode ci = VK_SHARING_MODE_CONCURRENT
         /\ sci_pQueueFamilyIndices ci = [g; p])
        \/ (g = p /\ sci_imageSharingMode ci = VK_SHARING_MODE_EXCLUSIVE
            /\ sci_pQueueFamilyIndices ci = [])).
Proof.
  intros Hgp Hf. unfold createSwapChain, bind, get, trace_of. simpl.
  rewrite Hf, Hgp. simpl. unfold call, bind.
  destruct (decide (g = p)) as [->|Hne].
  - rewrite bool_decide_eq_true_2 by reflexivity. simpl.
    destruct (result env vkCreateSwapchainKHR); simpl;
      eexists _, _; (split; [reflexivity|]); repeat (split; [reflexivity|]);
      right; repeat split; reflexivity.
  - rewrite bool_decide_eq_false_2 by congruence. simpl.
    destruct (result env vkCreateSwapchainKHR); simpl;
      eexists _, _; (split; [reflexivity|]); repeat (split; [reflexivity|]);
      left; repeat split; try reflexivity; exact Hne.
Qed.

Lemma createSwapChain_create_info_witness :
  exists ci rest,
    trace_of (createSwapChain split_families
                (set_physicalDevice 7 (app0 (0, mkExtent 0 0))))
    = Call_vkCreateSwapchainKHR ci :: rest
    /\ sci_minImageCount ci = 3
    /\ sci_imageSharingMode ci = VK_SHARING_MODE_CONCURRENT
    /\ sci_pQueueFamilyIndices ci = [1%nat; 0%nat].
Proof.
  destruct (createSwapChain_create_info split_families
              (set_physicalDevice 7 (app0 (0, mkExtent 0 0))) 1 0
              (mkSurfaceFormat 50 0) eq_refl eq_refl)
    as (ci & rest & Ht & Hn & _ & _ & _ & _ & Hshare).
  exists ci, rest. split; [exact Ht|]. split; [exact Hn|].
  destruct Hshare as [(_ & Hm & Hi)|(Heq & _)]; [split; assumption | discriminate Heq].
Defined.

(** ** Image views and framebuffers: the first failure *)

Lemma for_each_create_into_fails (env : Platform) (c : nat -> Call)
    (kind : nat -> Resource) (msg : string) (getv : App -> list (option nat))
    (setv : list (option nat) -> App -> App) (l1 l2 : list nat) (i : nat) (s : App) :
  (forall v s, getv (setv v s) = v) ->
  (forall v1 v2 s, setv v2 (setv v1 s) = setv v2 s) ->
  (forall s, setv (getv s) s = s) ->
  (forall j, j ∈ l1 -> result env (c j) = VK_SUCCESS) ->
  result env (c i) <> VK_SUCCESS ->
  for_each (l1 ++ i :: l2) (create_into env c kind msg getv setv) s
  = (Throws (runtime_error msg), setv (fill (getv s) l1) s,
     map (fun j => Create (kind j)) l1).
Proof.
  intros Hgs Hss Hsg Hok Hfail. revert s.
  induction l1 as [|j l1 IH]; intros s; simpl.
  - change (fill (getv s) []) with (getv s). rewrite Hsg.
    unfold bind, create_into, call, bind, throw_unless_success.
    destruct (result env (c i)); [congruence | reflexivity..].
  - assert (Hj : create_into env c kind msg getv setv j s
                 = (Returns tt, setv (<[ j := Some j ]> (getv s)) s,
                    [Create (kind j)])).
    { unfold create_into, call, bind, throw_unless_success.
      rewrite (Hok j) by apply list_elem_of_here. reflexivity. }
    rewrite (bind_of_returns _ _ _ _ _ _ Hj).
    rewrite IH by (intros x Hx; apply Hok, list_elem_of_further, Hx).
    unfold outcome_of, state_of, trace_of. simpl. rewrite Hgs, Hss. reflexivity.
Qed.

Lemma seq_split (n i : nat) :
  (i < n)%nat -> seq 0 n = seq 0 i ++ i :: seq (S i) (n - S i).
Proof.
  intros Hi. replace n with (i + S (n - S i))%nat at 1 by lia.
  rewrite seq_app. reflexivity.
Qed.

(** X11.  [createImageviews] stops at the first image view that cannot be
    created: when [vkCreateImageView] succeeds for the images before [i] and
    fails for image [i], it throws "failed to create image views!" having
    created exactly the views 0 .. i-1, which it leaves alive, and none after
    [i]. *)
Theorem createImageviews_first_failure (env : Platform) (s : App) (i : nat) :
  (i < length (swapChainImages s))%nat ->
  (forall j, (j < i)%nat -> result env (vkCreateImageView j) = VK_SUCCESS) ->
  result env (vkCreateImageView i) <> VK_SUCCESS ->
  outcome_of (createImageviews env s)
  = Throws (runtime_error "failed to create image views!")
  /\ trace_of (createImageviews env s)
     = map (fun j => Create (ImageView j)) (seq 0 i).
Proof.
  intros Hi Hok Hfail. unfold createImageviews, bind, get, modify. simpl.
  rewrite (seq_split _ i Hi).
  rewrite (for_each_create_into_fails env vkCreateImageView ImageView
             "failed to create image views!" swapChainImageViews
             set_swapChainImageViews _ _ i _ (fun _ _ => eq_refl)
             (fun _ _ _ => eq_refl) set_swapChainImageViews_id).
  - split; reflexivity.
  - intros j Hj. apply Hok. apply elem_of_seq in Hj. lia.
  - exact Hfail.
Qed.

Lemma createImageviews_first_failure_witness :
  outcome_of (createImageviews second_view_fails
                (set_swapChain [11; 12] 50 (mkExtent 800 600) (app0 (0, mkExtent 0 0))))
  = Throws (runtime_error "failed to create image views!")
  /\ trace_of (createImageviews second_view_fails
                 (set_swapChain [11; 12] 50 (mkExtent 800 600) (app0 (0, mkExtent 0 0))))
     = map (fun j => Create (ImageView j)) (seq 0 1).
Proof.
  apply (createImageviews_first_failure second_view_fails _ 1).
  - simpl. lia.
  - intros j Hj. destruct j as [|j]; [reflexivity | lia].
  - discriminate.
Defined.

(** X12.  [createFramebuffers] likewise stops at the first framebuffer that
    cannot be created, with "failed to create framebuffer!", having created
    exactly the framebuffers before it. *)
Theorem createFramebuffers_first_failure (env : Platform) (s : App) (i : nat) :
  (i < length (swapChainImageViews s))%nat ->
  (forall j, (j < i)%nat -> result env (vkCreateFramebuffer j) = VK_SUCCESS) ->
  result env (vkCreateFramebuffer i) <> VK_SUCCESS ->
  outcome_of (createFramebuffers env s)
  = Throws (runtime_error "failed to create framebuffer!")
  /\ trace_of (createFramebuffers env s)
     = map (fun j => Create (Framebuffer j)) (seq 0 i).
Proof.
  intros Hi Hok Hfail. unfold createFramebuffers, bind, get, modify. simpl.
  rewrite (seq_split _ i Hi).
  rewrite (for_each_create_into_fails env vkCreateFramebuffer Framebuffer
             "failed to create framebuffer!" swapChainFramebuffers
             set_swapChainFramebuffers _ _ i _ (fun _ _ => eq_refl)
             (fun _ _ _ => eq_refl) set_swapChainFramebuffers_id).
  - split; reflexivity.
  - intros j Hj. apply Hok. apply elem_of_seq in Hj. lia.
  - exact Hfail.
Qed.

Lemma createFramebuffers_first_failure_witness :
  outcome_of (createFramebuffers first_framebuffer_fails
                (set_swapChainImageViews [Some 0%nat; Some 1%nat]
                   (app0 (0, mkExtent 0 0))))
  = Throws (runtime_error "failed to create framebuffer!")
  /\ trace_of (createFramebuffers first_framebuffer_fails
                 (set_swapChainImageViews [Some 0%nat; Some 1%nat]
                    (app0 (0, mkExtent 0 0))))
     = map (fun j => Create (Framebuffer j)) (seq 0 0).
Proof.
  apply (createFramebuffers_first_failure first_framebuffer_fails _ 0).
  - simpl. lia.
  - intros j Hj. lia.
  - discriminate.
Defined.

(** ** What a computation can emit *)

Lemma bind_throws {A B} (m : M A) (k : A -> M B) (s s' : App) (e : exception)
    (t : list Event) :
  bind m k s = (Throws e, s', t) ->
  m s = (Throws e, s', t)
  \/ exists a s1 t1 t2,
       m s = (Returns a, s1, t1) /\ k a s1 = (Throws e, s', t2) /\ t = t1 ++ t2.
Proof.
  unfold bind. destruct (m s) as [[[a|e1|w] s1] t1].
  - destruct (k a s1) as [[o s2] t2] eqn:Hk. intros H. inversion H; subst.
    right. exists a, s1, t1, t2. split; [reflexivity|]. split; [exact Hk|reflexivity].
  - intros H. inversion H; subst. left. reflexivity.
  - discriminate.
Qed.

Section Emits.

Variable P : Event -> Prop.

Lemma emits_ret {A} (a : A) : emits_only P (ret a).
Proof. intros s. constructor. Qed.

Lemma emits_get : emits_only P get.
Proof. intros s. constructor. Qed.

Lemma emits_throw {A} (e : exception) : emits_only P (throw (A := A) e).
Proof. intros s. constructor. Qed.

Lemma emits_undefined {A} : emits_only P (undefined (A := A)).
Proof. intros s. constructor. Qed.

Lemma emits_modify (f : App -> App) : emits_only P (modify f).
Proof. intros s. constructor. Qed.

Lemma emits_value {A} (o : option A) : emits_only P (value o).
Proof. destruct o; [apply emits_ret | apply emits_throw]. Qed.

Lemma emits_emit (e : Event) : P e -> emits_only P (emit e).
Proof. intros He s. repeat constructor. exact He. Qed.

Lemma emits_bind {A B} (m : M A) (k : A -> M B) :
  emits_only P m -> (forall a, emits_only P (k a)) -> emits_only P (bind m k).
Proof.
  intros Hm Hk s. specialize (Hm s). unfold bind, trace_of in *.
  destruct (m s) as [[[a|e|w] s1] t1]; simpl in *; try exact Hm.
  specialize (Hk a s1). unfold trace_of in Hk.
  destruct (k a s1) as [[o s2] t2]; simpl in *.
  apply Forall_app. split; assumption.
Qed.

Lemma emits_for_each {A} (l : list A) (body : A -> M unit) :
  (forall x, emits_only P (body x)) -> emits_only P (for_each l body).
Proof.
  intros Hbody. induction l as [|x l IH]; simpl.
  - apply emits_ret.
  - apply emits_bind; [apply Hbody | intros _; exact IH].
Qed.

Lemma emits_call (env : Platform) (c : Call) (ev : Event) :
  P ev -> emits_only P (call env c ev).
Proof.
  intros Hev. unfold call. destruct (result env c); try apply emits_ret.
  apply emits_bind; [apply emits_emit, Hev | intros; apply emits_ret].
Qed.

Lemma emits_throw_unless_success (r : VkResult) (msg : string) :
  emits_only P (throw_unless_success r msg).
Proof.
  unfold throw_unless_success.
  destruct (negb (bool_decide (r = VK_SUCCESS))); [apply emits_throw | apply emits_ret].
Qed.

Lemma emits_pickPhysicalDevice_loop (env : Platform) (devices : list VkPhysicalDevice) :
  emits_only P (pickPhysicalDevice_loop env devices).
Proof.
  induction devices as [|d devices IH]; simpl.
  - apply emits_ret.
  - destruct (isDeviceSuitable env d); [apply emits_modify | exact IH].
Qed.

Lemma emits_mainLoop_from (env : Platform) (polls fuel : nat) :
  P PollEvents -> emits_only P (mainLoop_from env polls fuel).
Proof.
  intros HP. revert polls. induction fuel as [|fuel IH]; intros polls; simpl.
  - intros s. constructor.
  - destruct (negb (closeRequested env polls)); [|apply emits_ret].
    apply emits_bind; [apply emits_emit, HP | intros _; apply IH].
Qed.

End Emits.

Ltac emits_event :=
  simpl; first [ exact I | assumption | reflexivity | split; reflexivity ].

Ltac emits_step :=
  lazymatch goal with
  | |- emits_only _ (ret _) => apply emits_ret
  | |- emits_only _ get => apply emits_get
  | |- emits_only _ (throw _) => apply emits_throw
  | |- emits_only _ undefined => apply emits_undefined
  | |- emits_only _ (emit _) => apply emits_emit; emits_event
  | |- emits_only _ (modify _) => apply emits_modify
  | |- emits_only _ (value _) => apply emits_value
  | |- emits_only _ (call _ _ _) => apply emits_call; emits_event
  | |- emits_only _ (throw_unless_success _ _) =>
      apply emits_throw_unless_success
  | |- emits_only _ (pickPhysicalDevice_loop _ _) => apply emits_pickPhysicalDevice_loop
  | |- emits_only _ (for_each _ _) => apply emits_for_each; intros
  | |- emits_only _ (bind _ _) => apply emits_bind; [ | intros ? ]
  | |- emits_only _ (if ?b then _ else _) => destruct b eqn:?
  | |- emits_only _ (match ?x with _ => _ end) => destruct x eqn:?
  end.

Ltac emits := repeat emits_step.

Lemma initVulkan_emits (env : Platform) :
  emits_only (init_event env) (initVulkan env).
Proof.
  unfold initVulkan, printExtensions, createInstance, createSurface,
    pickPhysicalDevice, createLogicalDevice, createSwapChain, createImageviews,
    createRenderPass, createGraphicsPipeline, readFile, createShaderModule,
    createFramebuffers, createCommandPool, createCommandBuffers.
  apply emits_bind; [emits | intros _].
  apply emits_bind; [emits | intros _].
  apply emits_bind.
  { unfold setupDebugMessenger, CreateDebugUtilMessengerEXT.
    destruct (enableValidationLayers env) eqn:Hv; simpl; emits. }
  intros _. emits.
Qed.

Lemma init_event_run_event (env : Platform) (e : Event) :
  init_event env e -> run_event env e.
Proof.
  destruct e as [r|r| | | | | | | | | | | | | | | | |]; simpl; try tauto.
  destruct r; simpl; tauto.
Qed.

Lemma run_emits (env : Platform) (fuel : nat) :
  emits_only (run_event env) (run env fuel).
Proof.
  unfold run. apply emits_bind; [unfold initWindow; emits | intros _].
  apply emits_bind.
  { intros s. eapply Forall_impl; [apply initVulkan_emits|].
    apply init_event_run_event. }
  intros _. apply emits_bind.
  { apply emits_mainLoop_from. exact I. }
  intros _. unfold cleanup, DestroyDebugUtilsMessengerEXT, destroy.
  apply emits_bind; [emits | intros _].
  apply emits_bind; [emits | intros s].
  apply emits_bind; [emits | intros _].
  apply emits_bind; [emits | intros _].
  apply emits_bind; [emits | intros _].
  apply emits_bind; [emits | intros _].
  apply emits_bind; [emits | intros _].
  apply emits_bind; [emits | intros _].
  apply emits_bind; [emits | intros _].
  apply emits_bind.
  { destruct (enableValidationLayers env) eqn:Hv; emits. }
  intros _. emits.
Qed.

Lemma main_emits (env : Platform) (fuel : nat) (ind : VkFormat * VkExtent2D) :
  Forall (run_event env) (main env fuel ind).2.
Proof.
  pose proof (run_emits env fuel (app0 ind)) as H. unfold main, trace_of in *.
  destruct (run env fuel (app0 ind)) as [[[a|e|w] s'] t]; simpl in *; try exact H.
  apply Forall_app. split; [exact H | repeat constructor].
Qed.

(** X13.  Validation is touched only in a build that asks for it.  In a
    release build (NDEBUG) the process never creates nor destroys a debug
    messenger; in every build each device create-info names the swap chain
    extension, and names the validation layer exactly when validation is
    enabled. *)
Theorem validation_only_when_enabled (env : Platform) (fuel : nat)
    (ind : VkFormat * VkExtent2D) :
  (enableValidationLayers env = false ->
     (Create DebugMessenger ∉ (main env fuel ind).2)
     /\ (Destroy DebugMessenger ∉ (main env fuel ind).2))
  /\ (forall ci, Call_vkCreateDevice ci ∈ (main env fuel ind).2 ->
        ppEnabledLayerNames ci
        = (if enableValidationLayers env then validationLayers else [])
        /\ ppEnabledExtensionNames ci = deviceExtensions).
Proof.
  pose proof (main_emits env fuel ind) as H.
  rewrite Forall_forall in H. split.
  - intros Hoff. split; intros Hin; apply H in Hin; simpl in Hin; congruence.
  - intros ci Hin. apply H in Hin. exact Hin.
Qed.

Lemma mainLoop_from_never_throws (env : Platform) (fuel polls : nat) (s : App)
    (e : exception) :
  outcome_of (mainLoop_from env polls fuel s) <> Throws e.
Proof.
  revert polls. induction fuel as [|fuel IH]; intros polls; simpl.
  - discriminate.
  - destruct (closeRequested env polls); simpl; [discriminate|].
    unfold bind, emit. simpl. specialize (IH (S polls)).
    unfold outcome_of in *.
    destruct (mainLoop_from env (S polls) fuel s) as [[o s'] t]; simpl in *.
    exact IH.
Qed.

(** X14.  A run that throws never reaches [cleanup]: [main] reports the
    exception's message on stderr as its last action and exits with
    EXIT_FAILURE, the event loop was never entered, and nothing that was
    created is destroyed, the two shader modules of a finished
    [createGraphicsPipeline] apart. *)
Theorem failed_run_skips_cleanup (env : Platform) (fuel : nat)
    (ind : VkFormat * VkExtent2D) (e : exception) :
  outcome_of (run env fuel (app0 ind)) = Throws e ->
  main env fuel ind
  = (Some EXIT_FAILURE, trace_of (run env fuel (app0 ind)) ++ [Stderr (what e)])
  /\ (PollEvents ∉ trace_of (run env fuel (app0 ind)))
  /\ (forall r, Destroy r ∈ trace_of (run env fuel (app0 ind)) ->
        exists stage, r = ShaderModule stage).
Proof.
  intros Hthrow. split.
  { unfold main. unfold outcome_of in Hthrow. unfold trace_of.
    destruct (run env fuel (app0 ind)) as [[o s'] t]; simpl in *.
    subst o. reflexivity. }
  assert (Hall : Forall (init_event env) (trace_of (run env fuel (app0 ind)))).
  { unfold outcome_of in Hthrow. unfold trace_of.
    destruct (run env fuel (app0 ind)) as [[o s'] t] eqn:Hrun; simpl in *.
    subst o. unfold run in Hrun.
    apply bind_throws in Hrun as [H|(a1 & s1 & t1 & t2 & H1 & H & ->)];
      [discriminate H|].
    inversion H1; subst a1 s1 t1. clear H1.
    repeat (apply Forall_cons; split; [exact I|]). simpl.
    apply bind_throws in H as [H|(a2 & s2 & t3 & t4 & H2 & H & ->)].
    - pose proof (initVulkan_emits env (app0 ind)) as HV.
      rewrite H in HV. exact HV.
    - exfalso.
      apply bind_throws in H as [H|(a3 & s3 & t5 & t6 & H3 & H & ->)].
      + apply (mainLoop_from_never_throws env fuel 0 s2 e).
        unfold mainLoop in H. rewrite H. reflexivity.
      + rewrite cleanup_run in H. discriminate H. }
  rewrite Forall_forall in Hall. split.
  - intros Hin. apply Hall in Hin. exact Hin.
  - intros r Hin. apply Hall in Hin. destruct r; simpl in Hin; try contradiction.
    eexists. reflexivity.
Qed.

Lemma failed_run_skips_cleanup_witness :
  main swapchain_fails 5 (0, mkExtent 0 0)
  = (Some EXIT_FAILURE,
     trace_of (run swapchain_fails 5 (app0 (0, mkExtent 0 0)))
     ++ [Stderr (what (runtime_error "failed to create swap chain!"))])
  /\ (PollEvents ∉ trace_of (run swapchain_fails 5 (app0 (0, mkExtent 0 0))))
  /\ (forall r, Destroy r ∈ trace_of (run swapchain_fails 5 (app0 (0, mkExtent 0 0))) ->
        exists stage, r = ShaderModule stage).
Proof.
  apply (failed_run_skips_cleanup swapchain_fails 5 (0, mkExtent 0 0)
           (runtime_error "failed to create swap chain!")).
  vm_compute. reflexivity.
Defined.

Lemma run_never_writes_stderr (env : Platform) (fuel : nat) :
  emits_only (fun e => forall msg, e <> Stderr msg) (run env fuel).
Proof.
  unfold run, initWindow, initVulkan, printExtensions, createInstance,
    setupDebugMessenger, CreateDebugUtilMessengerEXT, createSurface,
    pickPhysicalDevice, createLogicalDevice, createSwapChain, createImageviews,
    createRenderPass, createGraphicsPipeline, readFile, createShaderModule,
    createFramebuffers, createCommandPool, createCommandBuffers, mainLoop,
    cleanup, DestroyDebugUtilsMessengerEXT, destroy.
  repeat first
    [ apply emits_mainLoop_from; intros; discriminate
    | apply emits_emit; intros; discriminate
    | apply emits_call; intros; discriminate
    | emits_step ].
Qed.

(** X15.  In a release build, where [debugCallback] is never registered,
    standard error is written by [main]'s exception handler and by nothing
    else: a message appears on stderr exactly when [run] throws, it is then
    the message of the exception thrown, and a process that exits with
    EXIT_SUCCESS or is still in its event loop has written none.  (In a debug
    build the validation layer's callback writes there as well.) *)
Theorem stderr_only_on_failure (env : Platform) (fuel : nat)
    (ind : VkFormat * VkExtent2D) (msg : string) :
  enableValidationLayers env = false ->
  Stderr msg ∈ (main env fuel ind).2
  <-> exists e, outcome_of (run env fuel (app0 ind)) = Throws e /\ msg = what e.
Proof.
  intros _.
  pose proof (run_never_writes_stderr env fuel (app0 ind)) as H.
  rewrite Forall_forall in H. unfold main, outcome_of, trace_of in *.
  destruct (run env fuel (app0 ind)) as [[[a|e|w] s'] t]; simpl in *.
  - split.
    + intros Hin. exfalso. exact (H _ Hin msg eq_refl).
    + intros (e & He & _). discriminate He.
  - split.
    + intros Hin. apply elem_of_app in Hin as [Hin|Hin].
      * exfalso. exact (H _ Hin msg eq_refl).
      * apply list_elem_of_singleton in Hin. inversion Hin; subst.
        exists e. split; reflexivity.
    + intros (e' & He & ->). inversion He; subst.
      apply elem_of_app. right. apply list_elem_of_here.
  - split.
    + intros Hin. exfalso. exact (H _ Hin msg eq_refl).
    + intros (e & He & _). discriminate He.
Qed.

Lemma stderr_only_on_failure_witness :
  Stderr "failed to create swap chain!"
    ∈ (main swapchain_fails 5 (0, mkExtent 0 0)).2
  <-> exists e,
        outcome_of (run swapchain_fails 5 (app0 (0, mkExtent 0 0))) = Throws e
        /\ "failed to create swap chain!" = what e.
Proof.
  apply (stderr_only_on_failure swapchain_fails 5 (0, mkExtent 0 0)).
  reflexivity.
Defined.

(** ** A run on which nothing goes wrong *)

Lemma returns_keeping_bind (m k : M unit) (s : App) :
  returns_keeping m s ->
  (forall s1, physicalDevice s1 = physicalDevice s -> returns_keeping k s1) ->
  returns_keeping (m ;;; k) s.
Proof.
  intros (s1 & t1 & Hm & Hs1) Hk.
  destruct (Hk s1 Hs1) as (s2 & t2 & Hk2 & Hs2).
  exists s2, (t1 ++ t2). split; [|congruence].
  unfold bind. rewrite Hm, Hk2. reflexivity.
Qed.

Lemma returns_keeping_get (k : App -> M unit) (s : App) :
  returns_keeping (k s) s -> returns_keeping (s0 <- get ;; k s0) s.
Proof.
  intros (s' & t & H & Hs). exists s', t. split; [|exact Hs].
  unfold bind, get. rewrite H. reflexivity.
Qed.

Lemma returns_keeping_modify (f : App -> App) (s : App) :
  physicalDevice (f s) = physicalDevice s -> returns_keeping (modify f) s.
Proof. intros H. exists (f s), []. split; [reflexivity | exact H]. Qed.

Lemma returns_keeping_emit (e : Event) (s : App) : returns_keeping (emit e) s.
Proof. exists s, [e]. split; reflexivity. Qed.

Lemma returns_keeping_for_each {A} (l : list A) (body : A -> M unit) :
  (forall x s, returns_keeping (body x) s) ->
  forall s, returns_keeping (for_each l body) s.
Proof.
  intros Hbody. induction l as [|x l IH]; intros s; simpl.
  - exists s, []. split; reflexivity.
  - apply returns_keeping_bind; [apply Hbody | intros s1 _; apply IH].
Qed.

Lemma mainLoop_from_closes (env : Platform) (k polls fuel : nat) (s : App) :
  closeRequested env (polls + k) = true ->
  (k < fuel)%nat ->
  exists j, mainLoop_from env polls fuel s = (Returns tt, s, replicate j PollEvents).
Proof.
  revert polls fuel. induction k as [|k IH]; intros polls fuel Hclose Hfuel;
    (destruct fuel as [|fuel]; [lia|]); simpl.
  - rewrite Nat.add_0_r in Hclose. rewrite Hclose. exists 0%nat. reflexivity.
  - destruct (closeRequested env polls); simpl; [exists 0%nat; reflexivity|].
    destruct (IH (S polls) fuel) as (j & Hj); [|lia|].
    { rewrite <- Hclose. f_equal. lia. }
    exists (S j). unfold bind, emit. rewrite Hj. reflexivity.
Qed.

Section Healthy.

Variable env : Platform.
Hypothesis Hres : forall c, result env c = VK_SUCCESS.

Lemma checked_call_succeeds (c : Call) (ev : Event) (msg : string) (s : App) :
  returns_keeping (r <- call env c ev ;; throw_unless_success r msg) s.
Proof.
  exists s, [ev]. split; [|reflexivity].
  unfold bind, call. rewrite Hres. reflexivity.
Qed.

Lemma createLogicalDevice_succeeds (s : App) :
  isDeviceSuitable env (physicalDevice s) = true ->
  returns_keeping (createLogicalDevice env) s.
Proof.
  intros Hd. apply isDeviceSuitable_complete in Hd. unfold isComplete in Hd.
  unfold returns_keeping, createLogicalDevice, bind, get, call. simpl.
  destruct (findQueueFamilies env (physicalDevice s)) as [[g|] [p|]];
    try discriminate Hd.
  simpl. rewrite Hres. simpl. eexists _, _. split; reflexivity.
Qed.

Lemma createSwapChain_succeeds (s : App) :
  isDeviceSuitable env (physicalDevice s) = true ->
  returns_keeping (createSwapChain env) s.
Proof.
  intros Hd. pose proof (isDeviceSuitable_complete _ _ Hd) as Hc.
  unfold isComplete in Hc. unfold isDeviceSuitable in Hd.
  apply andb_true_iff in Hd as [_ Hd].
  destruct (checkDeviceExtensionSupport env (physicalDevice s)); [|discriminate Hd].
  apply andb_true_iff in Hd as [Hf _]. simpl in Hf.
  unfold returns_keeping, createSwapChain, bind, get, call. simpl.
  destruct (surfaceFormats env (physicalDevice s)) as [|f0 fs] eqn:Hfs;
    [discriminate Hf|].
  assert (exists f, chooseSwapSurfaceFormat (f0 :: fs) = Some f) as (f & Hff).
  { unfold chooseSwapSurfaceFormat.
    destruct (chooseSwapSurfaceFormat_loop (f0 :: fs)); eexists; reflexivity. }
  rewrite Hff. simpl.
  destruct (findQueueFamilies env (physicalDevice s)) as [[g|] [p|]];
    try discriminate Hc.
  simpl. rewrite Hres. simpl. eexists _, _. split; reflexivity.
Qed.

Lemma returns_keeping_call (c : Call) (ev : Event) (k : VkResult -> M unit)
    (s : App) :
  returns_keeping (k VK_SUCCESS) s ->
  returns_keeping (r <- call env c ev ;; k r) s.
Proof.
  intros (s' & t & H & Hs). exists s', (ev :: t). split; [|exact Hs].
  unfold bind, call. rewrite Hres. simpl. rewrite H. reflexivity.
Qed.

Lemma returns_keeping_checked (msg : string) (k : M unit) (s : App) :
  returns_keeping k s ->
  returns_keeping (throw_unless_success VK_SUCCESS msg ;;; k) s.
Proof.
  intros (s' & t & H & Hs). exists s', t. split; [|exact Hs].
  unfold bind, throw_unless_success. simpl. rewrite H. reflexivity.
Qed.

Lemma createImageviews_succeeds (s : App) :
  returns_keeping (createImageviews env) s.
Proof.
  unfold createImageviews. apply returns_keeping_get.
  apply returns_keeping_bind; [apply returns_keeping_modify; reflexivity|].
  intros s1 _. apply returns_keeping_for_each. intros i s0.
  apply returns_keeping_call, returns_keeping_checked, returns_keeping_modify.
  reflexivity.
Qed.

Lemma createGraphicsPipeline_succeeds (s : App) :
  (exists vert, fileContents env "vert.spv" = Some vert) ->
  (exists frag, fileContents env "frag.spv" = Some frag) ->
  returns_keeping (createGraphicsPipeline env) s.
Proof.
  intros (vert & Hvert) (frag & Hfrag).
  unfold returns_keeping, createGraphicsPipeline, readFile, createShaderModule,
    bind, call.
  rewrite Hvert, Hfrag. simpl. rewrite !Hres. simpl.
  eexists _, _. split; reflexivity.
Qed.

Lemma createFramebuffers_succeeds (s : App) :
  returns_keeping (createFramebuffers env) s.
Proof.
  unfold createFramebuffers. apply returns_keeping_get.
  apply returns_keeping_bind; [apply returns_keeping_modify; reflexivity|].
  intros s1 _. apply returns_keeping_for_each. intros i s0.
  apply returns_keeping_call, returns_keeping_checked, returns_keeping_modify.
  reflexivity.
Qed.

Lemma createCommandPool_succeeds (s : App) :
  isDeviceSuitable env (physicalDevice s) = true ->
  returns_keeping (createCommandPool env) s.
Proof.
  intros Hd. apply isDeviceSuitable_complete in Hd. unfold isComplete in Hd.
  unfold returns_keeping, createCommandPool, bind, get, call. simpl.
  destruct (findQueueFamilies env (physicalDevice s)) as [[g|] [p|]];
    try discriminate Hd.
  simpl. rewrite Hres. simpl. eexists _, _. split; reflexivity.
Qed.

Lemma createCommandBuffers_succeeds (s : App) :
  returns_keeping (createCommandBuffers env) s.
Proof.
  unfold createCommandBuffers. apply returns_keeping_get.
  apply returns_keeping_bind; [apply returns_keeping_modify; reflexivity|].
  intros s1 _. apply returns_keeping_call, returns_keeping_checked.
  apply returns_keeping_bind; [apply returns_keeping_modify; reflexivity|].
  intros s2 _. apply returns_keeping_for_each. intros i s0.
  apply returns_keeping_call, returns_keeping_checked, returns_keeping_get.
  repeat (apply returns_keeping_bind; [apply returns_keeping_emit | intros ? _]).
  apply returns_keeping_call.
  eexists _, []. split; reflexivity.
Qed.

Lemma createInstance_succeeds (s : App) :
  (enableValidationLayers env = true -> checkValidationLayerSupport env = true) ->
  returns_keeping (createInstance env) s.
Proof.
  intros Hval. unfold createInstance.
  destruct (enableValidationLayers env); simpl.
  - rewrite Hval by reflexivity. simpl. apply checked_call_succeeds.
  - apply checked_call_succeeds.
Qed.

Lemma setupDebugMessenger_succeeds (s : App) :
  (enableValidationLayers env = true ->
   procAddr env "vkCreateDebugUtilsMessengerEXT" = true) ->
  returns_keeping (setupDebugMessenger env) s.
Proof.
  intros Hval. unfold setupDebugMessenger, CreateDebugUtilMessengerEXT.
  destruct (enableValidationLayers env); simpl.
  - rewrite Hval by reflexivity. apply checked_call_succeeds.
  - exists s, []. split; reflexivity.
Qed.

Lemma device_objects_succeed (s : App) :
  isDeviceSuitable env (physicalDevice s) = true ->
  (exists vert, fileContents env "vert.spv" = Some vert) ->
  (exists frag, fileContents env "frag.spv" = Some frag) ->
  returns_keeping
    (createLogicalDevice env ;;; createSwapChain env ;;; createImageviews env ;;;
     createRenderPass env ;;; createGraphicsPipeline env ;;;
     createFramebuffers env ;;; createCommandPool env ;;;
     createCommandBuffers env) s.
Proof.
  intros Hd Hvert Hfrag.
  apply returns_keeping_bind; [apply createLogicalDevice_succeeds, Hd|].
  intros s1 H1. rewrite <- H1 in Hd.
  apply returns_keeping_bind; [apply createSwapChain_succeeds, Hd|].
  intros s2 H2. rewrite <- H2 in Hd.
  apply returns_keeping_bind; [apply createImageviews_succeeds|].
  intros s3 H3. rewrite <- H3 in Hd.
  apply returns_keeping_bind; [apply checked_call_succeeds|].
  intros s4 H4. rewrite <- H4 in Hd.
  apply returns_keeping_bind;
    [apply createGraphicsPipeline_succeeds; assumption|].
  intros s5 H5. rewrite <- H5 in Hd.
  apply returns_keeping_bind; [apply createFramebuffers_succeeds|].
  intros s6 H6. rewrite <- H6 in Hd.
  apply returns_keeping_bind; [apply createCommandPool_succeeds, Hd|].
  intros s7 H7. apply createCommandBuffers_succeeds.
Qed.

End Healthy.

Lemma returns_then (m k : M unit) (s : App) :
  returns_keeping m s ->
  (forall s1, exists s2 t2, k s1 = (Returns tt, s2, t2)) ->
  exists s2 t, (m ;;; k) s = (Returns tt, s2, t).
Proof.
  intros (s1 & t1 & Hm & _) Hk. destruct (Hk s1) as (s2 & t2 & Hk2).
  exists s2, (t1 ++ t2). unfold bind. rewrite Hm, Hk2. reflexivity.
Qed.

Lemma initVulkan_succeeds (env : Platform) (s : App) :
  healthy env -> exists s' t, initVulkan env s = (Returns tt, s', t).
Proof.
  intros (Hfit & Hval & Hres & (pre & d & post & Hdev & Hpre & Hd & Hnull)
          & Hvert & Hfrag & _).
  unfold initVulkan.
  apply returns_then.
  { exists s. eexists. split; [apply printExtensions_run, Hfit | reflexivity]. }
  intros s1. apply returns_then.
  { apply createInstance_succeeds; [exact Hres | intros Hv; apply Hval, Hv]. }
  intros s2. apply returns_then.
  { apply setupDebugMessenger_succeeds; [exact Hres | intros Hv; apply Hval, Hv]. }
  intros s3. apply returns_then.
  { apply checked_call_succeeds, Hres. }
  intros s4.
  assert (Hpick : pickPhysicalDevice env s4
                  = (Returns tt, set_physicalDevice d s4, [])).
  { unfold pickPhysicalDevice. rewrite Hdev.
    destruct (length (pre ++ d :: post) =? 0)%nat eqn:Hlen.
    { apply Nat.eqb_eq in Hlen. rewrite length_app in Hlen. simpl in Hlen. lia. }
    rewrite (bind_of_returns _ _ _ _ _ _
               (pickPhysicalDevice_loop_first env pre post d s4 Hpre Hd)).
    unfold bind, get. simpl.
    destruct (Z.eqb_spec d VK_NULL_HANDLE) as [Heq|_]; [contradiction|reflexivity]. }
  destruct (device_objects_succeed env Hres (set_physicalDevice d s4) Hd Hvert Hfrag)
    as (s' & t & Hrest & _).
  exists s', t. unfold bind at 1. rewrite Hpick.
  rewrite Hrest. reflexivity.
Qed.

(** X16.  On a healthy platform the program runs to completion: at most 32
    instance extensions are enumerated, so that [printExtensions] stays
    within its array; validation, when the build asks for it, is installed
    and its messenger entry point resolves; every checked call succeeds; the
    first suitable GPU is not the null handle; both shader files open; and
    the window is closed at some point.  Then, given enough steps for the
    event loop to see the window close, [main] exits with EXIT_SUCCESS. *)
Theorem healthy_run_succeeds (env : Platform) (ind : VkFormat * VkExtent2D) :
  healthy env ->
  exists k, forall fuel, (k < fuel)%nat ->
    (main env fuel ind).1 = Some EXIT_SUCCESS.
Proof.
  intros Hh. pose proof Hh as (_ & _ & _ & _ & _ & _ & (k & Hk)).
  exists k. intros fuel Hfuel.
  destruct (initVulkan_succeeds env (app0 ind) Hh) as (s1 & t1 & HV).
  destruct (mainLoop_from_closes env k 0 fuel s1 Hk Hfuel) as (j & Hloop).
  unfold main, run, bind, initWindow, emit, mainLoop. simpl.
  rewrite HV, Hloop, cleanup_run. reflexivity.
Qed.

Lemma healthy_run_succeeds_witness :
  exists k, forall fuel, (k < fuel)%nat ->
    (main validating fuel (0, mkExtent 0 0)).1 = Some EXIT_SUCCESS.
Proof.
  apply (healthy_run_succeeds validating (0, mkExtent 0 0)).
  split; [simpl; lia|].
  split; [intros _; split; vm_compute; reflexivity|].
  split; [intros c; reflexivity|].
  split.
  { exists [], 7, []. split; [reflexivity|]. split; [intros d' H; inversion H|].
    split; [vm_compute; reflexivity | discriminate]. }
  split; [exists []; reflexivity|].
  split; [exists []; reflexivity|].
  exists 2%nat. reflexivity.
Defined.

(** ** The members after initialisation *)

Lemma createSwapChain_members (env : Platform) (s s' : App) (t : list Event)
    (a : unit) :
  createSwapChain env s = (Returns a, s', t) ->
  exists f,
    chooseSwapSurfaceFormat (surfaceFormats env (physicalDevice s)) = Some f
    /\ s' = set_swapChain (swapchainImages env) (format f)
              (chooseSwapExtent (framebufferSize env)
                 (surfaceCapabilities env (physicalDevice s))) s.
Proof.
  unfold createSwapChain. intros H. unfold_monad H.
  destruct (chooseSwapSurfaceFormat (surfaceFormats env (physicalDevice s)))
    as [f|]; simpl in H; [|discriminate H].
  destruct (findQueueFamilies env (physicalDevice s)) as [[g|] [p|]];
    simpl in H; try discriminate H.
  destruct (result env vkCreateSwapchainKHR); simpl in H; try discriminate H.
  inversion H; subst. exists f. split; reflexivity.
Qed.

(** X17.  When [initVulkan] returns on a freshly constructed application, the
    members are consistent with one another: the selected physical device is
    suitable; the swap chain members hold the platform's images, the chosen
    surface format and the chosen extent for that device; and there is
    exactly one image view, one framebuffer and one command buffer per swap
    chain image, none of them a null handle. *)
Theorem initVulkan_members (env : Platform) (ind : VkFormat * VkExtent2D)
    (s' : App) (t : list Event) (a : unit) :
  initVulkan env (app0 ind) = (Returns a, s', t) ->
  let n := length (swapchainImages env) in
  isDeviceSuitable env (physicalDevice s') = true
  /\ swapChainImages s' = swapchainImages env
  /\ (exists f,
        chooseSwapSurfaceFormat (surfaceFormats env (physicalDevice s')) = Some f
        /\ swapChainImageFormat s' = format f)
  /\ swapChainExtent s'
     = chooseSwapExtent (framebufferSize env)
         (surfaceCapabilities env (physicalDevice s'))
  /\ swapChainImageViews s' = map Some (seq 0 n)
  /\ swapChainFramebuffers s' = map Some (seq 0 n)
  /\ commandBuffers s' = map Some (seq 0 n).
Proof.
  intros H n. pose proof (initVulkan_returns env ind s' t a H) as (Hfb & Hiv & _).
  fold n in Hfb, Hiv. unfold initVulkan in H.
  apply bind_returns in H as (a1 & s1 & t1 & r1 & H1 & H & ->).
  apply printExtensions_returns in H1 as (_ & -> & ->).
  apply bind_returns in H as (a2 & s2 & t2 & r2 & H2 & H & ->).
  apply createInstance_returns in H2 as [-> ->].
  apply bind_returns in H as (a3 & s3 & t3 & r3 & H3 & H & ->).
  apply setupDebugMessenger_returns in H3 as [-> ->].
  apply bind_returns in H as (a4 & s4 & t4 & r4 & H4 & H & ->).
  apply createSurface_returns in H4 as [-> ->].
  apply bind_returns in H as (a5 & s5 & t5 & r5 & H5 & H & ->).
  assert (Hsuit : isDeviceSuitable env (physicalDevice s5) = true).
  { destruct (pickPhysicalDevice_spec env (app0 ind) eq_refl) as (_ & Hret & _).
    specialize (Hret a5). rewrite H5 in Hret. apply Hret. reflexivity. }
  apply pickPhysicalDevice_returns in H5 as [Hs5 ->].
  apply bind_returns in H as (a6 & s6 & t6 & r6 & H6 & H & ->).
  apply createLogicalDevice_returns in H6 as [-> _].
  apply bind_returns in H as (a7 & s7 & t7 & r7 & H7 & H & ->).
  apply createSwapChain_members in H7 as (f & Hf & Hs7).
  apply bind_returns in H as (a8 & s8 & t8 & r8 & H8 & H & ->).
  apply createImageviews_returns in H8 as [Hs8 ->].
  apply bind_returns in H as (a9 & s9 & t9 & r9 & H9 & H & ->).
  apply createRenderPass_returns in H9 as [-> ->].
  apply bind_returns in H as (a10 & s10 & t10 & r10 & H10 & H & ->).
  apply createGraphicsPipeline_returns in H10 as [-> ->].
  apply bind_returns in H as (a11 & s11 & t11 & r11 & H11 & H & ->).
  apply createFramebuffers_returns in H11 as [Hs11 ->].
  apply bind_returns in H as (a12 & s12 & t12 & r12 & H12 & H & ->).
  apply createCommandPool_returns in H12 as [-> ->].
  apply createCommandBuffers_returns in H as [Hs' _].
  assert (Hn : length (swapChainFramebuffers s11) = n).
  { assert (Heq : swapChainFramebuffers s11 = map Some (seq 0 n))
      by (rewrite <- Hfb, Hs'; reflexivity).
    rewrite Heq, length_map, length_seq. reflexivity. }
  rewrite Hn in Hs'.
  assert (Hdev : physicalDevice s' = physicalDevice s5).
  { rewrite Hs', Hs11, Hs8, Hs7. reflexivity. }
  rewrite Hdev.
  split; [exact Hsuit|].
  split; [rewrite Hs', Hs11, Hs8, Hs7; reflexivity|].
  split; [exists f; split; [exact Hf | rewrite Hs', Hs11, Hs8, Hs7; reflexivity]|].
  split; [rewrite Hs', Hs11, Hs8, Hs7; reflexivity|].
  split; [exact Hiv|]. split; [exact Hfb|].
  rewrite Hs'. reflexivity.
Qed.

Lemma initVulkan_members_witness :
  let r := initVulkan single_family (app0 (0, mkExtent 0 0)) in
  isDeviceSuitable single_family (physicalDevice (state_of r)) = true
  /\ swapChainImages (state_of r) = swapchainImages single_family
  /\ commandBuffers (state_of r) = map Some (seq 0 2).
Proof.
  intros r.
  destruct (initVulkan_members single_family (0, mkExtent 0 0)
              (state_of r) (trace_of r) tt)
    as (Hsuit & Himg & _ & _ & _ & _ & Hcb).
  - vm_compute. reflexivity.
  - split; [exact Hsuit|]. split; [exact Himg | exact Hcb].
Defined.

(** ** The debug messenger *)

(** X18.  In a debug build with the validation layer installed and an
    instance that can be created, a debug messenger that cannot be set up
    stops the program right after the instance: when the entry point
    vkCreateDebugUtilsMessengerEXT does not resolve
    ([CreateDebugUtilMessengerEXT] then answers VK_ERROR_EXTENSION_NOT_PRESENT
    without calling anything) or the call fails, [main] writes "failed to set
    up debug messenger!" to the error stream and returns EXIT_FAILURE; no
    messenger, surface or device was created, and the instance is not
    destroyed.  (At most 32 instance extensions, for [printExtensions].) *)
Theorem debug_messenger_setup_failure (env : Platform) :
  enableValidationLayers env = true ->
  checkValidationLayerSupport env = true ->
  (length (instanceExtensions env) <= 32)%nat ->
  result env vkCreateInstance = VK_SUCCESS ->
  procAddr env "vkCreateDebugUtilsMessengerEXT" = false
  \/ result env vkCreateDebugUtilsMessengerEXT <> VK_SUCCESS ->
  forall fuel ind,
    main env fuel ind
    = (Some EXIT_FAILURE,
       [Create GlfwLibrary; Create Window]
       ++ StdoutExtensionCount (length (instanceExtensions env))
          :: map (fun extension => StdoutExtension extension.1 extension.2)
                 (take 32 (instanceExtensions env))
       ++ [Create Instance; Stderr "failed to set up debug messenger!"]).
Proof.
  intros Hen Hcheck Hfit Hinst Hfail fuel ind.
  assert (Hci : forall s, createInstance env s = (Returns tt, s, [Create Instance])).
  { intros s. unfold createInstance, bind, call, throw_unless_success.
    rewrite Hen, Hcheck, Hinst. reflexivity. }
  assert (Hdm : forall s,
    setupDebugMessenger env s
    = (Throws (runtime_error "failed to set up debug messenger!"), s, [])).
  { intros s.
    unfold setupDebugMessenger, CreateDebugUtilMessengerEXT, bind, call,
      throw_unless_success.
    rewrite Hen. simpl.
    destruct (procAddr env "vkCreateDebugUtilsMessengerEXT").
    - destruct Hfail as [Hfail|Hfail]; [discriminate Hfail|].
      destruct (result env vkCreateDebugUtilsMessengerEXT);
        [contradiction | reflexivity..].
    - reflexivity. }
  assert (Hinit : initVulkan env (app0 ind)
    = (Throws (runtime_error "failed to set up debug messenger!"), app0 ind,
       (StdoutExtensionCount (length (instanceExtensions env))
        :: map (fun extension => StdoutExtension extension.1 extension.2)
               (take 32 (instanceExtensions env)))
       ++ [Create Instance])).
  { unfold initVulkan.
    erewrite bind_of_returns by (apply printExtensions_run, Hfit).
    erewrite bind_of_returns by apply Hci.
    erewrite bind_of_throws by apply Hdm. reflexivity. }
  unfold main, run.
  erewrite bind_of_returns by reflexivity.
  erewrite bind_of_throws by exact Hinit. simpl.
  rewrite <- app_assoc. reflexivity.
Qed.

Lemma debug_messenger_setup_failure_witness :
  main messenger_entry_missing 5 (0, mkExtent 0 0)
  = (Some EXIT_FAILURE,
     [Create GlfwLibrary; Create Window; StdoutExtensionCount 1;
      StdoutExtension "VK_KHR_surface" 25; Create Instance;
      Stderr "failed to set up debug messenger!"]).
Proof.
  apply (debug_messenger_setup_failure messenger_entry_missing).
  - reflexivity.
  - reflexivity.
  - simpl. lia.
  - reflexivity.
  - left. reflexivity.
Defined.

(** X19.  A debug messenger that was created is destroyed by [cleanup] only
    if the entry point vkDestroyDebugUtilsMessengerEXT resolves: in a
    complete run with validation enabled on a platform where it does not,
    the messenger is created and never destroyed. *)
Theorem debug_messenger_leak (env : Platform) (fuel : nat)
    (ind : VkFormat * VkExtent2D) (s' : App) (t : list Event) :
  enableValidationLayers env = true ->
  procAddr env "vkDestroyDebugUtilsMessengerEXT" = false ->
  run env fuel (app0 ind) = (Returns tt, s', t) ->
  Create DebugMessenger ∈ t /\ (Destroy DebugMessenger ∉ t).
Proof.
  intros Hv Hp Hrun.
  apply run_returns in Hrun as (_ & ciD & g & p & ciS & k & ->).
  unfold before_device, instance_creation, device_creation, after_device,
    device_objects, cleanup_trace, cleanup_device_objects,
    cleanup_instance_objects.
  rewrite Hv, Hp. simpl. split.
  - elem_search.
  - intros Hin. elem_cases Hin.
    apply recording_lifeless in Hin as [_ Hin]. exact (Hin _ eq_refl).
Qed.

Lemma debug_messenger_leak_witness :
  Create DebugMessenger
    ∈ trace_of (run destroy_entry_missing 5 (app0 (0, mkExtent 0 0)))
  /\ (Destroy DebugMessenger
        ∉ trace_of (run destroy_entry_missing 5 (app0 (0, mkExtent 0 0)))).
Proof.
  apply (debug_messenger_leak destroy_entry_missing 5 (0, mkExtent 0 0)
           (state_of (run destroy_entry_missing 5 (app0 (0, mkExtent 0 0))))).
  - reflexivity.
  - reflexivity.
  - vm_compute. reflexivity.
Defined.

(** X20.  A complete run leaks nothing else: every object it creates it also
    destroys, and it destroys nothing it did not create.  (For the debug
    messenger this needs the entry point vkDestroyDebugUtilsMessengerEXT to
    resolve.) *)
Theorem complete_run_balanced (env : Platform) (fuel : nat)
    (ind : VkFormat * VkExtent2D) (s' : App) (t : list Event) (r : Resource) :
  run env fuel (app0 ind) = (Returns tt, s', t) ->
  (r = DebugMessenger -> procAddr env "vkDestroyDebugUtilsMessengerEXT" = true) ->
  Create r ∈ t <-> Destroy r ∈ t.
Proof.
  intros Hrun Hproc.
  apply run_returns in Hrun as (_ & ciD & g & p & ciS & k & ->).
  unfold before_device, instance_creation, device_creation, after_device,
    device_objects, cleanup_trace, cleanup_device_objects,
    cleanup_instance_objects.
  destruct r; try (rewrite Hproc by reflexivity; rewrite andb_true_r).
  all: split; intros Hin; elem_cases Hin;
    try (apply recording_lifeless in Hin as [Hc Hd];
         first [ exact (False_ind _ (Hc _ eq_refl))
               | exact (False_ind _ (Hd _ eq_refl)) ]);
    try (inversion Hin; subst); simpl; try elem_search.
Qed.

Lemma complete_run_balanced_witness :
  Create (ImageView 1) ∈ trace_of (run single_family 5 (app0 (0, mkExtent 0 0)))
  <-> Destroy (ImageView 1) ∈ trace_of (run single_family 5 (app0 (0, mkExtent 0 0))).
Proof.
  apply (complete_run_balanced single_family 5 (0, mkExtent 0 0)
           (state_of (run single_family 5 (app0 (0, mkExtent 0 0))))).
  - vm_compute. reflexivity.
  - discriminate.
Defined.

(** ** Command buffer recording *)

Lemma recording_elem (framebuffers : list (option nat)) (l : list nat) (e : Event) :
  e ∈ concat (map (record_one framebuffers) l)
  <-> exists i, i ∈ l /\ e ∈ record_one framebuffers i.
Proof.
  induction l as [|j l IH].
  - simpl. split; [intros H; inversion H | intros (i & Hi & _); inversion Hi].
  - change (concat (map (record_one framebuffers) (j :: l)))
      with (record_one framebuffers j ++ concat (map (record_one framebuffers) l)).
    rewrite elem_of_app, IH. split.
    + intros [H|(i & Hi & H)].
      * exists j. split; [apply list_elem_of_here | exact H].
      * exists i. split; [apply list_elem_of_further, Hi | exact H].
    + intros (i & Hi & H). apply elem_of_cons in Hi as [->|Hi].
      * left. exact H.
      * right. exists i. split; assumption.
Qed.

Lemma draws_app (t1 t2 : list Event) : draws (t1 ++ t2) = draws t1 ++ draws t2.
Proof. unfold draws. apply List.filter_app. Qed.

Lemma draws_recording (framebuffers : list (option nat)) (l : list nat) :
  draws (concat (map (record_one framebuffers) l))
  = map (fun i => CmdDraw i 3 1 0 0) l.
Proof.
  induction l as [|i l IH]; [reflexivity|].
  change (concat (map (record_one framebuffers) (i :: l)))
    with (record_one framebuffers i ++ concat (map (record_one framebuffers) l)).
  rewrite draws_app, IH. reflexivity.
Qed.

(** X21.  When [createCommandBuffers] returns, there is one command buffer
    per framebuffer, and what was recorded is, buffer after buffer in index
    order, exactly: begin the buffer, begin a render pass on framebuffer
    [i], bind the pipeline, draw 3 vertices in 1 instance from vertex 0 and
    instance 0, end the render pass, end the buffer.  So command buffer [i]
    is recorded against framebuffer [i] and no other, and the draws of the
    whole recording are exactly one such draw per command buffer. *)
Theorem createCommandBuffers_records (env : Platform) (s s' : App)
    (t : list Event) (a : unit) :
  createCommandBuffers env s = (Returns a, s', t) ->
  let n := length (swapChainFramebuffers s) in
  commandBuffers s' = map Some (seq 0 n)
  /\ t = AllocateCommandBuffers n
         :: concat (map (fun i =>
                           [BeginCommandBuffer i;
                            CmdBeginRenderPass i
                              (default None (swapChainFramebuffers s !! i));
                            CmdBindPipeline i; CmdDraw i 3 1 0 0;
                            CmdEndRenderPass i; EndCommandBuffer i])
                        (seq 0 n))
  /\ draws t = map (fun i => CmdDraw i 3 1 0 0) (seq 0 n)
  /\ (forall i fb,
        CmdBeginRenderPass i fb ∈ t <-> swapChainFramebuffers s !! i = Some fb).
Proof.
  intros H n. apply createCommandBuffers_returns in H as [-> ->]. fold n.
  split; [reflexivity|]. split; [reflexivity|]. split.
  - change (draws (AllocateCommandBuffers n
                   :: concat (map (record_one (swapChainFramebuffers s)) (seq 0 n))))
      with (draws (concat (map (record_one (swapChainFramebuffers s)) (seq 0 n)))).
    apply draws_recording.
  - intros i fb. rewrite elem_of_cons, recording_elem. split.
    + intros [H|(j & Hj & H)]; [discriminate H|].
      unfold record_one in H. elem_cases H. inversion H; subst.
      apply elem_of_seq in Hj.
      destruct (swapChainFramebuffers s !! j) as [x|] eqn:Hl; [reflexivity|].
      apply lookup_ge_None in Hl. fold n in Hl. lia.
    + intros Hl. right. exists i. split.
      * apply elem_of_seq. apply lookup_lt_Some in Hl. fold n in Hl. lia.
      * unfold record_one. rewrite Hl. simpl. elem_search.
Qed.

Lemma createCommandBuffers_records_witness :
  let s := set_swapChainFramebuffers [Some 0%nat; Some 1%nat]
             (app0 (0, mkExtent 0 0)) in
  let r := createCommandBuffers single_family s in
  commandBuffers (state_of r) = [Some 0%nat; Some 1%nat]
  /\ trace_of r
     = [AllocateCommandBuffers 2;
        BeginCommandBuffer 0; CmdBeginRenderPass 0 (Some 0%nat);
        CmdBindPipeline 0; CmdDraw 0 3 1 0 0; CmdEndRenderPass 0;
        EndCommandBuffer 0;
        BeginCommandBuffer 1; CmdBeginRenderPass 1 (Some 1%nat);
        CmdBindPipeline 1; CmdDraw 1 3 1 0 0; CmdEndRenderPass 1;
        EndCommandBuffer 1]
  /\ draws (trace_of r) = [CmdDraw 0 3 1 0 0; CmdDraw 1 3 1 0 0].
Proof.
  intros s r.
  destruct (createCommandBuffers_records single_family s (state_of r)
              (trace_of r) tt)
    as (Hcb & Ht & Hdraws & _).
  - vm_compute. reflexivity.
  - split; [exact Hcb|]. split; [exact Ht | exact Hdraws].
Defined.
